(** * generate_puzzles: the puzzle generator of unvelo-content

    A shallow embedding of [scripts/generate_puzzles.py] and the properties
    of its version reconciliation, content hashing and manifest upkeep.

    Conventions of the embedding.
    - A Python [str] is a list of characters; a character is a code point
      below 256, held as an [ascii].  Text is encoded to bytes as UTF-8.
    - A Python [int] is a [Z].
    - A Python [dict] is an association list in insertion order, with one
      binding per key.
    - The puzzles directory is a finite map from file names to file texts.
    - The table file is held as the records the [csv] module reads from it,
      the manifest file as the JSON document [json.loads] reads from it.
    - Conversions and writes go through.  Where Python or the file system
      can decide otherwise (the digits of an integer, a manifest that cannot
      be encoded, a file name that is a path, a table file that does not
      read back as written), the section on the platform says so and the
      properties that depend on it carry the condition. *)

From Stdlib Require Import ZArith NArith List Ascii String Bool Lia.
From Stdlib Require Import DecimalPos DecimalZ Sorted Permutation.
From stdpp Require Import base option list gmap strings.
Import ListNotations.

Local Open Scope list_scope.
Local Open Scope bool_scope.

(** ** Python strings *)

Abbreviation str := (list ascii).

Definition lit (s : string) : str := list_ascii_of_string s.

Definition dq : ascii := "034"%char.
Definition sq : ascii := "'"%char.
Definition TAB : ascii := "009"%char.
Definition LF : ascii := "010"%char.

(** [str.isspace] on one character below 256. *)
Definition isspace (c : ascii) : bool :=
  let n := N_of_ascii c in
  ((9 <=? n) && (n <=? 13) || (28 <=? n) && (n <=? 32)
   || (n =? 133) || (n =? 160))%N.

Fixpoint lstrip (s : str) : str :=
  match s with
  | c :: s' => if isspace c then lstrip s' else s
  | [] => []
  end.

Definition rstrip (s : str) : str := rev (lstrip (rev s)).

Definition strip (s : str) : str := rstrip (lstrip s).

Definition startswith_char (c : ascii) (s : str) : bool :=
  match s with
  | c' :: _ => Ascii.eqb c' c
  | [] => false
  end.

Definition endswith_char (c : ascii) (s : str) : bool :=
  startswith_char c (rev s).

(** [s.count(c)] for a one-character [c]. *)
Definition count_char (c : ascii) (s : str) : nat :=
  List.length (List.filter (Ascii.eqb c) s).

(** [s[-2]] when [len(s) >= 2]. *)
Definition second_last (s : str) : option ascii :=
  match rev s with
  | _ :: c :: _ => Some c
  | _ => None
  end.

Definition is_terminal_punct (c : ascii) : bool :=
  Ascii.eqb c "."%char || Ascii.eqb c "!"%char || Ascii.eqb c "?"%char.

(** [s.split(c)] for a one-character separator. *)
Fixpoint split_char (c : ascii) (s : str) : list str :=
  match s with
  | [] => [[]]
  | x :: s' =>
      if Ascii.eqb x c then [] :: split_char c s'
      else match split_char c s' with
           | p :: ps => (x :: p) :: ps
           | [] => [[x]]
           end
  end.

Definition is_empty (s : str) : bool :=
  match s with [] => true | _ => false end.

(** ** Field normalisation *)

Definition wrapped_in_quotes (s : str) : bool :=
  (2 <=? List.length s)%nat &&
  match s, rev s with
  | a :: _, b :: _ => Ascii.eqb a b && (Ascii.eqb a dq || Ascii.eqb a sq)
  | _, _ => false
  end.

Definition _strip_wrapping_quotes (text : str) : str :=
  let s := strip text in
  if wrapped_in_quotes s then strip (removelast (tl s))
  else
    let s :=
      if endswith_char sq s && negb (startswith_char sq s) then
        if (2 <=? List.length s)%nat
           && match second_last s with
              | Some c => is_terminal_punct c
              | None => false
              end
        then rstrip (removelast s)
        else if (count_char sq s =? 1)%nat then rstrip (removelast s)
        else s
      else s in
    let s :=
      if startswith_char sq s && negb (endswith_char sq s) then
        if (count_char sq s =? 1)%nat then lstrip (tl s) else s
      else s in
    s.

Definition _split_semicolon_list (text : str) : list str :=
  let s := _strip_wrapping_quotes text in
  if is_empty s then []
  else List.filter (fun p => negb (is_empty p)) (List.map strip (split_char ";"%char s)).

Definition _split_comma_list (text : str) : list str :=
  let s := _strip_wrapping_quotes text in
  if is_empty s then []
  else List.filter (fun p => negb (is_empty p)) (List.map strip (split_char ","%char s)).

Definition _detect_delimiter (first_line : str) : ascii :=
  if existsb (Ascii.eqb TAB) first_line then TAB else ","%char.

(** ** Python integers as text *)

Fixpoint uint_chars (d : Decimal.uint) : str :=
  match d with
  | Decimal.Nil => []
  | Decimal.D0 d => "0"%char :: uint_chars d
  | Decimal.D1 d => "1"%char :: uint_chars d
  | Decimal.D2 d => "2"%char :: uint_chars d
  | Decimal.D3 d => "3"%char :: uint_chars d
  | Decimal.D4 d => "4"%char :: uint_chars d
  | Decimal.D5 d => "5"%char :: uint_chars d
  | Decimal.D6 d => "6"%char :: uint_chars d
  | Decimal.D7 d => "7"%char :: uint_chars d
  | Decimal.D8 d => "8"%char :: uint_chars d
  | Decimal.D9 d => "9"%char :: uint_chars d
  end.

(** [str(n)] for an [int]: its decimal text.  Python prints an integer of
    at most 4300 digits and raises [ValueError] on a longer one; the text is
    given here for every integer, and [str_checked] below has the limit. *)
Definition str_of_int (n : Z) : str :=
  match Z.to_int n with
  | Decimal.Pos d => uint_chars d
  | Decimal.Neg d => "-"%char :: uint_chars d
  end.

Definition is_digit (c : ascii) : bool :=
  let n := N_of_ascii c in ((48 <=? n) && (n <=? 57))%N.

Fixpoint digits_uint (s : str) : option Decimal.uint :=
  match s with
  | [] => Some Decimal.Nil
  | c :: s' =>
      match digits_uint s' with
      | None => None
      | Some d =>
          if Ascii.eqb c "0" then Some (Decimal.D0 d)
          else if Ascii.eqb c "1" then Some (Decimal.D1 d)
          else if Ascii.eqb c "2" then Some (Decimal.D2 d)
          else if Ascii.eqb c "3" then Some (Decimal.D3 d)
          else if Ascii.eqb c "4" then Some (Decimal.D4 d)
          else if Ascii.eqb c "5" then Some (Decimal.D5 d)
          else if Ascii.eqb c "6" then Some (Decimal.D6 d)
          else if Ascii.eqb c "7" then Some (Decimal.D7 d)
          else if Ascii.eqb c "8" then Some (Decimal.D8 d)
          else if Ascii.eqb c "9" then Some (Decimal.D9 d)
          else None
      end
  end.

(** The digits of an integer literal: decimal digits, with single
    underscores allowed between two digits. *)
Fixpoint int_body (s : str) : option str :=
  match s with
  | [] => None
  | c :: s' =>
      if is_digit c then
        match s' with
        | [] => Some [c]
        | u :: s'' =>
            if Ascii.eqb u "_" then option_map (cons c) (int_body s'')
            else option_map (cons c) (int_body s')
        end
      else None
  end.

(** The white space [int()] skips around a literal. *)
Definition int_space (c : ascii) : bool :=
  let n := N_of_ascii c in
  ((9 <=? n) && (n <=? 13) || (n =? 32) || (n =? 133) || (n =? 160))%N.

Fixpoint drop_while (p : ascii -> bool) (s : str) : str :=
  match s with
  | c :: s' => if p c then drop_while p s' else s
  | [] => []
  end.

Definition int_magnitude (s : str) : option Z :=
  match int_body s with
  | Some ds => option_map Z.of_uint (digits_uint ds)
  | None => None
  end.

(** [int(s)] in base ten; [None] stands for [ValueError].  The limit
    Python 3.11 puts on the number of digits is left out: a literal of more
    than 4300 digits is read here, where [int] raises [ValueError]. *)
Definition py_int (s : str) : option Z :=
  let t := rev (drop_while int_space (rev (drop_while int_space s))) in
  match t with
  | c :: b =>
      if Ascii.eqb c "+" then int_magnitude b
      else if Ascii.eqb c "-" then option_map Z.opp (int_magnitude b)
      else int_magnitude t
  | [] => None
  end.

Definition _parse_int (value : str) (default : Z) : Z :=
  let s := _strip_wrapping_quotes value in
  if is_empty s then default
  else match py_int s with
       | Some n => n
       | None => default
       end.

(** ** Dictionaries and JSON values *)

Fixpoint str_eqb (a b : str) : bool :=
  match a, b with
  | [], [] => true
  | x :: a', y :: b' => Ascii.eqb x y && str_eqb a' b'
  | _, _ => false
  end.

(** The order of Python's [str] comparison: by code point, a proper prefix
    first. *)
Fixpoint str_leb (a b : str) : bool :=
  match a, b with
  | [], _ => true
  | _ :: _, [] => false
  | x :: a', y :: b' =>
      if Ascii.eqb x y then str_leb a' b'
      else (N_of_ascii x <? N_of_ascii y)%N
  end.

Definition dict (V : Type) : Type := list (str * V).

Fixpoint dict_get {V} (d : dict V) (k : str) : option V :=
  match d with
  | [] => None
  | (k', v) :: d' => if str_eqb k' k then Some v else dict_get d' k
  end.

(** [d[k] = v]: the binding of [k] is replaced where it stands, a new key
    goes to the end. *)
Fixpoint dict_set {V} (d : dict V) (k : str) (v : V) : dict V :=
  match d with
  | [] => [(k, v)]
  | (k', v') :: d' =>
      if str_eqb k' k then (k', v) :: d' else (k', v') :: dict_set d' k v
  end.

(** [d.pop(k, None)]. *)
Fixpoint dict_pop {V} (d : dict V) (k : str) : dict V :=
  match d with
  | [] => []
  | (k', v') :: d' => if str_eqb k' k then d' else (k', v') :: dict_pop d' k
  end.

Definition dict_keys {V} (d : dict V) : list str := map fst d.

(** What [json.loads] can yield, numbers with a fraction or an exponent
    (Python [float]) apart.  Texts hold code points below 256 only: a
    manifest with other characters is not shown, and neither is one with a
    lone surrogate, which [json.loads] reads and [save_manifest] cannot
    write (see [generate_saving]). *)
#[local] Unset Elimination Schemes.
Inductive jvalue : Type :=
| JNull
| JBool (b : bool)
| JInt (n : Z)
| JStr (s : str)
| JArr (l : list jvalue)
| JObj (d : list (str * jvalue)).
#[local] Set Elimination Schemes.

Definition hex_digit (n : N) : ascii :=
  if (n <? 10)%N then ascii_of_N (48 + n) else ascii_of_N (87 + n).

(** One character of a JSON string literal, under [ensure_ascii=False]. *)
Definition escape_char (c : ascii) : str :=
  let n := N_of_ascii c in
  if Ascii.eqb c dq then ["\"%char; dq]
  else if Ascii.eqb c "\"%char then ["\"%char; "\"%char]
  else if (n =? 10)%N then ["\"%char; "n"%char]
  else if (n =? 13)%N then ["\"%char; "r"%char]
  else if (n =? 9)%N then ["\"%char; "t"%char]
  else if (n =? 8)%N then ["\"%char; "b"%char]
  else if (n =? 12)%N then ["\"%char; "f"%char]
  else if (n <? 32)%N then
    ["\"%char; "u"%char; "0"%char; "0"%char;
     hex_digit (n / 16); hex_digit (n mod 16)]
  else [c].

Definition json_string (s : str) : str :=
  dq :: flat_map escape_char s ++ [dq].

Fixpoint join (sep : str) (l : list str) : str :=
  match l with
  | [] => []
  | x :: l' =>
      match l' with
      | [] => x
      | _ :: _ => x ++ sep ++ join sep l'
      end
  end.

Fixpoint insert_by_key (kv : str * str) (l : list (str * str)) : list (str * str) :=
  match l with
  | [] => [kv]
  | kv' :: l' =>
      if str_leb (fst kv) (fst kv') then kv :: l
      else kv' :: insert_by_key kv l'
  end.

(** Items in key order; the keys of a dictionary are distinct, which fixes
    the result. *)
Definition sort_items (l : list (str * str)) : list (str * str) :=
  fold_right insert_by_key [] l.

(** [json.dumps(v, ensure_ascii=False, sort_keys=True, separators=(",", ":"))] *)
Fixpoint dumps_compact (v : jvalue) : str :=
  match v with
  | JNull => lit "null"
  | JBool true => lit "true"
  | JBool false => lit "false"
  | JInt n => str_of_int n
  | JStr s => json_string s
  | JArr l => "["%char :: join [","%char] (map dumps_compact l) ++ ["]"%char]
  | JObj d =>
      "{"%char ::
      join [","%char]
        (map (fun kv => json_string (fst kv) ++ ":"%char :: snd kv)
           (sort_items (map (fun kv => (fst kv, dumps_compact (snd kv))) d)))
      ++ ["}"%char]
  end.

Definition newline_indent (depth : nat) : str :=
  LF :: repeat " "%char (2 * depth).

(** [json.dumps(v, ensure_ascii=False, indent=2)], at nesting [depth]. *)
Fixpoint dumps_indent (depth : nat) (v : jvalue) : str :=
  match v with
  | JNull => lit "null"
  | JBool true => lit "true"
  | JBool false => lit "false"
  | JInt n => str_of_int n
  | JStr s => json_string s
  | JArr [] => lit "[]"
  | JArr l =>
      "["%char :: newline_indent (S depth)
      ++ join (","%char :: newline_indent (S depth))
           (map (dumps_indent (S depth)) l)
      ++ newline_indent depth ++ ["]"%char]
  | JObj [] => lit "{}"
  | JObj d =>
      "{"%char :: newline_indent (S depth)
      ++ join (","%char :: newline_indent (S depth))
           (map (fun kv => json_string (fst kv) ++ lit ": "
                           ++ dumps_indent (S depth) (snd kv)) d)
      ++ newline_indent depth ++ ["}"%char]
  end.

(** ** UTF-8 and SHA-256 *)

(** [text.encode("utf-8")] for code points below 256: bytes as numbers. *)
Definition utf8_char (c : ascii) : list N :=
  let n := N_of_ascii c in
  if (n <? 128)%N then [n]
  else [N.lor 192 (N.shiftr n 6); N.lor 128 (N.land n 63)].

Definition utf8_encode (s : str) : list N := flat_map utf8_char s.

Module SHA256.
Local Open Scope N_scope.

Definition w32 (x : N) : N := x mod 4294967296.
Definition add32 (x y : N) : N := w32 (x + y).
Definition rotr (n x : N) : N :=
  N.lor (N.shiftr x n) (w32 (N.shiftl x (32 - n))).
Definition not32 (x : N) : N := N.lxor x 4294967295.

Definition Ch (x y z : N) : N := N.lxor (N.land x y) (N.land (not32 x) z).
Definition Maj (x y z : N) : N :=
  N.lxor (N.lxor (N.land x y) (N.land x z)) (N.land y z).
Definition Sigma0 (x : N) : N := N.lxor (N.lxor (rotr 2 x) (rotr 13 x)) (rotr 22 x).
Definition Sigma1 (x : N) : N := N.lxor (N.lxor (rotr 6 x) (rotr 11 x)) (rotr 25 x).
Definition sigma0 (x : N) : N := N.lxor (N.lxor (rotr 7 x) (rotr 18 x)) (N.shiftr x 3).
Definition sigma1 (x : N) : N := N.lxor (N.lxor (rotr 17 x) (rotr 19 x)) (N.shiftr x 10).

(** The constants are what the standard says they are: the first 32 bits of
    the fractional parts of the cube roots (for [K]) and of the square roots
    (for [H0]) of the first primes. *)
Definition is_prime (n : N) : bool :=
  forallb (fun d => negb (n mod N.of_nat d =? 0)) (seq 2 (N.to_nat n - 2)).

Definition primes (count : nat) : list N :=
  firstn count (List.filter is_prime (map N.of_nat (seq 2 310))).

Fixpoint cbrt_bits (bits : nat) (n r : N) : N :=
  match bits with
  | O => r
  | S b =>
      let r' := r + 2 ^ N.of_nat b in
      cbrt_bits b n (if r' * r' * r' <=? n then r' else r)
  end.

Definition frac32_cbrt (p : N) : N := w32 (cbrt_bits 40 (p * 2 ^ 96) 0).
Definition frac32_sqrt (p : N) : N := w32 (N.sqrt (p * 2 ^ 64)).

Definition K : list N := Eval vm_compute in map frac32_cbrt (primes 64).

(** The eight working words. *)
Record state : Type := State { sa : N; sb : N; sc : N; sd : N;
                               se : N; sf : N; sg : N; sh : N }.

Definition H0 : state :=
  Eval vm_compute in
    match map frac32_sqrt (primes 8) with
    | [a; b; c; d; e; f; g; h] => State a b c d e f g h
    | _ => State 0 0 0 0 0 0 0 0
    end.

(** Message padding: a 1 bit, zeros, and the bit length on 64 bits. *)
Definition be_bytes (width : nat) (x : N) : list N :=
  map (fun i => N.land (N.shiftr x (8 * N.of_nat i)) 255) (rev (seq 0 width)).

Definition pad (msg : list N) : list N :=
  let len := N.of_nat (List.length msg) in
  let zeros := N.to_nat ((119 - len mod 64) mod 64) in
  msg ++ 128 :: repeat 0 zeros ++ be_bytes 8 (8 * len).

Fixpoint words (bytes : list N) : list N :=
  match bytes with
  | b0 :: b1 :: b2 :: b3 :: rest =>
      (b0 * 16777216 + b1 * 65536 + b2 * 256 + b3) :: words rest
  | _ => []
  end.

Fixpoint blocks (fuel : nat) (ws : list N) : list (list N) :=
  match fuel with
  | O => []
  | S fuel' =>
      match ws with
      | [] => []
      | _ => firstn 16 ws :: blocks fuel' (skipn 16 ws)
      end
  end.

(** The message schedule: [n] more words after the (reversed) ones in
    [acc]. *)
Fixpoint schedule (n : nat) (acc : list N) : list N :=
  match n with
  | O => rev acc
  | S n' =>
      let w := add32 (add32 (sigma1 (nth 1 acc 0)) (nth 6 acc 0))
                     (add32 (sigma0 (nth 14 acc 0)) (nth 15 acc 0)) in
      schedule n' (w :: acc)
  end.

Definition round (s : state) (kw : N * N) : state :=
  let t1 := add32 (add32 (add32 (sh s) (Sigma1 (se s)))
                         (add32 (Ch (se s) (sf s) (sg s)) (fst kw))) (snd kw) in
  let t2 := add32 (Sigma0 (sa s)) (Maj (sa s) (sb s) (sc s)) in
  State (add32 t1 t2) (sa s) (sb s) (sc s) (add32 (sd s) t1) (se s) (sf s) (sg s).

Definition compress (h : state) (block : list N) : state :=
  let w := schedule 48 (rev block) in
  let s := fold_left round (combine K w) h in
  State (add32 (sa h) (sa s)) (add32 (sb h) (sb s)) (add32 (sc h) (sc s))
        (add32 (sd h) (sd s)) (add32 (se h) (se s)) (add32 (sf h) (sf s))
        (add32 (sg h) (sg s)) (add32 (sh h) (sh s)).

Definition digest (msg : list N) : state :=
  let ws := words (pad msg) in
  fold_left compress (blocks (List.length ws) ws) H0.

(** The digest as one 256-bit number, most significant word first. *)
Definition digest_num (s : state) : N :=
  ((((((sa s * 4294967296 + sb s) * 4294967296 + sc s) * 4294967296 + sd s)
      * 4294967296 + se s) * 4294967296 + sf s) * 4294967296 + sg s)
  * 4294967296 + sh s.

(** [hexdigest()]: the 64 hexadecimal digits of the digest. *)
Definition hexdigest (s : state) : str :=
  map (fun i => hex_digit (N.land (N.shiftr (digest_num s) (4 * N.of_nat i)) 15))
      (rev (seq 0 64)).
End SHA256.

Definition _sha256_text (text : str) : str :=
  SHA256.hexdigest (SHA256.digest (utf8_encode text)).

(** ** The table *)

Definition DATEKEY_COL : str := lit "dateKey (YYYY-MM-DD)".
Definition CATEGORY_COL : str := lit "category".
Definition TAGS_COL : str := lit "tags (semicolon-separated)".
Definition ANSWER_CANONICAL_COL : str := lit "answerCanonical".
Definition ANSWER_ALIASES_COL : str := lit "answerAliases (comma-separated)".
Definition SOLUTION_EXPLANATION_COL : str := lit "solutionExplanation".
Definition VERSION_COL : str := lit "version".
Definition CONTENT_HASH_COL : str := lit "contentHash".

Definition REQUIRED_COLS : list str :=
  [DATEKEY_COL; CATEGORY_COL; TAGS_COL; ANSWER_CANONICAL_COL;
   ANSWER_ALIASES_COL; SOLUTION_EXPLANATION_COL; VERSION_COL].

(** A row as [csv.DictReader] hands it over: the cells under their column
    names and, for a row longer than the header, the surplus cells, which
    [DictReader] stores as a list under the key [None]. *)
Record Row : Type := mkRow {
  cells : dict str;
  rest : option (list str)
}.

Record CsvTable : Type := mkCsvTable {
  header : list str;
  rows : list Row;
  delimiter : ascii
}.

(** The table file as the [csv] module presents it: [file_delimiter] is the
    answer of [_detect_delimiter] on the first line, [file_records] the
    records [csv.reader] yields with it, one per line and [[]] for a blank
    line.  The empty file has no record. *)
Record CsvFile : Type := mkCsvFile {
  file_delimiter : ascii;
  file_records : list (list str)
}.

Inductive error : Type :=
| EmptyCsv                              (* ValueError: Empty CSV/TSV *)
| NoHeader                              (* ValueError: No header detected *)
| MissingColumns (missing : list str)   (* ValueError: Missing required column(s) *)
| ManifestNotFound                      (* FileNotFoundError *)
| ManifestNotJson                       (* json.JSONDecodeError *)
| ManifestNotDict                       (* TypeError *)
| ListHasNoStrip.                       (* AttributeError *)

Inductive result (A : Type) : Type :=
| Ok (a : A)
| Raise (e : error).
Arguments Ok {A} a.
Arguments Raise {A} e.

Definition row_get (row : Row) (k : str) : str :=
  match dict_get (cells row) k with
  | Some v => v
  | None => []
  end.

Definition row_set (row : Row) (k v : str) : Row :=
  mkRow (dict_set (cells row) k v) (rest row).

(** [dict(zip(fieldnames, record))], then the surplus of a long record under
    [None] and the empty text for the columns a short record lacks. *)
Fixpoint zip_cells (d : dict str) (names record : list str) : dict str :=
  match names, record with
  | k :: names', v :: record' => zip_cells (dict_set d k v) names' record'
  | _, _ => d
  end.

Definition dict_reader_row (fieldnames record : list str) : Row :=
  let d := zip_cells [] fieldnames record in
  let lf := List.length fieldnames in
  let lr := List.length record in
  if (lf <? lr)%nat then mkRow d (Some (skipn lf record))
  else mkRow (fold_left (fun d k => dict_set d k []) (skipn lr fieldnames) d) None.

Definition read_csv_table (f : CsvFile) : result CsvTable :=
  match file_records f with
  | [] => Raise EmptyCsv
  | fieldnames :: records =>
      let rows :=
        map (dict_reader_row fieldnames)
            (List.filter (fun r => negb (match r with [] => true | _ => false end))
                         records) in
      match fieldnames with
      | [] => Raise NoHeader
      | _ => Ok (mkCsvTable fieldnames rows (file_delimiter f))
      end
  end.

(** What [csv.DictWriter] leaves in the file: the header, then for each row
    its cell, or the empty text, under each column of the header.  The
    quoting of the [csv] module is not modelled: the file is taken to read
    back as these records, with the same delimiter, which is what
    [reads_as_written] below says and what a carriage return in a cell
    breaks.  The fallback to a sibling file when the table file is locked
    is left out: the table file is taken to be replaced. *)
Definition write_csv_table (table : CsvTable) : CsvFile :=
  mkCsvFile (delimiter table)
    (header table
     :: map (fun row => map (fun k => row_get row k) (header table)) (rows table)).

Definition str_in (k : str) (l : list str) : bool := existsb (str_eqb k) l.

Definition _require_columns (table : CsvTable) (required : list str) : result unit :=
  match List.filter (fun c => negb (str_in c (header table))) required with
  | [] => Ok tt
  | missing => Raise (MissingColumns missing)
  end.

Definition _hint_columns : list (str * str) :=
  map (fun i => (lit "hint" ++ str_of_int (Z.of_nat i),
                 lit "hint" ++ str_of_int (Z.of_nat i) ++ lit "Explanation"))
      (seq 1 5).

(** The stripped text of some value of the row is non-empty.  The cells
    come first; the surplus list, which is last, has no [strip]. *)
Definition _row_has_any_content (row : Row) : result bool :=
  if existsb (fun v => negb (is_empty (strip v))) (map snd (cells row)) then Ok true
  else match rest row with
       | Some (_ :: _) => Raise ListHasNoStrip
       | _ => Ok false
       end.

(** ** Puzzle records *)

Definition hint_obj (idx : nat) (hint_text expl : str) : jvalue :=
  let d := [(lit "id", JStr (lit "h" ++ str_of_int (Z.of_nat idx + 1)));
            (lit "index", JInt (Z.of_nat idx));
            (lit "text", JStr hint_text)] in
  JObj (if is_empty expl then d else dict_set d (lit "explanationText") (JStr expl)).

Fixpoint build_hints (row : Row) (idx : nat) (cols : list (str * str)) : list jvalue :=
  match cols with
  | [] => []
  | (hint_col, expl_col) :: cols' =>
      let hint_text := _strip_wrapping_quotes (row_get row hint_col) in
      if is_empty hint_text then build_hints row (S idx) cols'
      else hint_obj idx hint_text (_strip_wrapping_quotes (row_get row expl_col))
           :: build_hints row (S idx) cols'
  end.

Definition build_puzzle_object (row : Row) (version : Z) : dict jvalue :=
  let date_key := _strip_wrapping_quotes (row_get row DATEKEY_COL) in
  let category := _strip_wrapping_quotes (row_get row CATEGORY_COL) in
  let tags := _split_semicolon_list (row_get row TAGS_COL) in
  let answer_canonical := _strip_wrapping_quotes (row_get row ANSWER_CANONICAL_COL) in
  let answer_aliases := _split_comma_list (row_get row ANSWER_ALIASES_COL) in
  let solution_explanation :=
    _strip_wrapping_quotes (row_get row SOLUTION_EXPLANATION_COL) in
  let hints := build_hints row 0 _hint_columns in
  [(lit "id", JStr date_key);
   (lit "dateKey", JStr date_key);
   (lit "version", JInt version);
   (lit "category", JStr category);
   (lit "tags", JArr (map JStr tags));
   (lit "answerCanonical", JStr answer_canonical);
   (lit "answerAliases", JArr (map JStr answer_aliases));
   (lit "hints", JArr hints);
   (lit "solutionExplanation", JStr solution_explanation)].

(** [h.get("index", 0)] for a hint; the hints of a built record are
    dictionaries with an integer index. *)
Definition hint_index (h : jvalue) : Z :=
  match h with
  | JObj d => match dict_get d (lit "index") with
              | Some (JInt n) => n
              | _ => 0
              end
  | _ => 0
  end.

Fixpoint insert_by_index (h : jvalue) (l : list jvalue) : list jvalue :=
  match l with
  | [] => [h]
  | h' :: l' =>
      if (hint_index h <=? hint_index h')%Z then h :: l
      else h' :: insert_by_index h l'
  end.

(** [sorted(hints, key=...)]: a stable sort. *)
Definition sorted_by_index (l : list jvalue) : list jvalue :=
  fold_right insert_by_index [] l.

(** The text that is hashed. *)
Definition canonical_text (puzzle_obj : dict jvalue) : str :=
  let content := dict_pop puzzle_obj (lit "version") in
  let content :=
    match dict_get content (lit "hints") with
    | Some (JArr hs) => dict_set content (lit "hints") (JArr (sorted_by_index hs))
    | _ => content
    end in
  dumps_compact (JObj content).

Definition compute_content_hash (puzzle_obj : dict jvalue) : str :=
  _sha256_text (canonical_text puzzle_obj).

(** The text of a puzzle file. *)
Definition puzzle_file_text (puzzle_obj : dict jvalue) : str :=
  dumps_indent 0 (JObj puzzle_obj) ++ [LF].

(** ** The clock *)

(** A reading of the UTC clock, as [datetime.now(timezone.utc)] gives it. *)
Record datetime : Type := mkDatetime {
  year : N; month : N; day : N;
  hour : N; minute : N; second : N; microsecond : N
}.

Definition zero_pad (width : nat) (n : N) : str :=
  let ds := uint_chars (N.to_uint n) in
  repeat "0"%char (width - List.length ds) ++ ds.

(** [d.isoformat()] for a UTC reading. *)
Definition isoformat (d : datetime) : str :=
  zero_pad 4 (year d) ++ "-"%char :: zero_pad 2 (month d) ++ "-"%char
  :: zero_pad 2 (day d) ++ "T"%char :: zero_pad 2 (hour d) ++ ":"%char
  :: zero_pad 2 (minute d) ++ ":"%char :: zero_pad 2 (second d)
  ++ (if (microsecond d =? 0)%N then []
      else "."%char :: zero_pad 6 (microsecond d))
  ++ lit "+00:00".

Fixpoint strip_prefix (p s : str) : option str :=
  match p, s with
  | [], _ => Some s
  | a :: p', b :: s' => if Ascii.eqb a b then strip_prefix p' s' else None
  | _ :: _, [] => None
  end.

Fixpoint replace_fuel (fuel : nat) (old new s : str) : str :=
  match fuel with
  | O => s
  | S fuel' =>
      match strip_prefix old s with
      | Some s' => new ++ replace_fuel fuel' old new s'
      | None => match s with
                | [] => []
                | c :: s' => c :: replace_fuel fuel' old new s'
                end
      end
  end.

(** [s.replace(old, new)] for a non-empty [old]. *)
Definition str_replace (old new s : str) : str :=
  replace_fuel (S (List.length s)) old new s.

Definition _utc_now_iso_z (now : datetime) : str :=
  str_replace (lit "+00:00") (lit "Z")
    (isoformat (mkDatetime (year now) (month now) (day now)
                           (hour now) (minute now) (second now) 0)).

(** ** Files and the manifest *)

Inductive JsonFile : Type :=
| FileMissing
| FileNotJson
| FileJson (v : jvalue).

Record FileSystem : Type := mkFS {
  csv_file : CsvFile;
  puzzles_dir : option (gmap str str);
  manifest_file : JsonFile
}.

Definition load_manifest (f : JsonFile) : result jvalue :=
  match f with
  | FileMissing => Raise ManifestNotFound
  | FileNotJson => Raise ManifestNotJson
  | FileJson v => Ok v
  end.

Definition is_dict (v : option jvalue) : bool :=
  match v with
  | Some (JObj _) => true
  | _ => false
  end.

(** On anything but a dictionary the membership test or the item
    assignment raises [TypeError]. *)
Definition ensure_manifest_shape (manifest : jvalue) : result (dict jvalue) :=
  match manifest with
  | JObj d =>
      let d := if is_dict (dict_get d (lit "puzzles")) then d
               else dict_set d (lit "puzzles") (JObj []) in
      let d := if is_dict (dict_get d (lit "meta")) then d
               else dict_set d (lit "meta") (JObj []) in
      Ok d
  | _ => Raise ManifestNotDict
  end.

(** Python's [==] on JSON values: [True == 1], and dictionaries compare
    without regard to order. *)
Fixpoint py_eq (a b : jvalue) : bool :=
  match a, b with
  | JNull, JNull => true
  | JBool x, JBool y => Bool.eqb x y
  | JBool x, JInt n => (n =? (if x then 1 else 0))%Z
  | JInt n, JBool x => (n =? (if x then 1 else 0))%Z
  | JInt n, JInt m => (n =? m)%Z
  | JStr s, JStr t => str_eqb s t
  | JArr l, JArr m =>
      (fix all2 (l m : list jvalue) : bool :=
         match l, m with
         | [], [] => true
         | x :: l', y :: m' => py_eq x y && all2 l' m'
         | _, _ => false
         end) l m
  | JObj d, JObj e =>
      (List.length d =? List.length e)%nat &&
      (fix all (d : list (str * jvalue)) : bool :=
         match d with
         | [] => true
         | kv :: d' =>
             match dict_get e (fst kv) with
             | Some w => py_eq (snd kv) w
             | None => false
             end && all d'
         end) d
  | _, _ => false
  end.

(** [existing != new], where [existing] is [None] for an absent key. *)
Definition entry_differs (existing : option jvalue) (new_entry : jvalue) : bool :=
  match existing with
  | Some e => negb (py_eq e new_entry)
  | None => true
  end.

Record RowResult : Type := mkRowResult {
  date_key : str;
  version : Z;
  created : bool;
  refreshed : bool;
  bumped : bool;
  reason : str
}.

(** [write_puzzle_json]: the file is written and the digest of its text
    returned.  The write is taken to go through, and the file name to name
    a file of the puzzles directory of its own, as the name built from a day
    key of digits and hyphens does ([date_like] below); [write_text] raises
    when it cannot write, and a name with a path separator or a dot segment
    is another path. *)
Definition write_puzzle_json (files : gmap str str) (filename : str)
    (puzzle_obj : dict jvalue) : gmap str str * str :=
  let text := puzzle_file_text puzzle_obj in
  (<[filename := text]> files, _sha256_text text).

Definition manifest_entry (current_version : Z) (url sha256 : str) : jvalue :=
  JObj [(lit "version", JInt current_version);
        (lit "url", JStr url);
        (lit "sha256", JStr sha256)].

(** ** The run *)

(** What the loop of [generate] carries from row to row. *)
Record LoopState : Type := mkLoop {
  files : gmap str str;           (* the puzzles directory *)
  puzzles_manifest : dict jvalue; (* manifest["puzzles"] *)
  table_rows : list Row;          (* the rows gone through, as they stand *)
  results : list RowResult;
  skipped_blank_rows : nat;
  skipped_missing_date : nat;
  any_csv_updates : bool;
  any_manifest_updates : bool
}.

Definition skip_blank (st : LoopState) (row : Row) : LoopState :=
  mkLoop (files st) (puzzles_manifest st) (table_rows st ++ [row]) (results st)
         (S (skipped_blank_rows st)) (skipped_missing_date st)
         (any_csv_updates st) (any_manifest_updates st).

Definition skip_missing_date (st : LoopState) (row : Row) : LoopState :=
  mkLoop (files st) (puzzles_manifest st) (table_rows st ++ [row]) (results st)
         (skipped_blank_rows st) (S (skipped_missing_date st))
         (any_csv_updates st) (any_manifest_updates st).

Definition file_name (date_key : str) (current_version : Z) : str :=
  date_key ++ lit ".v" ++ str_of_int current_version ++ lit ".json".

(** The body of the loop for a row with content and a day key, when every
    step of it goes through.  [puzzle_path.exists()] is taken as the lookup
    of the file name in the directory and never raises; [str] prints every
    version. *)
Definition reconcile_row (dry_run : bool) (st : LoopState) (row : Row)
    (date_key : str) : LoopState :=
  let current_version := _parse_int (row_get row VERSION_COL) 1 in
  let stored_hash := _strip_wrapping_quotes (row_get row CONTENT_HASH_COL) in
  let puzzle_obj := build_puzzle_object row current_version in
  let computed_hash := compute_content_hash puzzle_obj in
  let bumped := negb (is_empty stored_hash)
                && negb (str_eqb stored_hash computed_hash) in
  let current_version := if bumped then (current_version + 1)%Z else current_version in
  let puzzle_obj := if bumped then build_puzzle_object row current_version
                    else puzzle_obj in
  let any_csv := any_csv_updates st || is_empty stored_hash in
  let row := if bumped then row_set row VERSION_COL (str_of_int current_version)
             else row in
  let any_csv := any_csv || bumped in
  let row := row_set row CONTENT_HASH_COL computed_hash in
  let filename := file_name date_key current_version in
  let url := lit "/puzzles/" ++ filename in
  let existed_before := bool_decide (is_Some (files st !! filename)) in
  let sha256 := _sha256_text (puzzle_file_text puzzle_obj) in
  let written :=
    if dry_run then (files st, sha256)
    else write_puzzle_json (files st) filename puzzle_obj in
  let new_manifest_entry := manifest_entry current_version url (snd written) in
  let existing_manifest_entry := dict_get (puzzles_manifest st) date_key in
  let any_manifest :=
    any_manifest_updates st
    || entry_differs existing_manifest_entry new_manifest_entry in
  let created := if dry_run then negb existed_before
                 else negb existed_before && negb dry_run in
  let refreshed := if dry_run then existed_before
                   else existed_before && negb dry_run in
  let reason :=
    if bumped then lit "content changed -> version bumped"
    else if is_empty stored_hash then lit "initialized contentHash"
    else lit "no content change" in
  mkLoop (fst written)
         (dict_set (puzzles_manifest st) date_key new_manifest_entry)
         (table_rows st ++ [row])
         (results st ++ [mkRowResult date_key current_version created refreshed
                                     bumped reason])
         (skipped_blank_rows st) (skipped_missing_date st)
         any_csv any_manifest.

Definition process_row (dry_run : bool) (st : LoopState) (row : Row)
    : result LoopState :=
  match _row_has_any_content row with
  | Raise e => Raise e
  | Ok false => Ok (skip_blank st row)
  | Ok true =>
      let date_key := _strip_wrapping_quotes (row_get row DATEKEY_COL) in
      if is_empty date_key then Ok (skip_missing_date st row)
      else Ok (reconcile_row dry_run st row date_key)
  end.

(** The loop; when a row raises, the state reached so far is what the
    exception leaves behind. *)
Fixpoint run_rows (dry_run : bool) (st : LoopState) (todo : list Row)
    : LoopState * option error :=
  match todo with
  | [] => (st, None)
  | row :: todo' =>
      match process_row dry_run st row with
      | Ok st' => run_rows dry_run st' todo'
      | Raise e => (st, Some e)
      end
  end.

(** What the summary of a completed run says, with the manifest and the
    table as they stand in memory at the end. *)
Record Report : Type := mkReport {
  rep_results : list RowResult;
  rep_skipped_blank_rows : nat;
  rep_skipped_missing_date : nat;
  rep_csv_updated : bool;
  rep_manifest_updated : bool;
  rep_manifest : dict jvalue;
  rep_table : CsvTable
}.

Inductive outcome : Type :=
| Done (fs : FileSystem) (rep : Report)
| Aborted (e : error) (fs : FileSystem).

(** [puzzles_dir.mkdir(parents=True, exist_ok=True)] *)
Definition mkdir (dir : option (gmap str str)) : gmap str str :=
  match dir with
  | Some fs => fs
  | None => ∅
  end.

Definition sub_dict (manifest : dict jvalue) (k : str) : dict jvalue :=
  match dict_get manifest k with
  | Some (JObj d) => d
  | _ => []
  end.

Definition stamp (manifest : dict jvalue) (now : datetime) : dict jvalue :=
  dict_set manifest (lit "meta")
    (JObj (dict_set (sub_dict manifest (lit "meta")) (lit "generatedAtUtc")
                    (JStr (_utc_now_iso_z now)))).

Definition generate (dry_run : bool) (now : datetime) (fs : FileSystem) : outcome :=
  match read_csv_table (csv_file fs) with
  | Raise e => Aborted e fs
  | Ok table =>
  match _require_columns table REQUIRED_COLS with
  | Raise e => Aborted e fs
  | Ok _ =>
  let table_header :=
    if str_in CONTENT_HASH_COL (header table) then header table
    else header table ++ [CONTENT_HASH_COL] in
  let dir := mkdir (puzzles_dir fs) in
  let fs := mkFS (csv_file fs) (Some dir) (manifest_file fs) in
  match load_manifest (manifest_file fs) with
  | Raise e => Aborted e fs
  | Ok loaded =>
  match ensure_manifest_shape loaded with
  | Raise e => Aborted e fs
  | Ok manifest =>
  let st0 := mkLoop dir (sub_dict manifest (lit "puzzles")) [] [] 0 0 false false in
  match run_rows dry_run st0 (rows table) with
  | (st, Some e) => Aborted e (mkFS (csv_file fs) (Some (files st)) (manifest_file fs))
  | (st, None) =>
  let table := mkCsvTable table_header (table_rows st) (delimiter table) in
  let manifest := dict_set manifest (lit "puzzles") (JObj (puzzles_manifest st)) in
  let manifest := if any_manifest_updates st then stamp manifest now else manifest in
  let manifest_file' :=
    if negb dry_run && any_manifest_updates st then FileJson (JObj manifest)
    else manifest_file fs in
  let csv_file' :=
    if negb dry_run && any_csv_updates st then write_csv_table table
    else csv_file fs in
  Done (mkFS csv_file' (Some (files st)) manifest_file')
       (mkReport (results st) (skipped_blank_rows st) (skipped_missing_date st)
                 (any_csv_updates st) (any_manifest_updates st) manifest table)
  end end end end end.

(** ** The loop, row by row

    What the loop does with a row is fixed by the row alone, up to whether
    the artifact existed and what the manifest held: this is the row's
    plan. *)

Record Plan : Type := mkPlan {
  pl_key : str;           (* the day key *)
  pl_version : Z;         (* the version after reconciliation *)
  pl_bumped : bool;
  pl_init : bool;         (* the stored hash was empty *)
  pl_row : Row;           (* the row as it is left *)
  pl_obj : dict jvalue;   (* the record that is published *)
  pl_reason : str
}.

Definition plan_row (row : Row) (date_key : str) : Plan :=
  let parsed := _parse_int (row_get row VERSION_COL) 1 in
  let stored_hash := _strip_wrapping_quotes (row_get row CONTENT_HASH_COL) in
  let computed_hash := compute_content_hash (build_puzzle_object row parsed) in
  let bumped := negb (is_empty stored_hash)
                && negb (str_eqb stored_hash computed_hash) in
  let current_version := if bumped then (parsed + 1)%Z else parsed in
  mkPlan date_key current_version bumped (is_empty stored_hash)
    (row_set (if bumped then row_set row VERSION_COL (str_of_int current_version)
              else row) CONTENT_HASH_COL computed_hash)
    (if bumped then build_puzzle_object row current_version
     else build_puzzle_object row parsed)
    (if bumped then lit "content changed -> version bumped"
     else if is_empty stored_hash then lit "initialized contentHash"
     else lit "no content change").

Definition plan_file (p : Plan) : str := file_name (pl_key p) (pl_version p).
Definition plan_text (p : Plan) : str := puzzle_file_text (pl_obj p).
Definition plan_entry (p : Plan) : jvalue :=
  manifest_entry (pl_version p) (lit "/puzzles/" ++ plan_file p)
                 (_sha256_text (plan_text p)).

Definition apply_plan (dry_run : bool) (st : LoopState) (p : Plan) : LoopState :=
  let existed_before := bool_decide (is_Some (files st !! plan_file p)) in
  mkLoop (if dry_run then files st else <[plan_file p := plan_text p]> (files st))
         (dict_set (puzzles_manifest st) (pl_key p) (plan_entry p))
         (table_rows st ++ [pl_row p])
         (results st ++ [mkRowResult (pl_key p) (pl_version p) (negb existed_before)
                                     existed_before (pl_bumped p) (pl_reason p)])
         (skipped_blank_rows st) (skipped_missing_date st)
         (any_csv_updates st || pl_init p || pl_bumped p)
         (any_manifest_updates st
          || entry_differs (dict_get (puzzles_manifest st) (pl_key p)) (plan_entry p)).

(** The plan of a row that is processed; [None] for a row that is skipped
    (or on which the run stops). *)
Definition row_plan (row : Row) : option Plan :=
  match _row_has_any_content row with
  | Ok true =>
      let date_key := _strip_wrapping_quotes (row_get row DATEKEY_COL) in
      if is_empty date_key then None else Some (plan_row row date_key)
  | _ => None
  end.

Definition plans (todo : list Row) : list Plan := omap row_plan todo.

(** The day keys of the rows that are processed. *)
Definition day_keys (todo : list Row) : list str := map pl_key (plans todo).

(** One turn of the loop on a row that does not raise. *)
Definition step (dry_run : bool) (st : LoopState) (row : Row) : LoopState :=
  match row_plan row with
  | Some p => apply_plan dry_run st p
  | None =>
      match _row_has_any_content row with
      | Ok true => skip_missing_date st row
      | _ => skip_blank st row
      end
  end.

(** The entries of a manifest file: the members of its [puzzles] object. *)
Definition manifest_entries (f : JsonFile) : dict jvalue :=
  match f with
  | FileJson (JObj d) => sub_dict d (lit "puzzles")
  | _ => []
  end.

Definition upsert (pm : dict jvalue) (p : Plan) : dict jvalue :=
  dict_set pm (pl_key p) (plan_entry p).

(** Some upsert of the run replaces an entry by one that differs from it
    (or adds an entry). *)
Definition entry_changed (pm : dict jvalue) (ps : list Plan) : Prop :=
  exists pre p post,
    ps = pre ++ p :: post /\
    (entry_differs (dict_get (fold_left upsert pre pm) (pl_key p)) (plan_entry p)
     = true).

(** The loop state [generate] starts from, and what it makes of the state
    the loop ends in. *)
Definition loop_start (fs : FileSystem) : LoopState :=
  mkLoop (mkdir (puzzles_dir fs)) (manifest_entries (manifest_file fs))
         [] [] 0 0 false false.

Definition with_content_hash (h : list str) : list str :=
  if str_in CONTENT_HASH_COL h then h else h ++ [CONTENT_HASH_COL].

Definition final_table (table : CsvTable) (st : LoopState) : CsvTable :=
  mkCsvTable (with_content_hash (header table)) (table_rows st) (delimiter table).

Definition final_manifest (now : datetime) (manifest : dict jvalue)
    (st : LoopState) : dict jvalue :=
  let manifest := dict_set manifest (lit "puzzles") (JObj (puzzles_manifest st)) in
  if any_manifest_updates st then stamp manifest now else manifest.

Definition final_fs (dry_run : bool) (now : datetime) (fs : FileSystem)
    (table : CsvTable) (manifest : dict jvalue) (st : LoopState) : FileSystem :=
  mkFS (if negb dry_run && any_csv_updates st
        then write_csv_table (final_table table st) else csv_file fs)
       (Some (files st))
       (if negb dry_run && any_manifest_updates st
        then FileJson (JObj (final_manifest now manifest st)) else manifest_file fs).

Definition final_report (now : datetime) (table : CsvTable)
    (manifest : dict jvalue) (st : LoopState) : Report :=
  mkReport (results st) (skipped_blank_rows st) (skipped_missing_date st)
           (any_csv_updates st) (any_manifest_updates st)
           (final_manifest now manifest st) (final_table table st).

(** ** What a plan does to the files and to the manifest *)

Definition file_write (p : Plan) : str * str := (plan_file p, plan_text p).
Definition entry_write (p : Plan) : str * jvalue := (pl_key p, plan_entry p).

Definition write_file (f : gmap str str) (kv : str * str) : gmap str str :=
  <[fst kv := snd kv]> f.

(** Whether a sequence of upserts changes an entry, as the loop tracks it. *)
Fixpoint changes (pm : dict jvalue) (kes : list (str * jvalue)) : bool :=
  match kes with
  | [] => false
  | ke :: kes' =>
      entry_differs (dict_get pm (fst ke)) (snd ke)
      || changes (dict_set pm (fst ke) (snd ke)) kes'
  end.

(** The row the loop leaves in the table. *)
Definition row_out (row : Row) : Row :=
  match row_plan row with
  | Some p => pl_row p
  | None => row
  end.

(** The row [DictWriter] writes and [DictReader] reads back. *)
Definition reread (h : list str) (row : Row) : Row :=
  dict_reader_row h (map (row_get row) h).

(** A plan that repeats what an earlier run of the row settled. *)
Definition settled (p2 p : Plan) : Prop :=
  pl_key p2 = pl_key p /\ pl_version p2 = pl_version p /\ pl_obj p2 = pl_obj p /\
  pl_bumped p2 = false /\ pl_init p2 = false.

(** ** The canonical text, piece by piece *)

Definition member (k : string) (v : str) : str := json_string (lit k) ++ ":"%char :: v.

Definition array_text (items : list str) : str :=
  "["%char :: join [","%char] items ++ ["]"%char].

Definition record_text (aliases : list str) (canon category dk : str)
    (hints : list str) (sol : str) (tags : list str) : str :=
  "{"%char ::
  join [","%char]
    [member "answerAliases" (array_text (map json_string aliases));
     member "answerCanonical" (json_string canon);
     member "category" (json_string category);
     member "dateKey" (json_string dk);
     member "hints" (array_text hints);
     member "id" (json_string dk);
     member "solutionExplanation" (json_string sol);
     member "tags" (array_text (map json_string tags))]
  ++ ["}"%char].

Definition hex_value (c : ascii) : N :=
  let n := N_of_ascii c in if (n <? 58)%N then (n - 48)%N else (n - 87)%N.

(** One character off the front of the inside of a JSON string literal. *)
Definition unescape (s : str) : option (ascii * str) :=
  match s with
  | [] => None
  | c :: r =>
      if Ascii.eqb c "\" then
        match r with
        | [] => None
        | x :: r' =>
            if Ascii.eqb x "n" then Some (LF, r')
            else if Ascii.eqb x "r" then Some ("013"%char, r')
            else if Ascii.eqb x "t" then Some (TAB, r')
            else if Ascii.eqb x "b" then Some ("008"%char, r')
            else if Ascii.eqb x "f" then Some ("012"%char, r')
            else if Ascii.eqb x "u" then
              match r' with
              | _ :: _ :: h1 :: h2 :: r'' =>
                  Some (ascii_of_N (16 * hex_value h1 + hex_value h2), r'')
              | _ => None
              end
            else Some (x, r')
        end
      else Some (c, r)
  end.

(** One character off the front of UTF-8 bytes, for code points below 256. *)
Definition utf8_decode_one (bs : list N) : option (ascii * list N) :=
  match bs with
  | [] => None
  | b :: r =>
      if (b <? 128)%N then Some (ascii_of_N b, r)
      else match r with
           | b2 :: r' => Some (ascii_of_N (N.land b 3 * 64 + N.land b2 63), r')
           | [] => None
           end
  end.

(** An encoder whose output can be told from what follows it. *)
Definition prefix_inj {A} (E : A -> str) : Prop :=
  forall x y t1 t2, E x ++ t1 = E y ++ t2 -> x = y /\ t1 = t2.

(** The hints of a row as data: slot, text and explanation (empty when
    there is none). *)
Fixpoint hints_data (row : Row) (idx : nat) (cols : list (str * str))
    : list (nat * str * str) :=
  match cols with
  | [] => []
  | (hint_col, expl_col) :: cols' =>
      let hint_text := _strip_wrapping_quotes (row_get row hint_col) in
      if is_empty hint_text then hints_data row (S idx) cols'
      else (idx, hint_text, _strip_wrapping_quotes (row_get row expl_col))
           :: hints_data row (S idx) cols'
  end.

Definition hint_of (d : nat * str * str) : jvalue :=
  hint_obj (fst (fst d)) (snd (fst d)) (snd d).

Definition hint_text (d : nat * str * str) : str :=
  "{"%char ::
  join [","%char]
    ((if is_empty (snd d) then []
      else [member "explanationText" (json_string (snd d))])
     ++ [member "id" (json_string (lit "h" ++ str_of_int (Z.of_nat (fst (fst d)) + 1)));
         member "index" (str_of_int (Z.of_nat (fst (fst d))));
         member "text" (json_string (snd (fst d)))])
  ++ ["}"%char].

(** The fields of a puzzle record the content hash is to cover. *)
Definition content_fields : list str :=
  [lit "id"; lit "dateKey"; lit "category"; lit "tags"; lit "answerAliases";
   lit "answerCanonical"; lit "hints"; lit "solutionExplanation"].

(** Two byte strings with one SHA-256 digest. *)
Definition sha256_collision (a b : list N) : Prop :=
  a <> b /\
  SHA256.hexdigest (SHA256.digest a) = SHA256.hexdigest (SHA256.digest b).

(** The 257 low bits of a number, as a text of zeros and ones. *)
Definition bits_text (i : N) : str :=
  map (fun k => if N.testbit i (N.of_nat k) then "1"%char else "0"%char)
      (seq 0 257).

(** A row whose category is such a text. *)
Definition category_row (i : N) : Row :=
  mkRow [(CATEGORY_COL, bits_text i)] None.

(** The eight words of a digest are 32-bit words. *)
Definition words32 (s : SHA256.state) : Prop :=
  (SHA256.sa s < 4294967296 /\ SHA256.sb s < 4294967296 /\
   SHA256.sc s < 4294967296 /\ SHA256.sd s < 4294967296 /\
   SHA256.se s < 4294967296 /\ SHA256.sf s < 4294967296 /\
   SHA256.sg s < 4294967296 /\ SHA256.sh s < 4294967296)%N.

(** ** Notions the statements use *)

(** What the claim calls "preceded by terminal punctuation". *)
Definition after_terminal_punct (s : str) : Prop :=
  exists body p, s = body ++ [p; sq] /\
                 (p = "."%char \/ p = "!"%char \/ p = "?"%char).

(** The row as the loop leaves it, and its entry in the results. *)
Definition row_after (st' : LoopState) : option Row := last (table_rows st').
Definition result_after (st' : LoopState) : option RowResult := last (results st').

Definition is_table_error (e : error) : bool :=
  match e with
  | EmptyCsv | NoHeader | MissingColumns _ => true
  | _ => false
  end.

Definition is_manifest_error (e : error) : bool :=
  match e with
  | ManifestNotFound | ManifestNotJson | ManifestNotDict => true
  | _ => false
  end.

Definition input_empty (f : CsvFile) : Prop := file_records f = [].

Definition no_header_row (f : CsvFile) : Prop :=
  exists more, file_records f = [] :: more.

Definition required_column_missing (f : CsvFile) : Prop :=
  exists h more, file_records f = h :: more /\ h <> [] /\
                 exists c, In c REQUIRED_COLS /\ ~ In c h.

Definition bad_table (f : CsvFile) : Prop :=
  input_empty f \/ no_header_row f \/ required_column_missing f.

(** Reading and checking together, as [generate] opens. *)
Definition checked_table (f : CsvFile) : result CsvTable :=
  match read_csv_table f with
  | Raise e => Raise e
  | Ok table =>
      match _require_columns table REQUIRED_COLS with
      | Raise e => Raise e
      | Ok _ => Ok table
      end
  end.

Definition manifest_unusable (f : JsonFile) : Prop :=
  f = FileMissing \/ f = FileNotJson \/
  exists v, f = FileJson v /\ forall d, v <> JObj d.

Definition all_blank (row : Row) : Prop :=
  forall k v, In (k, v) (cells row) -> strip v = [].

Definition not_plus (c : ascii) : Prop := Ascii.eqb "+" c = false.

Definition int_char (c : ascii) : Prop := is_digit c = true \/ c = "-"%char.

(** Two loop states that differ in the files only. *)
Definition same_but_files (a b : LoopState) : Prop :=
  puzzles_manifest a = puzzles_manifest b /\ table_rows a = table_rows b /\
  results a = results b /\ skipped_blank_rows a = skipped_blank_rows b /\
  skipped_missing_date a = skipped_missing_date b /\
  any_csv_updates a = any_csv_updates b /\
  any_manifest_updates a = any_manifest_updates b.

Definition plain_char (c : ascii) : bool :=
  negb (isspace c) && negb (Ascii.eqb c sq) && negb (Ascii.eqb c dq).

Definition plain (s : str) : Prop := Forall (fun c => plain_char c = true) s.

Definition row_ext (a b : Row) : Prop := forall k, row_get a k = row_get b k.

(** The columns a puzzle record is built from. *)
Definition content_cols : list str :=
  [DATEKEY_COL; CATEGORY_COL; TAGS_COL; ANSWER_CANONICAL_COL; ANSWER_ALIASES_COL;
   SOLUTION_EXPLANATION_COL]
  ++ flat_map (fun hc => [fst hc; snd hc]) _hint_columns.

(** The keys of a row are columns of the header. *)
Definition keys_within (h : list str) (row : Row) : Prop :=
  forall k, ~ In k h -> dict_get (cells row) k = None.

(** ** Reading an outcome *)

Definition is_done (o : outcome) : bool :=
  match o with Done _ _ => true | Aborted _ _ => false end.

Definition report_of (o : outcome) : option Report :=
  match o with Done _ rep => Some rep | Aborted _ _ => None end.

Definition fs_of (o : outcome) : FileSystem :=
  match o with Done fs _ => fs | Aborted _ fs => fs end.

Definition marks (f : RowResult -> bool) (o : outcome) : list bool :=
  match o with Done _ rep => map f (rep_results rep) | Aborted _ _ => [] end.

Definition flag (f : Report -> bool) (o : outcome) : bool :=
  match o with Done _ rep => f rep | Aborted _ _ => false end.

(** ** Sample inputs *)

Module Sample.
Definition columns : list str :=
  REQUIRED_COLS ++ [lit "hint1"; lit "hint1Explanation"].

Definition paris : list str :=
  [lit "2024-01-01"; lit "geo"; lit "a; b"; lit "Paris"; lit "paris, Paname";
   lit "It is.'"; lit "1"; lit "Big city"; []].

Definition now : datetime := mkDatetime 2026 11 3 10 0 0 5.

(** One puzzle row, no contentHash column, an empty manifest and no
    puzzles directory yet. *)
Definition fresh : FileSystem :=
  mkFS (mkCsvFile ","%char [columns; paris]) None (FileJson (JObj [])).

Definition no_manifest : FileSystem :=
  mkFS (mkCsvFile ","%char [columns; paris]) None FileMissing.

(** The same table next to a manifest that has an entry for another day. *)
Definition stocked : FileSystem :=
  mkFS (mkCsvFile ","%char [columns; paris]) None
       (FileJson (JObj [(lit "puzzles",
                         JObj [(lit "2023-12-31", JStr (lit "kept"))])])).

(** The same row twice. *)
Definition twice : FileSystem :=
  mkFS (mkCsvFile ","%char [columns; paris; paris]) None (FileJson (JObj [])).

Definition later : datetime := mkDatetime 2026 11 4 9 30 0 0.

Definition lutece : list str :=
  [lit "2024-01-01"; lit "geo"; lit "a; b"; lit "Lutece"; [];
   lit "It was."; lit "1"; []; []].

(** Two rows for the same day with different answers. *)
Definition clash : FileSystem :=
  mkFS (mkCsvFile ","%char [columns; paris; lutece]) None (FileJson (JObj [])).

(** A row whose stored content hash is stale. *)
Definition stale : Row :=
  dict_reader_row (columns ++ [CONTENT_HASH_COL]) (paris ++ [lit "abc"]).

Definition list_manifest : FileSystem :=
  mkFS (mkCsvFile ","%char [columns; paris]) None (FileJson (JArr [])).

(** A trailing row of ten empty cells under the nine columns. *)
Definition long_blank_row : FileSystem :=
  mkFS (mkCsvFile ","%char [columns; paris; repeat [] 10]) None
       (FileJson (JObj [])).
End Sample.

(** ** Notions of the further properties *)

(** A text with no white space at either end. *)
Definition edge_ok (s : str) : Prop :=
  match s with
  | c :: _ => isspace c = false
  | [] => True
  end.

Definition trimmed (s : str) : Prop := edge_ok s /\ edge_ok (rev s).

(** The entries of a split list, for separator [c]. *)
Definition split_list (c : ascii) (text : str) : list str :=
  let s := _strip_wrapping_quotes text in
  if is_empty s then []
  else List.filter (fun p => negb (is_empty p)) (List.map strip (split_char c s)).

(** A text of white space only. *)
Definition white (s : str) : Prop := Forall (fun c => isspace c = true) s.

(** A digit of lower-case hexadecimal. *)
Definition is_hex_char (c : ascii) : bool :=
  let n := N_of_ascii c in
  is_digit c || ((97 <=? n) && (n <=? 102))%N.

Definition blank_record (r : list str) : bool :=
  match r with [] => true | _ => false end.

(** The slot [i] (from 0) of a row: its index, its hint and the
    explanation of the hint, both normalised. *)
Definition hint_slot (row : Row) (i : nat) : nat * str * str :=
  (i,
   _strip_wrapping_quotes
     (row_get row (lit "hint" ++ str_of_int (Z.of_nat i + 1))),
   _strip_wrapping_quotes
     (row_get row (lit "hint" ++ str_of_int (Z.of_nat i + 1) ++ lit "Explanation"))).

Definition has_text (d : nat * str * str) : bool := negb (is_empty (snd (fst d))).

(** Some cell of the row is not blank. *)
Definition has_content (row : Row) : bool :=
  existsb (fun v => negb (is_empty (strip v))) (map snd (cells row)).

(** The day key of the row is not empty. *)
Definition has_key (row : Row) : bool :=
  negb (is_empty (_strip_wrapping_quotes (row_get row DATEKEY_COL))).

(** The name of the puzzle file a result stands for. *)
Definition artifact (r : RowResult) : str := file_name (date_key r) (version r).

(** What the loop reports for a sequence of plans, from the files it meets. *)
Fixpoint plan_results (dry_run : bool) (f : gmap str str) (ps : list Plan)
    : list RowResult :=
  match ps with
  | [] => []
  | p :: ps' =>
      let existed_before := bool_decide (is_Some (f !! plan_file p)) in
      mkRowResult (pl_key p) (pl_version p) (negb existed_before) existed_before
                  (pl_bumped p) (pl_reason p)
      :: plan_results dry_run
           (if dry_run then f else <[plan_file p := plan_text p]> f) ps'
  end.

(** A plan that comes from a row with a day key. *)
Definition planned (p : Plan) : Prop :=
  exists row, has_key row = true /\
              p = plan_row row (_strip_wrapping_quotes (row_get row DATEKEY_COL)).

(** The manifest has its two objects. *)
Definition well_shaped (d : dict jvalue) : Prop :=
  is_dict (dict_get d (lit "puzzles")) = true /\
  is_dict (dict_get d (lit "meta")) = true.

(** The three lists of the summary. *)
Definition created_keys (rs : list RowResult) : list RowResult := List.filter created rs.
Definition bumped_keys (rs : list RowResult) : list RowResult := List.filter bumped rs.
Definition refreshed_keys (rs : list RowResult) : list RowResult :=
  List.filter (fun r => refreshed r && negb (created r)) rs.

(** Two clock readings of the same second. *)
Definition same_second (a b : datetime) : Prop :=
  year a = year b /\ month a = month b /\ day a = day b /\
  hour a = hour b /\ minute a = minute b /\ second a = second b.

(** A hint as [compute_content_hash] can sort it: a dictionary whose
    [index], if it has one, is an integer. *)
Definition indexed (h : jvalue) : Prop :=
  match h with
  | JObj d => match dict_get d (lit "index") with
              | Some (JInt _) | None => True
              | Some _ => False
              end
  | _ => False
  end.

(** A reading whose fields are in the ranges of a calendar date. *)
Definition in_range (d : datetime) : Prop :=
  (year d < 10000 /\ month d < 100 /\ day d < 100 /\
   hour d < 100 /\ minute d < 100 /\ second d < 100)%N.

(** ** Where the platform decides

    The definitions above take every conversion and every write to go
    through, and a file name to be the file.  The notions below say where
    Python and the file system decide otherwise; the properties that depend
    on it name them. *)

(** Since Python 3.11 [int(s)] and [str(n)] raise [ValueError] on more
    digits than [sys.int_info.default_max_str_digits]. *)
Definition MAX_STR_DIGITS : nat := 4300.

(** The decimal digits of [n], its sign apart. *)
Definition int_digits (n : Z) : nat := List.length (str_of_int (Z.abs n)).

(** [str(n)] with that limit; [None] stands for [ValueError]. *)
Definition str_checked (n : Z) : option str :=
  if (int_digits n <=? MAX_STR_DIGITS)%nat then Some (str_of_int n) else None.

(** A day key of the documented form, [YYYY-MM-DD], is made of digits and
    hyphens.  It has no path separator, no dot and no letter, so the file
    names built from such keys name files of the puzzles directory itself,
    and two of them name one file only when they are one name.  Any other
    key is pasted into the path as it is: [./x] and [x] give one file, and
    a key with a slash leaves the directory. *)
Definition date_char (c : ascii) : bool := is_digit c || Ascii.eqb c "-".

Definition date_like (k : str) : Prop := forallb date_char k = true.

(** The table file [f] reads as [table] was written: the first line gives
    the delimiter of the table, and [csv.reader] yields the header and then,
    row by row, the cells that [write_csv_table] hands to [DictWriter].
    The code does not see to it.  With [lineterminator="\n"] a carriage
    return in a cell is written unquoted and read back as the end of a
    record; the delimiter is detected anew on the line written; and when
    the table file is locked, [write_csv_table] leaves it as it was and
    writes a sibling file. *)
Definition reads_as_written (f : CsvFile) (table : CsvTable) : Prop :=
  file_delimiter f = delimiter table /\
  file_records f
  = header table :: map (fun row => map (row_get row) (header table)) (rows table).




(** * Properties *)

(** ** The model against Python on samples *)

Example py_int_samples :
  map (fun s => py_int (lit s))
      ["12"; "+12"; "-0"; " 12 "; "1_000"; "_1"; "1_"; "1__0"; " "; "+";
       "0x10"; "12.0"; "1 2"; "- 1"; "007"; "--1"]%string
  = [Some 12; Some 12; Some 0; Some 12; Some 1000; None; None; None; None;
     None; None; None; None; None; Some 7; None]%Z.
Proof. reflexivity. Qed.

Example str_of_int_samples :
  map str_of_int [0; 7; -12; 1000]%Z = map lit ["0"; "7"; "-12"; "1000"]%string.
Proof. reflexivity. Qed.

Example dumps_compact_sample :
  dumps_compact
    (JObj [(lit "b", JStr ("233"%char :: "127"%char :: "000"%char :: "031"%char
                           :: dq :: "\"%char :: LF :: "013"%char :: TAB
                           :: "008"%char :: "012"%char :: lit "/"));
           (lit "a", JArr [JInt 1; JInt (-2); JObj []]);
           (lit "c", JArr []); (lit "d", JObj [])])
  = lit "{" ++ json_string (lit "a") ++ lit ":[1,-2,{}]," ++ json_string (lit "b")
    ++ lit ":" ++ dq :: "233"%char :: "127"%char :: lit "\u0000\u001f\"
    ++ dq :: lit "\\\n\r\t\b\f/" ++ dq :: lit "," ++ json_string (lit "c")
    ++ lit ":[]," ++ json_string (lit "d") ++ lit ":{}}".
Proof. reflexivity. Qed.

Example dumps_indent_sample :
  dumps_indent 0 (JObj [(lit "k", JArr [JObj [(lit "a", JStr (lit "b")); (lit "c", JInt 2)]])])
  = lit "{" ++ LF :: lit "  " ++ json_string (lit "k") ++ lit ": [" ++ LF
    :: lit "    {" ++ LF :: lit "      " ++ json_string (lit "a") ++ lit ": "
    ++ json_string (lit "b") ++ lit "," ++ LF :: lit "      "
    ++ json_string (lit "c") ++ lit ": 2" ++ LF :: lit "    }" ++ LF
    :: lit "  ]" ++ LF :: lit "}".
Proof. reflexivity. Qed.

Example sha256_constants :
  nth 0 SHA256.K 0%N = 0x428a2f98%N /\ nth 63 SHA256.K 0%N = 0xc67178f2%N /\
  SHA256.sa SHA256.H0 = 0x6a09e667%N /\ SHA256.sh SHA256.H0 = 0x5be0cd19%N.
Proof. repeat split. Qed.

Example sha256_empty :
  _sha256_text [] = lit "e3b0c44298fc1c149afbf4c8996fb92427ae41e4649b934ca495991b7852b855".
Proof. vm_compute. reflexivity. Qed.

Example sha256_abc :
  _sha256_text (lit "abc") = lit "ba7816bf8f01cfea414140de5dae2223b00361a396177a9cb410ff61f20015ad".
Proof. vm_compute. reflexivity. Qed.

Example sha256_two_blocks :
  _sha256_text (repeat "a"%char 119) = lit "31eba51c313a5c08226adf18d4a359cfdfd8d2e816b13f4af952f7ea6584dcfb".
Proof. vm_compute. reflexivity. Qed.

Example sha256_latin1 :
  _sha256_text ["233"%char] = lit "4a99557e4033c3539de2eb65472017cad5f9557f7a0625a09f1c3f6e2ba69c4c".
Proof. vm_compute. reflexivity. Qed.

Example utc_now_sample :
  _utc_now_iso_z (mkDatetime 5 1 2 3 4 5 678) = lit "0005-01-02T03:04:05Z".
Proof. reflexivity. Qed.


(** ** Strings and dictionaries *)

Lemma str_eqb_eq a b : str_eqb a b = true <-> a = b.
Proof.
  revert b. induction a as [|x a IH]; intros [|y b]; simpl;
    try (split; [discriminate|congruence]); [tauto|].
  rewrite andb_true_iff, Ascii.eqb_eq, IH. split; [intros []|intros [=]]; subst; auto.
Qed.

Lemma str_eqb_refl a : str_eqb a a = true.
Proof. apply str_eqb_eq. reflexivity. Qed.

Lemma str_eqb_neq a b : str_eqb a b = false <-> a <> b.
Proof. rewrite <- str_eqb_eq. destruct (str_eqb a b); split; congruence. Qed.

Lemma is_empty_true (s : str) : is_empty s = true <-> s = [].
Proof. destruct s; simpl; split; congruence. Qed.

Lemma is_empty_false (s : str) : is_empty s = false <-> s <> [].
Proof. destruct s; simpl; split; congruence. Qed.

Section Dict.
Context {V : Type}.
Implicit Types (d : dict V) (k : str) (v : V).

Lemma dict_get_set_eq d k v : dict_get (dict_set d k v) k = Some v.
Proof.
  induction d as [|[k' v'] d IH]; simpl.
  - rewrite str_eqb_refl. reflexivity.
  - destruct (str_eqb k' k) eqn:E; simpl; rewrite E; auto.
Qed.

Lemma dict_get_set_ne d k k' v :
  k <> k' -> dict_get (dict_set d k v) k' = dict_get d k'.
Proof.
  intros Hne. induction d as [|[k0 v0] d IH]; simpl.
  - apply str_eqb_neq in Hne. rewrite Hne. reflexivity.
  - destruct (str_eqb k0 k) eqn:E; simpl.
    + apply str_eqb_eq in E. subst k0.
      apply str_eqb_neq in Hne. rewrite Hne. reflexivity.
    + rewrite IH. reflexivity.
Qed.

Lemma dict_get_set d k k' v :
  dict_get (dict_set d k v) k' = if str_eqb k k' then Some v else dict_get d k'.
Proof.
  destruct (str_eqb k k') eqn:E.
  - apply str_eqb_eq in E. subst. apply dict_get_set_eq.
  - apply str_eqb_neq in E. apply dict_get_set_ne, E.
Qed.

Lemma dict_get_some_in d k v : dict_get d k = Some v -> In k (dict_keys d).
Proof.
  induction d as [|[k' v'] d IH]; simpl; [discriminate|].
  destruct (str_eqb k' k) eqn:E; [apply str_eqb_eq in E; auto|auto].
Qed.

Lemma dict_get_none d k : dict_get d k = None <-> ~ In k (dict_keys d).
Proof.
  induction d as [|[k' v'] d IH]; simpl; [tauto|].
  destruct (str_eqb k' k) eqn:E.
  - apply str_eqb_eq in E. split; [discriminate|]. intros H. exfalso. auto.
  - apply str_eqb_neq in E. rewrite IH. tauto.
Qed.

Lemma dict_keys_set d k v :
  dict_keys (dict_set d k v)
  = if str_in k (dict_keys d) then dict_keys d else dict_keys d ++ [k].
Proof.
  induction d as [|[k' v'] d IH]; simpl; [reflexivity|].
  destruct (str_eqb k' k) eqn:E; simpl.
  - apply str_eqb_eq in E. subst. rewrite str_eqb_refl. reflexivity.
  - rewrite IH. replace (str_eqb k k') with false.
    + simpl. unfold str_in. destruct (existsb _ _); reflexivity.
    + symmetry. apply str_eqb_neq. apply str_eqb_neq in E. congruence.
Qed.

Lemma dict_set_same d k v : dict_get d k = Some v -> dict_set d k v = d.
Proof.
  induction d as [|[k' v'] d IH]; simpl; [discriminate|].
  destruct (str_eqb k' k) eqn:E; [congruence|].
  intros H. rewrite IH; auto.
Qed.
End Dict.

Lemma str_in_true k l : str_in k l = true <-> In k l.
Proof.
  unfold str_in. rewrite existsb_exists. split.
  - intros (x & Hx & E). apply str_eqb_eq in E. subst. exact Hx.
  - intros H. exists k. split; [exact H|apply str_eqb_refl].
Qed.

Lemma str_in_false k l : str_in k l = false <-> ~ In k l.
Proof. rewrite <- str_in_true. destruct (str_in k l); split; congruence. Qed.

Lemma row_get_set_eq row k v : row_get (row_set row k v) k = v.
Proof. unfold row_get, row_set. simpl. rewrite dict_get_set_eq. reflexivity. Qed.

Lemma row_get_set_ne row k k' v :
  k <> k' -> row_get (row_set row k v) k' = row_get row k'.
Proof.
  intros H. unfold row_get, row_set. simpl. rewrite dict_get_set_ne; auto.
Qed.

(** ** Normalisation: the cases of [_strip_wrapping_quotes] *)

Lemma startswith_char_true c s :
  startswith_char c s = true <-> head s = Some c.
Proof.
  destruct s as [|a s]; simpl; [split; discriminate|].
  rewrite Ascii.eqb_eq. split; congruence.
Qed.

Lemma endswith_char_true c s :
  endswith_char c s = true <-> exists body, s = body ++ [c].
Proof.
  unfold endswith_char. rewrite startswith_char_true. split.
  - destruct (rev s) as [|a r] eqn:E; simpl; [discriminate|].
    intros [= ->]. exists (rev r).
    rewrite <- (rev_involutive s), E. reflexivity.
  - intros [body ->]. rewrite rev_app_distr. reflexivity.
Qed.

Lemma endswith_char_last c s :
  endswith_char c s = true <-> last s = Some c.
Proof.
  rewrite endswith_char_true. split.
  - intros [body ->]. apply last_snoc.
  - intros H. destruct s as [|a s] using rev_ind; [discriminate|].
    rewrite last_snoc in H. injection H as ->. eauto.
Qed.

Lemma wrapped_in_quotes_true s :
  wrapped_in_quotes s = true <->
  exists q body, s = q :: body ++ [q] /\ (q = dq \/ q = sq).
Proof.
  unfold wrapped_in_quotes. split.
  - intros H. apply andb_true_iff in H as [Hlen H].
    apply Nat.leb_le in Hlen.
    destruct s as [|a s]; [discriminate|].
    destruct (rev (a :: s)) as [|b r] eqn:E; [discriminate|].
    apply andb_true_iff in H as [Hab Hq].
    apply Ascii.eqb_eq in Hab. subst b.
    apply orb_true_iff in Hq. rewrite !Ascii.eqb_eq in Hq.
    destruct s as [|x s] using rev_ind; [simpl in Hlen; lia|].
    clear IHs. change (a :: s ++ [x]) with ((a :: s) ++ [x]) in E.
    rewrite rev_app_distr in E. simpl in E. injection E as -> _.
    eauto.
  - intros (q & body & -> & Hq).
    change (q :: body ++ [q]) with ((q :: body) ++ [q]).
    rewrite rev_app_distr. simpl rev. cbv iota beta.
    apply andb_true_iff. split.
    + apply Nat.leb_le. simpl. rewrite length_app. simpl. lia.
    + simpl. rewrite Ascii.eqb_refl. simpl.
      apply orb_true_iff. rewrite !Ascii.eqb_eq. exact Hq.
Qed.

Lemma second_last_snoc2 body p c : second_last (body ++ [p; c]) = Some p.
Proof. unfold second_last. rewrite rev_app_distr. reflexivity. Qed.

Lemma second_last_some s p :
  second_last s = Some p -> exists body c, s = body ++ [p; c].
Proof.
  unfold second_last. destruct (rev s) as [|c [|p' r]] eqn:E; try discriminate.
  intros [= ->]. exists (rev r), c.
  rewrite <- (rev_involutive s), E. simpl. rewrite <- app_assoc. reflexivity.
Qed.

Lemma is_terminal_punct_true c :
  is_terminal_punct c = true <-> c = "."%char \/ c = "!"%char \/ c = "?"%char.
Proof.
  unfold is_terminal_punct. rewrite !orb_true_iff, !Ascii.eqb_eq. tauto.
Qed.

Lemma after_terminal_punct_dec s :
  s <> [] -> last s = Some sq ->
  ((2 <=? List.length s)%nat
   && match second_last s with
      | Some c => is_terminal_punct c
      | None => false
      end) = true <-> after_terminal_punct s.
Proof.
  intros _ Hl. split.
  - intros H. apply andb_true_iff in H as [_ H].
    destruct (second_last s) as [p|] eqn:E; [|discriminate].
    apply second_last_some in E as (body & c & ->).
    replace (body ++ [p; c]) with ((body ++ [p]) ++ [c]) in Hl
      by (rewrite <- app_assoc; reflexivity).
    rewrite last_snoc in Hl. injection Hl as ->.
    exists body, p. split; [reflexivity|]. apply is_terminal_punct_true, H.
  - intros (body & p & -> & Hp). rewrite second_last_snoc2.
    apply andb_true_iff. split.
    + apply Nat.leb_le. rewrite length_app. simpl. lia.
    + apply is_terminal_punct_true, Hp.
Qed.

Lemma lstrip_suffix s : exists t, s = t ++ lstrip s.
Proof.
  induction s as [|c s [t IH]]; [exists []; reflexivity|].
  simpl. destruct (isspace c).
  - exists (c :: t). simpl. congruence.
  - exists []. reflexivity.
Qed.

Lemma rstrip_prefix s : exists t, s = rstrip s ++ t.
Proof.
  unfold rstrip. destruct (lstrip_suffix (rev s)) as [t E].
  exists (rev t). rewrite <- rev_app_distr, <- E, rev_involutive. reflexivity.
Qed.

Lemma head_rstrip c s : head (rstrip s) = Some c -> head s = Some c.
Proof.
  destruct (rstrip_prefix s) as [t E]. intros H. rewrite E.
  destruct (rstrip s); [discriminate|exact H].
Qed.

Lemma not_wrapped s :
  (forall q body, s = q :: body ++ [q] -> ~ (q = dq \/ q = sq)) ->
  wrapped_in_quotes s = false.
Proof.
  intros H. apply not_true_is_false. intros W.
  apply wrapped_in_quotes_true in W as (q & b & E & Hq).
  exact (H q b E Hq).
Qed.

(** C8. Field normalisation strips one layer of matching wrapping quotes
    from the trimmed text [s]: when [s] begins and ends with the same
    character, a double or a single quote, the result is the inside of [s]
    trimmed again; otherwise a trailing single quote that [s] does not also
    begin with is dropped (and the text trimmed on the right) when a
    terminal punctuation mark precedes it or when it is the only single
    quote of [s]; a leading single quote that [s] does not also end with is
    dropped (and the text trimmed on the left) when it is the only single
    quote of [s]; every other text comes back as [s], trimmed and otherwise
    unchanged. *)
Theorem strip_wrapping_quotes_cases (text : str) :
  let s := strip text in
  (forall q body, s = q :: body ++ [q] -> q = dq \/ q = sq ->
     _strip_wrapping_quotes text = strip body) /\
  (forall body, s = body ++ [sq] -> head s <> Some sq ->
     after_terminal_punct s \/ count_char sq s = 1%nat ->
     _strip_wrapping_quotes text = rstrip body) /\
  (forall body, s = sq :: body -> last s <> Some sq ->
     count_char sq s = 1%nat ->
     _strip_wrapping_quotes text = lstrip body) /\
  ((forall q body, s = q :: body ++ [q] -> ~ (q = dq \/ q = sq)) ->
   ~ (last s = Some sq /\ head s <> Some sq /\
      (after_terminal_punct s \/ count_char sq s = 1%nat)) ->
   ~ (head s = Some sq /\ last s <> Some sq /\ count_char sq s = 1%nat) ->
   _strip_wrapping_quotes text = s).
Proof.
  intros s. unfold _strip_wrapping_quotes. fold s. clearbody s.
  split; [|split; [|split]].
  - intros q body Hs Hq.
    assert (W : wrapped_in_quotes s = true)
      by (apply wrapped_in_quotes_true; eauto).
    rewrite W, Hs. simpl. rewrite removelast_last. reflexivity.
  - intros body Hs Hh Hc.
    assert (Hl : last s = Some sq) by (rewrite Hs; apply last_snoc).
    assert (W : wrapped_in_quotes s = false).
    { apply not_wrapped. intros q b E _. rewrite E in Hl, Hh.
      change (q :: b ++ [q]) with ((q :: b) ++ [q]) in Hl.
      rewrite last_snoc in Hl. injection Hl as ->. apply Hh. reflexivity. }
    assert (He : endswith_char sq s = true) by (apply endswith_char_last, Hl).
    assert (Hst : startswith_char sq s = false).
    { apply not_true_is_false. rewrite startswith_char_true. exact Hh. }
    assert (Hne : s <> []) by (rewrite Hs; destruct body; discriminate).
    assert (R : removelast s = body) by (rewrite Hs; apply removelast_last).
    assert (Hb : startswith_char sq (rstrip body) = false).
    { apply not_true_is_false. rewrite startswith_char_true. intros Hb.
      apply head_rstrip in Hb. apply Hh. rewrite Hs.
      destruct body; [discriminate|exact Hb]. }
    rewrite W, He, Hst. cbv zeta. rewrite R. simpl negb. cbv iota.
    rewrite andb_true_l.
    destruct ((2 <=? List.length s)%nat && _) eqn:P.
    + rewrite Hb. reflexivity.
    + destruct Hc as [Hc|Hc].
      * apply after_terminal_punct_dec in Hc; [congruence|exact Hne|exact Hl].
      * rewrite Hc. simpl. rewrite Hb. reflexivity.
  - intros body Hs Hl Hc.
    assert (W : wrapped_in_quotes s = false).
    { apply not_wrapped. intros q b E _. apply Hl. rewrite E.
      change (q :: b ++ [q]) with ((q :: b) ++ [q]).
      rewrite last_snoc. rewrite Hs in E. congruence. }
    assert (He : endswith_char sq s = false).
    { apply not_true_is_false. rewrite endswith_char_last. exact Hl. }
    assert (Hst : startswith_char sq s = true).
    { apply startswith_char_true. rewrite Hs. reflexivity. }
    rewrite W, He. simpl. rewrite Hst, He, Hc. simpl. rewrite Hs. reflexivity.
  - intros HW HT HL.
    rewrite (not_wrapped _ HW). cbv zeta.
    set (P := (2 <=? List.length s)%nat && _).
    destruct (endswith_char sq s) eqn:He, (startswith_char sq s) eqn:Hst;
      cbn [andb negb]; rewrite ?He, ?Hst; cbn [andb negb]; try reflexivity.
    + assert (Hl : last s = Some sq) by (apply endswith_char_last, He).
      assert (Hh : head s <> Some sq).
      { rewrite <- startswith_char_true. congruence. }
      assert (Hne : s <> []) by (intros E; rewrite E in Hl; discriminate).
      destruct P eqn:HP.
      * exfalso. apply HT. repeat split; try assumption. left.
        apply after_terminal_punct_dec; assumption.
      * destruct (count_char sq s =? 1)%nat eqn:C.
        -- exfalso. apply HT. repeat split; try assumption. right.
           apply Nat.eqb_eq, C.
        -- rewrite Hst. reflexivity.
    + destruct (count_char sq s =? 1)%nat eqn:C; [|reflexivity].
      exfalso. apply HL. split; [apply startswith_char_true, Hst|].
      split; [rewrite <- endswith_char_last; congruence|apply Nat.eqb_eq, C].
Qed.


(** ** The content hash leaves the version out *)

Lemma canonical_text_version row v1 v2 :
  canonical_text (build_puzzle_object row v1)
  = canonical_text (build_puzzle_object row v2).
Proof. reflexivity. Qed.

Lemma content_hash_version row v1 v2 :
  compute_content_hash (build_puzzle_object row v1)
  = compute_content_hash (build_puzzle_object row v2).
Proof.
  unfold compute_content_hash. rewrite (canonical_text_version row v1 v2).
  reflexivity.
Qed.

(** ** Reading and checking the table *)

Lemma filter_nil_iff {A} (p : A -> bool) (l : list A) :
  List.filter p l = [] <-> forall x, In x l -> p x = false.
Proof.
  induction l as [|a l IH]; simpl; [split; [intros _ x []|reflexivity]|].
  destruct (p a) eqn:E.
  - split; [discriminate|]. intros H. specialize (H a (or_introl eq_refl)). congruence.
  - rewrite IH. split.
    + intros H x [<-|Hx]; auto.
    + intros H x Hx. apply H. auto.
Qed.

Lemma require_columns_ok table required :
  _require_columns table required = Ok tt <->
  forall c, In c required -> In c (header table).
Proof.
  unfold _require_columns.
  destruct (List.filter _ required) as [|m ms] eqn:E.
  - split; [intros _|reflexivity].
    intros c Hc. rewrite (filter_nil_iff _ required) in E.
    specialize (E c Hc). apply negb_false_iff, str_in_true in E. exact E.
  - split; [discriminate|]. intros H. exfalso.
    assert (Hm : In m (List.filter (fun c => negb (str_in c (header table))) required))
      by (rewrite E; left; reflexivity).
    apply List.filter_In in Hm as [Hm Hn].
    apply negb_true_iff, str_in_false in Hn. auto.
Qed.

Lemma require_columns_raise table required e :
  _require_columns table required = Raise e ->
  is_table_error e = true /\ exists c, In c required /\ ~ In c (header table).
Proof.
  unfold _require_columns.
  destruct (List.filter _ required) as [|m ms] eqn:E; [discriminate|].
  intros [= <-]. split; [reflexivity|]. exists m.
  assert (Hm : In m (List.filter (fun c => negb (str_in c (header table))) required))
    by (rewrite E; left; reflexivity).
  apply List.filter_In in Hm as [Hm Hn].
  apply negb_true_iff, str_in_false in Hn. auto.
Qed.

Lemma checked_table_raise f e :
  checked_table f = Raise e -> is_table_error e = true /\ bad_table f.
Proof.
  unfold checked_table, read_csv_table.
  destruct f as [dl [|h more]]; simpl.
  - intros [= <-]. split; [reflexivity|]. left. reflexivity.
  - destruct h as [|c h].
    + intros [= <-]. split; [reflexivity|]. right. left. eexists. reflexivity.
    + destruct (_require_columns _ _) as [[]|e'] eqn:R; [discriminate|].
      intros [= <-]. apply require_columns_raise in R as [He (c0 & Hc & Hn)].
      split; [exact He|]. right. right. exists (c :: h), more.
      split; [reflexivity|]. split; [discriminate|]. eauto.
Qed.

Lemma checked_table_ok f table :
  checked_table f = Ok table ->
  ~ bad_table f /\
  exists more, file_records f = header table :: more /\
    delimiter table = file_delimiter f /\
    rows table = map (dict_reader_row (header table))
                     (List.filter (fun r => negb (match r with [] => true | _ => false end)) more).
Proof.
  unfold checked_table, read_csv_table.
  destruct f as [dl [|h more]]; simpl; [discriminate|].
  destruct h as [|c h]; [discriminate|].
  destruct (_require_columns _ _) as [[]|e'] eqn:R; [|discriminate].
  intros [= <-]. simpl. split; [|eauto].
  pose proof (proj1 (require_columns_ok _ _) R) as R'. simpl in R'.
  intros [H|[[m H]|(h' & m & H & _ & c0 & Hc & Hn)]].
  - unfold input_empty in H. simpl in H. discriminate.
  - simpl in H. discriminate.
  - simpl in H. injection H as <- <-. apply Hn, R', Hc.
Qed.

Lemma bad_table_raises f : bad_table f -> exists e, checked_table f = Raise e.
Proof.
  intros H. destruct (checked_table f) as [t|e] eqn:E; [|eauto].
  apply checked_table_ok in E as [E _]. contradiction.
Qed.

Lemma generate_unfold dry_run now fs :
  generate dry_run now fs =
  match checked_table (csv_file fs) with
  | Raise e => Aborted e fs
  | Ok table =>
      let table_header :=
        if str_in CONTENT_HASH_COL (header table) then header table
        else header table ++ [CONTENT_HASH_COL] in
      let dir := mkdir (puzzles_dir fs) in
      let fs1 := mkFS (csv_file fs) (Some dir) (manifest_file fs) in
      match load_manifest (manifest_file fs) with
      | Raise e => Aborted e fs1
      | Ok loaded =>
          match ensure_manifest_shape loaded with
          | Raise e => Aborted e fs1
          | Ok manifest =>
              let st0 := mkLoop dir (sub_dict manifest (lit "puzzles")) [] [] 0 0
                                false false in
              match run_rows dry_run st0 (rows table) with
              | (st, Some e) =>
                  Aborted e (mkFS (csv_file fs) (Some (files st)) (manifest_file fs))
              | (st, None) =>
                  let table' := mkCsvTable table_header (table_rows st)
                                           (delimiter table) in
                  let manifest1 := dict_set manifest (lit "puzzles")
                                            (JObj (puzzles_manifest st)) in
                  let manifest2 := if any_manifest_updates st
                                   then stamp manifest1 now else manifest1 in
                  Done (mkFS (if negb dry_run && any_csv_updates st
                              then write_csv_table table' else csv_file fs)
                             (Some (files st))
                             (if negb dry_run && any_manifest_updates st
                              then FileJson (JObj manifest2) else manifest_file fs))
                       (mkReport (results st) (skipped_blank_rows st)
                                 (skipped_missing_date st) (any_csv_updates st)
                                 (any_manifest_updates st) manifest2 table')
              end
          end
      end
  end.
Proof.
  unfold generate, checked_table.
  destruct (read_csv_table (csv_file fs)) as [table|e]; [|reflexivity].
  destruct (_require_columns table REQUIRED_COLS) as [[]|e]; reflexivity.
Qed.

Lemma process_row_error dry_run st row e :
  process_row dry_run st row = Raise e ->
  e = ListHasNoStrip /\ _row_has_any_content row = Raise ListHasNoStrip.
Proof.
  unfold process_row. destruct (_row_has_any_content row) as [[]|e'] eqn:E.
  - destruct (is_empty _); discriminate.
  - discriminate.
  - intros [= <-]. unfold _row_has_any_content in E.
    destruct (existsb _ _); [discriminate|].
    destruct (rest row) as [[|x l]|]; try discriminate.
    injection E as <-. auto.
Qed.

Lemma run_rows_error dry_run st todo st' e :
  run_rows dry_run st todo = (st', Some e) ->
  e = ListHasNoStrip /\
  exists row, In row todo /\ _row_has_any_content row = Raise ListHasNoStrip.
Proof.
  revert st. induction todo as [|row todo IH]; intros st; simpl; [discriminate|].
  destruct (process_row dry_run st row) as [st1|e1] eqn:P.
  - intros H. apply IH in H as [-> (r & Hr & E)]. eauto.
  - intros [= <- <-]. apply process_row_error in P as [-> E]. eauto.
Qed.

Lemma generate_table_error dry_run now fs e fs' :
  generate dry_run now fs = Aborted e fs' -> is_table_error e = true ->
  checked_table (csv_file fs) = Raise e /\ fs' = fs.
Proof.
  rewrite generate_unfold. destruct (checked_table (csv_file fs)) as [table|e0].
  - cbv zeta. destruct (manifest_file fs) as [| |v]; simpl.
    + intros [= <- <-]; discriminate.
    + intros [= <- <-]; discriminate.
    + destruct (ensure_manifest_shape v) as [m|e1] eqn:S.
      * destruct (run_rows _ _ _) as [st [e2|]] eqn:R; [|discriminate].
        apply run_rows_error in R as [-> _]. intros [= <- <-]; discriminate.
      * destruct v; try discriminate; injection S as <-; intros [= <- <-]; discriminate.
  - intros [= <- <-]. auto.
Qed.

(** ** Aborted runs *)

Lemma dict_reader_row_rest h r :
  (List.length r <= List.length h)%nat -> rest (dict_reader_row h r) = None.
Proof.
  intros H. unfold dict_reader_row.
  replace (List.length h <? List.length r)%nat with false
    by (symmetry; apply Nat.ltb_ge; exact H).
  reflexivity.
Qed.

Lemma process_row_no_rest dry_run st row :
  rest row = None -> exists st', process_row dry_run st row = Ok st'.
Proof.
  intros H. unfold process_row, _row_has_any_content. rewrite H.
  destruct (existsb _ _); [destruct (is_empty _)|]; eauto.
Qed.

Lemma run_rows_complete dry_run st todo :
  (forall row, In row todo -> rest row = None) ->
  exists st', run_rows dry_run st todo = (st', None).
Proof.
  revert st. induction todo as [|row todo IH]; intros st H; simpl; [eauto|].
  destruct (process_row_no_rest dry_run st row) as [st1 ->]; [apply H; left; reflexivity|].
  apply IH. intros r Hr. apply H. right. exact Hr.
Qed.

(** C7, as the code has it. [generate] aborts with one of the table errors
    exactly when the input file is empty, no header row is detected or a
    required column is missing from the header, and then nothing has been
    written or created.  A header without the contentHash column is no such
    error: when the table is sound, the manifest file holds a JSON object
    and no record is longer than the header, the run completes and the
    table it ends with has contentHash appended to the header if it was
    missing. *)
Theorem generate_table_failures (dry_run : bool) (now : datetime) (fs : FileSystem) :
  (bad_table (csv_file fs) <->
   exists e, is_table_error e = true /\ generate dry_run now fs = Aborted e fs) /\
  (forall e fs', generate dry_run now fs = Aborted e fs' ->
                 is_table_error e = true -> fs' = fs) /\
  (forall h more d,
     file_records (csv_file fs) = h :: more -> h <> [] ->
     (forall c, In c REQUIRED_COLS -> In c h) ->
     manifest_file fs = FileJson (JObj d) ->
     (forall r, In r more -> (List.length r <= List.length h)%nat) ->
     exists fs' rep, generate dry_run now fs = Done fs' rep /\
                     header (rep_table rep) = with_content_hash h).
Proof.
  split; [|split].
  - split.
    + intros H. destruct (bad_table_raises _ H) as [e E].
      exists e. split; [apply (checked_table_raise _ _ E)|].
      rewrite generate_unfold, E. reflexivity.
    + intros (e & He & G). apply generate_table_error in G as [G _]; [|exact He].
      apply (checked_table_raise _ _ G).
  - intros e fs' G He. apply (generate_table_error _ _ _ _ _ G He).
  - intros h more d Hr Hh Hreq Hm Hlen.
    rewrite generate_unfold.
    destruct (checked_table (csv_file fs)) as [table|e] eqn:C.
    + apply checked_table_ok in C as [_ (more' & Hr' & _ & Hrows)].
      rewrite Hr in Hr'. injection Hr' as Hh' <-.
      cbv zeta. rewrite Hm. cbn [load_manifest ensure_manifest_shape].
      match goal with |- context [run_rows ?a ?b ?c] =>
        destruct (run_rows_complete a b c) as [st' ->] end.
      * intros row Hrow. rewrite Hrows in Hrow.
        apply in_map_iff in Hrow as (r & <- & Hin).
        apply List.filter_In in Hin as [Hin _].
        apply dict_reader_row_rest. rewrite <- Hh'. apply Hlen, Hin.
      * eexists _, _. split; [reflexivity|]. cbn [rep_table header].
        rewrite <- Hh'. reflexivity.
    + exfalso. apply checked_table_raise in C as [_ [C|[[m C]|(h' & m & C & _ & c & Hc & Hn)]]].
      * unfold input_empty in C. congruence.
      * rewrite Hr in C. injection C as -> _. auto.
      * rewrite Hr in C. injection C as -> _. auto.
Qed.

Lemma generate_table_failures_witness :
  exists fs' rep, generate false Sample.now Sample.fresh = Done fs' rep /\
                  header (rep_table rep) = Sample.columns ++ [CONTENT_HASH_COL].
Proof.
  destruct (generate_table_failures false Sample.now Sample.fresh) as (_ & _ & H).
  apply (H Sample.columns [Sample.paris] []).
  - reflexivity.
  - discriminate.
  - intros c Hc. apply in_or_app. left. exact Hc.
  - reflexivity.
  - intros r [<-|[]]. vm_compute. lia.
Defined.

(** Against C7 as stated.  The run also aborts on a table without fault: here the manifest file is
    missing, and by then the puzzles directory has been created. *)
Lemma abort_without_table_fault :
  ~ (forall dry_run now fs,
       (exists e fs', generate dry_run now fs = Aborted e fs' /\ fs' = fs)
       <-> bad_table (csv_file fs)) /\
  generate false Sample.now Sample.no_manifest
  = Aborted ManifestNotFound
      (mkFS (csv_file Sample.no_manifest) (Some ∅) FileMissing) /\
  ~ bad_table (csv_file Sample.no_manifest).
Proof.
  assert (G : generate false Sample.now Sample.no_manifest
              = Aborted ManifestNotFound
                  (mkFS (csv_file Sample.no_manifest) (Some ∅) FileMissing))
    by reflexivity.
  assert (B : ~ bad_table (csv_file Sample.no_manifest)).
  { destruct (checked_table (csv_file Sample.no_manifest)) as [t|e] eqn:C.
    - apply (checked_table_ok _ _ C).
    - vm_compute in C. discriminate. }
  split; [|split; assumption].
  intros H.
  pose (fs1 := mkFS (csv_file Sample.no_manifest) (Some ∅) FileMissing).
  assert (G1 : generate false Sample.now fs1 = Aborted ManifestNotFound fs1)
    by reflexivity.
  apply B. apply (H false Sample.now fs1). eauto.
Qed.

(** ** The shape of the manifest *)

Lemma ensure_manifest_shape_dict d :
  exists m, ensure_manifest_shape (JObj d) = Ok m /\
    dict_get m (lit "puzzles")
    = (if is_dict (dict_get d (lit "puzzles")) then dict_get d (lit "puzzles")
       else Some (JObj [])) /\
    dict_get m (lit "meta")
    = (if is_dict (dict_get d (lit "meta")) then dict_get d (lit "meta")
       else Some (JObj [])) /\
    (forall k, k <> lit "puzzles" -> k <> lit "meta" -> dict_get m k = dict_get d k).
Proof.
  eexists. split; [reflexivity|].
  assert (Hpm : lit "puzzles" <> lit "meta") by discriminate.
  destruct (is_dict (dict_get d (lit "puzzles"))) eqn:P.
  - destruct (is_dict (dict_get d (lit "meta"))) eqn:M.
    + auto.
    + split; [|split].
      * rewrite dict_get_set_ne by congruence. reflexivity.
      * apply dict_get_set_eq.
      * intros k _ Hk. apply dict_get_set_ne. congruence.
  - assert (M' : is_dict (dict_get (dict_set d (lit "puzzles") (JObj [])) (lit "meta"))
                 = is_dict (dict_get d (lit "meta")))
      by (rewrite dict_get_set_ne by exact Hpm; reflexivity).
    rewrite M'. destruct (is_dict (dict_get d (lit "meta"))) eqn:M.
    + split; [apply dict_get_set_eq|]. split.
      * rewrite dict_get_set_ne by exact Hpm. reflexivity.
      * intros k Hk _. apply dict_get_set_ne. congruence.
    + split; [|split].
      * rewrite dict_get_set_ne by congruence. apply dict_get_set_eq.
      * apply dict_get_set_eq.
      * intros k Hk1 Hk2. rewrite !dict_get_set_ne by congruence. reflexivity.
Qed.

(** C10, as the code has it.  A manifest file that holds a JSON object does
    not abort the run, whatever is under [puzzles] and [meta]: a member that
    is absent or is not an object is replaced in memory by an empty object,
    the other members are kept, and the run does not fail on the manifest.
    The run fails on the manifest exactly when the table is sound and the
    manifest file is missing, is not JSON, or holds a JSON value that is not
    an object. *)
Theorem manifest_shape_repair (dry_run : bool) (now : datetime) (fs : FileSystem) :
  (forall d, manifest_file fs = FileJson (JObj d) ->
     (exists m, ensure_manifest_shape (JObj d) = Ok m /\
        dict_get m (lit "puzzles")
        = (if is_dict (dict_get d (lit "puzzles")) then dict_get d (lit "puzzles")
           else Some (JObj [])) /\
        dict_get m (lit "meta")
        = (if is_dict (dict_get d (lit "meta")) then dict_get d (lit "meta")
           else Some (JObj [])) /\
        (forall k, k <> lit "puzzles" -> k <> lit "meta" ->
                   dict_get m k = dict_get d k)) /\
     (forall e fs', generate dry_run now fs = Aborted e fs' ->
                    is_manifest_error e = false)) /\
  ((exists e fs', generate dry_run now fs = Aborted e fs' /\
                  is_manifest_error e = true) <->
   ~ bad_table (csv_file fs) /\ manifest_unusable (manifest_file fs)).
Proof.
  split.
  - intros d Hm. split; [apply ensure_manifest_shape_dict|].
    intros e fs'. rewrite generate_unfold.
    destruct (checked_table (csv_file fs)) as [table|e0] eqn:C.
    + cbv zeta. rewrite Hm. cbn [load_manifest ensure_manifest_shape].
      destruct (run_rows _ _ _) as [st [e2|]] eqn:R; [|discriminate].
      apply run_rows_error in R as [-> _]. intros [= <- _]. reflexivity.
    + intros [= <- _]. apply checked_table_raise in C as [C _].
      destruct e0; try discriminate; reflexivity.
  - rewrite generate_unfold. split.
    + intros (e & fs' & G & He).
      destruct (checked_table (csv_file fs)) as [table|e0] eqn:C.
      * split; [apply (checked_table_ok _ _ C)|].
        cbv zeta in G. destruct (manifest_file fs) as [| |v].
        -- left. reflexivity.
        -- right. left. reflexivity.
        -- right. right. exists v. split; [reflexivity|]. intros d ->.
           cbn [load_manifest ensure_manifest_shape] in G.
           destruct (run_rows _ _ _) as [st [e2|]] eqn:R; [|discriminate].
           apply run_rows_error in R as [-> _]. injection G as <- _. discriminate.
      * injection G as <- _. apply checked_table_raise in C as [C _].
        destruct e0; discriminate.
    + intros [Hb Hm].
      destruct (checked_table (csv_file fs)) as [table|e0] eqn:C.
      * cbv zeta. destruct Hm as [-> | [-> | (v & -> & Hv)]].
        -- eexists _, _. split; [reflexivity|reflexivity].
        -- eexists _, _. split; [reflexivity|reflexivity].
        -- cbn [load_manifest].
           destruct v; try (eexists _, _; split; reflexivity).
           exfalso. eapply Hv. reflexivity.
      * exfalso. apply Hb. apply (checked_table_raise _ _ C).
Qed.

Lemma manifest_shape_repair_witness :
  (exists m, ensure_manifest_shape (JObj []) = Ok m /\
             dict_get m (lit "puzzles") = Some (JObj []) /\
             dict_get m (lit "meta") = Some (JObj [])) /\
  (forall e fs', generate false Sample.now Sample.fresh = Aborted e fs' ->
                 is_manifest_error e = false).
Proof.
  destruct (manifest_shape_repair false Sample.now Sample.fresh) as [H _].
  destruct (H [] eq_refl) as [(m & E & Hp & Hm & _) Hg].
  split; [|exact Hg]. exists m. auto.
Defined.

(** Against C10 as stated.  A manifest file that parses as JSON, here as
    the empty list, and has no
    [puzzles] member still aborts the run. *)
Lemma json_manifest_aborts :
  ~ (forall dry_run now fs v e fs',
       manifest_file fs = FileJson v ->
       generate dry_run now fs = Aborted e fs' -> is_manifest_error e = false) /\
  generate false Sample.now Sample.list_manifest
  = Aborted ManifestNotDict
      (mkFS (csv_file Sample.list_manifest) (Some ∅) (FileJson (JArr []))).
Proof.
  assert (G : generate false Sample.now Sample.list_manifest
              = Aborted ManifestNotDict
                  (mkFS (csv_file Sample.list_manifest) (Some ∅) (FileJson (JArr []))))
    by reflexivity.
  split; [|exact G].
  intros H.
  specialize (H false Sample.now Sample.list_manifest (JArr []) _ _ eq_refl G).
  discriminate.
Qed.

(** ** Skipped rows *)

Lemma existsb_content_false row :
  all_blank row ->
  existsb (fun v => negb (is_empty (strip v))) (map snd (cells row)) = false.
Proof.
  intros H. apply not_true_is_false. intros E.
  apply existsb_exists in E as (v & Hv & E).
  apply in_map_iff in Hv as ([k v'] & <- & Hin).
  simpl in E. rewrite (H k v' Hin) in E. discriminate.
Qed.

(** A blank row without surplus cells is skipped and counted, and nothing
    else of the loop state moves. *)
Lemma blank_row_skipped dry_run st row :
  all_blank row -> rest row = None ->
  process_row dry_run st row = Ok (skip_blank st row).
Proof.
  intros Hb Hr. unfold process_row, _row_has_any_content.
  rewrite (existsb_content_false _ Hb), Hr. reflexivity.
Qed.

(** A row with content whose day key normalises to the empty text is
    skipped and counted. *)
Lemma dateless_row_skipped dry_run st row :
  _row_has_any_content row = Ok true ->
  _strip_wrapping_quotes (row_get row DATEKEY_COL) = [] ->
  process_row dry_run st row = Ok (skip_missing_date st row).
Proof.
  intros Hc Hk. unfold process_row. rewrite Hc, Hk. reflexivity.
Qed.

(** A blank row with surplus cells is not skipped: the run stops on it. *)
Lemma blank_long_row_raises dry_run st row x more :
  all_blank row -> rest row = Some (x :: more) ->
  process_row dry_run st row = Raise ListHasNoStrip.
Proof.
  intros Hb Hr. unfold process_row, _row_has_any_content.
  rewrite (existsb_content_false _ Hb), Hr. reflexivity.
Qed.

(** C6 fails on this input: the last record has ten empty cells under nine
    columns, so every field of the row is blank, yet the row is not skipped
    and counted; the run stops there with [AttributeError], after the
    artifact of the first row has been written and before the manifest and
    the table are. *)
Theorem blank_long_row_stops_run :
  exists artifacts,
    generate false Sample.now Sample.long_blank_row
    = Aborted ListHasNoStrip
        (mkFS (csv_file Sample.long_blank_row) (Some artifacts)
              (manifest_file Sample.long_blank_row)) /\
    is_Some (artifacts !! lit "2024-01-01.v1.json") /\
    all_blank (dict_reader_row Sample.columns (repeat [] 10)).
Proof.
  eexists. split; [vm_compute; reflexivity|]. split.
  - vm_compute. eauto.
  - intros k v H. vm_compute in H.
    repeat (destruct H as [[= <- <-]|H]; [reflexivity|]). destruct H.
Qed.

(** ** The loop as a fold *)

Lemma reconcile_row_plan dry_run st row date_key :
  reconcile_row dry_run st row date_key = apply_plan dry_run st (plan_row row date_key).
Proof.
  unfold reconcile_row, apply_plan, plan_row, plan_file, plan_text, plan_entry.
  cbn [pl_key pl_version pl_bumped pl_init pl_row pl_obj pl_reason].
  destruct dry_run; cbn [write_puzzle_json fst snd negb]; rewrite ?andb_true_r;
    reflexivity.
Qed.

Lemma process_row_step dry_run st row st' :
  process_row dry_run st row = Ok st' -> st' = step dry_run st row.
Proof.
  unfold process_row, step, row_plan.
  destruct (_row_has_any_content row) as [[]|e]; try discriminate.
  - destruct (is_empty _); intros [= <-]; [reflexivity|apply reconcile_row_plan].
  - intros [= <-]. reflexivity.
Qed.

Lemma run_rows_fold dry_run st todo st' :
  run_rows dry_run st todo = (st', None) -> st' = fold_left (step dry_run) todo st.
Proof.
  revert st. induction todo as [|row todo IH]; intros st; simpl.
  - intros [= <-]. reflexivity.
  - destruct (process_row dry_run st row) as [st1|e] eqn:P; [|discriminate].
    apply process_row_step in P. subst st1. apply IH.
Qed.

Lemma run_rows_completes_alike d1 d2 st1 st2 todo st1' :
  run_rows d1 st1 todo = (st1', None) ->
  exists st2', run_rows d2 st2 todo = (st2', None).
Proof.
  intros H. destruct (run_rows d2 st2 todo) as [st2' [e|]] eqn:R; [|eauto].
  apply run_rows_error in R as [_ (row & Hin & E)].
  exfalso. clear st2 st2'. revert st1 H.
  induction todo as [|r todo IH]; intros st1 H; [destruct Hin|].
  simpl in H. destruct (process_row d1 st1 r) as [st|e1] eqn:P; [|discriminate].
  destruct Hin as [->|Hin]; [|eauto].
  unfold process_row in P. rewrite E in P. discriminate.
Qed.

Lemma plans_cons row todo :
  plans (row :: todo)
  = match row_plan row with Some p => p :: plans todo | None => plans todo end.
Proof. unfold plans. simpl. destruct (row_plan row); reflexivity. Qed.

Lemma step_skip dry_run st row :
  row_plan row = None ->
  files (step dry_run st row) = files st /\
  puzzles_manifest (step dry_run st row) = puzzles_manifest st /\
  table_rows (step dry_run st row) = table_rows st ++ [row] /\
  results (step dry_run st row) = results st /\
  any_csv_updates (step dry_run st row) = any_csv_updates st /\
  any_manifest_updates (step dry_run st row) = any_manifest_updates st.
Proof.
  intros H. unfold step. rewrite H.
  destruct (_row_has_any_content row) as [[]|]; repeat split; reflexivity.
Qed.

Lemma step_plan dry_run st row p :
  row_plan row = Some p -> step dry_run st row = apply_plan dry_run st p.
Proof. intros H. unfold step. rewrite H. reflexivity. Qed.

(** The manifest in memory after the loop: the upserts of the plans. *)
Lemma fold_puzzles_manifest dry_run todo st :
  puzzles_manifest (fold_left (step dry_run) todo st)
  = fold_left upsert (plans todo) (puzzles_manifest st).
Proof.
  revert st. induction todo as [|row todo IH]; intros st; [reflexivity|].
  cbn [fold_left]. rewrite IH, plans_cons. destruct (row_plan row) as [p|] eqn:P.
  - rewrite (step_plan _ _ _ _ P). reflexivity.
  - destruct (step_skip dry_run st row P) as (_ & -> & _). reflexivity.
Qed.


Lemma fold_upsert_other ps pm k :
  ~ In k (map pl_key ps) -> dict_get (fold_left upsert ps pm) k = dict_get pm k.
Proof.
  revert pm. induction ps as [|p ps IH]; intros pm H; [reflexivity|].
  simpl. rewrite IH by (intros Hin; apply H; right; exact Hin).
  apply dict_get_set_ne. intros E. apply H. left. exact E.
Qed.


Lemma fold_any_manifest dry_run todo st :
  any_manifest_updates (fold_left (step dry_run) todo st) = true <->
  any_manifest_updates st = true \/ entry_changed (puzzles_manifest st) (plans todo).
Proof.
  revert st. induction todo as [|row todo IH]; intros st.
  - simpl. split; [auto|]. intros [H|(pre & p & post & E & _)]; [exact H|].
    destruct pre; discriminate.
  - cbn [fold_left]. rewrite IH, plans_cons. destruct (row_plan row) as [p|] eqn:P.
    + rewrite (step_plan _ _ _ _ P). cbn [apply_plan any_manifest_updates puzzles_manifest].
      rewrite orb_true_iff. split.
      * intros [[H|H]|(pre & q & post & E & D)]; [auto| |].
        -- right. exists [], p, (plans todo). auto.
        -- right. exists (p :: pre), q, post. rewrite E. auto.
      * intros [H|(pre & q & post & E & D)]; [auto|].
        destruct pre as [|p' pre]; simpl in E; injection E as <- E.
        -- left. right. exact D.
        -- right. exists pre, q, post. auto.
    + destruct (step_skip dry_run st row P) as (_ & -> & _ & _ & _ & ->). reflexivity.
Qed.

(** ** Completed runs *)

Lemma sub_dict_ensure d m :
  ensure_manifest_shape (JObj d) = Ok m ->
  sub_dict m (lit "puzzles") = sub_dict d (lit "puzzles").
Proof.
  destruct (ensure_manifest_shape_dict d) as (m' & E & Hp & _).
  rewrite E. intros [= <-]. unfold sub_dict. rewrite Hp.
  destruct (dict_get d (lit "puzzles")) as [[]|]; reflexivity.
Qed.

Lemma generate_eq dry_run now fs table d m :
  checked_table (csv_file fs) = Ok table ->
  manifest_file fs = FileJson (JObj d) ->
  ensure_manifest_shape (JObj d) = Ok m ->
  generate dry_run now fs =
  match run_rows dry_run (loop_start fs) (rows table) with
  | (st, Some e) => Aborted e (mkFS (csv_file fs) (Some (files st)) (manifest_file fs))
  | (st, None) => Done (final_fs dry_run now fs table m st)
                       (final_report now table m st)
  end.
Proof.
  intros C M S. rewrite generate_unfold, C. cbv zeta.
  destruct fs as [csv dir mf]. cbn [manifest_file csv_file puzzles_dir] in *.
  subst mf. cbn [load_manifest]. rewrite S. unfold loop_start.
  cbn [manifest_entries manifest_file puzzles_dir].
  rewrite (sub_dict_ensure _ _ S). reflexivity.
Qed.

Lemma generate_done dry_run now fs fs' rep :
  generate dry_run now fs = Done fs' rep ->
  exists table d m,
    checked_table (csv_file fs) = Ok table /\
    manifest_file fs = FileJson (JObj d) /\
    ensure_manifest_shape (JObj d) = Ok m /\
    let st := fold_left (step dry_run) (rows table) (loop_start fs) in
    run_rows dry_run (loop_start fs) (rows table) = (st, None) /\
    fs' = final_fs dry_run now fs table m st /\
    rep = final_report now table m st.
Proof.
  intros G. pose proof G as G'. rewrite generate_unfold in G'.
  destruct (checked_table (csv_file fs)) as [table|e] eqn:C; [|discriminate].
  cbv zeta in G'.
  destruct (manifest_file fs) as [| |v] eqn:M; try discriminate.
  destruct v as [| | | | |d]; try discriminate.
  clear G'. destruct (ensure_manifest_shape_dict d) as (m & S & _).
  rewrite (generate_eq _ _ _ _ _ _ C M S) in G.
  destruct (run_rows _ _ _) as [st [e|]] eqn:R; [discriminate|].
  pose proof (run_rows_fold _ _ _ _ R) as ->.
  injection G as <- <-. exists table, d, m. cbv zeta. auto 10.
Qed.

Lemma sub_dict_set m k d : sub_dict (dict_set m k (JObj d)) k = d.
Proof. unfold sub_dict. rewrite dict_get_set_eq. reflexivity. Qed.

Lemma sub_dict_set_ne m k k' v : k <> k' -> sub_dict (dict_set m k v) k' = sub_dict m k'.
Proof. intros H. unfold sub_dict. rewrite dict_get_set_ne by exact H. reflexivity. Qed.

Lemma final_manifest_puzzles now m st :
  sub_dict (final_manifest now m st) (lit "puzzles") = puzzles_manifest st.
Proof.
  unfold final_manifest, stamp. destruct (any_manifest_updates st).
  - rewrite sub_dict_set_ne by discriminate. apply sub_dict_set.
  - apply sub_dict_set.
Qed.

Lemma final_fs_entries dry_run now fs table m st :
  manifest_entries (manifest_file (final_fs dry_run now fs table m st))
  = if negb dry_run && any_manifest_updates st then puzzles_manifest st
    else manifest_entries (manifest_file fs).
Proof.
  unfold final_fs. cbn [manifest_file].
  destruct (negb dry_run && any_manifest_updates st); [|reflexivity].
  apply final_manifest_puzzles.
Qed.






(** ** The time stamp *)

Lemma uint_chars_digits d : Forall (fun c => is_digit c = true) (uint_chars d).
Proof. induction d; simpl; constructor; auto. Qed.

Lemma zero_pad_digits w n : Forall (fun c => is_digit c = true) (zero_pad w n).
Proof.
  unfold zero_pad. apply Forall_app. split; [|apply uint_chars_digits].
  apply List.Forall_forall. intros c Hc. apply repeat_spec in Hc.
  subst c. reflexivity.
Qed.

Lemma digits_not_plus s :
  Forall (fun c => is_digit c = true) s -> Forall not_plus s.
Proof.
  apply List.Forall_impl. intros c Hc. unfold not_plus.
  destruct (Ascii.eqb_spec "+"%char c) as [<-|]; [discriminate|reflexivity].
Qed.

Lemma replace_offset_suffix p fuel :
  Forall not_plus p -> (List.length p + 2 <= fuel)%nat ->
  replace_fuel fuel (lit "+00:00") (lit "Z") (p ++ lit "+00:00") = p ++ lit "Z".
Proof.
  revert fuel. induction p as [|c p IH]; intros fuel Hp Hf.
  - destruct fuel as [|[|fuel]]; simpl in Hf; try lia. reflexivity.
  - destruct fuel as [|fuel]; simpl in Hf; [lia|].
    inversion Hp as [|? ? Hc Hp']; subst.
    cbn [replace_fuel app]. change (lit "+00:00") with ("+"%char :: lit "00:00").
    cbn [strip_prefix]. unfold not_plus in Hc. rewrite Hc.
    change ("+"%char :: lit "00:00") with (lit "+00:00").
    rewrite IH; [reflexivity|exact Hp'|lia].
Qed.

(** The stamp is the date and the time to the second, then [Z]. *)
Lemma utc_now_format now :
  _utc_now_iso_z now
  = (zero_pad 4 (year now) ++ "-"%char :: zero_pad 2 (month now) ++ "-"%char
     :: zero_pad 2 (day now) ++ "T"%char :: zero_pad 2 (hour now) ++ ":"%char
     :: zero_pad 2 (minute now) ++ ":"%char :: zero_pad 2 (second now))
    ++ lit "Z".
Proof.
  unfold _utc_now_iso_z, str_replace.
  match goal with |- _ = ?P ++ _ => set (p := P) end.
  assert (E : isoformat (mkDatetime (year now) (month now) (day now) (hour now)
                                    (minute now) (second now) 0)
              = p ++ lit "+00:00").
  { unfold p, isoformat. cbn [year month day hour minute second microsecond N.eqb].
    repeat (rewrite <- app_assoc; cbn [app]). reflexivity. }
  rewrite E. apply replace_offset_suffix; [|rewrite length_app; simpl; lia].
  unfold p.
  repeat (apply Forall_app; split; [apply digits_not_plus, zero_pad_digits|];
          apply Forall_cons; split; [reflexivity|]).
  apply digits_not_plus, zero_pad_digits.
Qed.

(** ** The manifest file and its stamp *)

Lemma final_manifest_stamp now m st :
  any_manifest_updates st = true ->
  dict_get (sub_dict (final_manifest now m st) (lit "meta")) (lit "generatedAtUtc")
  = Some (JStr (_utc_now_iso_z now)).
Proof.
  intros H. unfold final_manifest, stamp. rewrite H.
  rewrite sub_dict_set. apply dict_get_set_eq.
Qed.

(** C4, as the code has it.  In every completed run the manifest counts as
    updated exactly when some upsert changed an entry, by Python's equality
    of dictionaries, and then the manifest in memory gets the stamp
    [meta.generatedAtUtc]: the clock reading to the second, ending in [Z].
    A run that is not a dry run then writes that manifest to the manifest
    file.  A dry run, and a run in which no entry changed, leave the
    manifest file as it was. *)
Theorem manifest_stamp_iff_changed (dry_run : bool) (now : datetime)
    (fs fs' : FileSystem) (rep : Report) :
  generate dry_run now fs = Done fs' rep ->
  exists table,
    checked_table (csv_file fs) = Ok table /\
    let changed :=
      entry_changed (manifest_entries (manifest_file fs)) (plans (rows table)) in
    (rep_manifest_updated rep = true <-> changed) /\
    (changed ->
       dict_get (sub_dict (rep_manifest rep) (lit "meta")) (lit "generatedAtUtc")
       = Some (JStr (_utc_now_iso_z now)) /\
       _utc_now_iso_z now
       = (zero_pad 4 (year now) ++ "-"%char :: zero_pad 2 (month now) ++ "-"%char
          :: zero_pad 2 (day now) ++ "T"%char :: zero_pad 2 (hour now) ++ ":"%char
          :: zero_pad 2 (minute now) ++ ":"%char :: zero_pad 2 (second now))
         ++ lit "Z") /\
    (dry_run = false -> changed ->
       manifest_file fs' = FileJson (JObj (rep_manifest rep))) /\
    (dry_run = true \/ ~ changed -> manifest_file fs' = manifest_file fs).
Proof.
  intros G. apply generate_done in G as (table & d & m & C & M & S & G).
  cbv zeta in G. destruct G as (_ & -> & ->).
  exists table. split; [exact C|]. cbv zeta.
  set (st := fold_left (step dry_run) (rows table) (loop_start fs)).
  assert (U : any_manifest_updates st = true <->
              entry_changed (manifest_entries (manifest_file fs)) (plans (rows table))).
  { unfold st. rewrite fold_any_manifest. cbn [loop_start any_manifest_updates puzzles_manifest].
    split; [intros [H|H]; [discriminate|exact H]|auto]. }
  cbn [final_report rep_manifest_updated rep_manifest final_fs manifest_file].
  split; [exact U|]. split; [|split].
  - intros H. apply U in H. split; [apply final_manifest_stamp, H|apply utc_now_format].
  - intros -> H. apply U in H. rewrite H. reflexivity.
  - intros [->|H]; [reflexivity|].
    destruct (any_manifest_updates st); [|rewrite andb_false_r; reflexivity].
    exfalso. apply H, U. reflexivity.
Qed.

Lemma manifest_stamp_iff_changed_witness :
  exists fs' rep,
    generate false Sample.now Sample.fresh = Done fs' rep /\
    rep_manifest_updated rep = true /\
    manifest_file fs' = FileJson (JObj (rep_manifest rep)) /\
    dict_get (sub_dict (rep_manifest rep) (lit "meta")) (lit "generatedAtUtc")
    = Some (JStr (lit "2026-11-03T10:00:00Z")).
Proof.
  eassert (G : generate false Sample.now Sample.fresh = Done _ _)
    by (vm_compute; reflexivity).
  eexists _, _. split; [exact G|].
  destruct (manifest_stamp_iff_changed _ _ _ _ _ G) as (table & C & U & St & W & _).
  assert (H : rep_manifest_updated
                (match generate false Sample.now Sample.fresh with
                 | Done _ rep => rep
                 | Aborted _ _ => final_report Sample.now table [] (loop_start Sample.fresh)
                 end) = true) by (vm_compute; reflexivity).
  rewrite G in H. split; [exact H|]. apply U in H. split.
  - apply W; [reflexivity|exact H].
  - destruct (St H) as [E _]. rewrite E. vm_compute. reflexivity.
Defined.

(** Against C4 as stated.  A dry run in which an entry changes (here it is
    new) stamps the manifest
    in memory but does not write the manifest file. *)
Lemma dry_run_leaves_manifest_file :
  ~ (forall dry_run now fs fs' rep table,
       generate dry_run now fs = Done fs' rep ->
       checked_table (csv_file fs) = Ok table ->
       entry_changed (manifest_entries (manifest_file fs)) (plans (rows table)) ->
       exists m, manifest_file fs' = FileJson (JObj m) /\
                 dict_get (sub_dict m (lit "meta")) (lit "generatedAtUtc")
                 = Some (JStr (_utc_now_iso_z now))).
Proof.
  intros H.
  eassert (G : generate true Sample.now Sample.fresh = Done _ _)
    by (vm_compute; reflexivity).
  eassert (C : checked_table (csv_file Sample.fresh) = Ok _)
    by (vm_compute; reflexivity).
  destruct (H _ _ _ _ _ _ G C) as (m & E & T).
  - eexists [], _, []. split; vm_compute; reflexivity.
  - cbn [manifest_file] in E. vm_compute in E. injection E as <-.
    vm_compute in T. discriminate.
Qed.

(** ** File names *)

Lemma str_of_int_chars n : Forall int_char (str_of_int n).
Proof.
  unfold str_of_int. destruct (Z.to_int n) as [d|d].
  - eapply List.Forall_impl; [|apply uint_chars_digits]. intros c H. left. exact H.
  - constructor; [right; reflexivity|].
    eapply List.Forall_impl; [|apply uint_chars_digits]. intros c H. left. exact H.
Qed.

Lemma span_unique {A} (P : A -> Prop) l1 l2 c1 c2 t1 t2 :
  Forall P l1 -> Forall P l2 -> ~ P c1 -> ~ P c2 ->
  l1 ++ c1 :: t1 = l2 ++ c2 :: t2 -> l1 = l2 /\ c1 :: t1 = c2 :: t2.
Proof.
  intros H1. revert l2. induction H1 as [|x l1 Hx H1 IH]; intros l2 H2 N1 N2 E.
  - destruct H2 as [|y l2 Hy H2]; [auto|].
    simpl in E. injection E as -> _. contradiction.
  - destruct H2 as [|y l2 Hy H2].
    + simpl in E. injection E as -> _. contradiction.
    + simpl in E. injection E as -> E.
      destruct (IH l2 H2 N1 N2 E) as [-> E']. auto.
Qed.

Lemma file_name_inj k1 v1 k2 v2 :
  file_name k1 v1 = file_name k2 v2 -> k1 = k2 /\ str_of_int v1 = str_of_int v2.
Proof.
  unfold file_name. rewrite !app_assoc. intros E.
  apply app_inv_tail in E. apply (f_equal (@rev ascii)) in E.
  rewrite !rev_app_distr in E.
  change (rev (lit ".v")) with ("v"%char :: lit ".") in E.
  cbn [app] in E.
  apply span_unique with (P := int_char) in E.
  - destruct E as [E1 E2]. injection E2 as E2.
    apply (f_equal (@rev ascii)) in E1, E2. rewrite !rev_involutive in E1, E2.
    auto.
  - apply Forall_rev, str_of_int_chars.
  - apply Forall_rev, str_of_int_chars.
  - intros [H|H]; discriminate.
  - intros [H|H]; discriminate.
Qed.

Lemma plan_file_inj p q : plan_file p = plan_file q -> pl_key p = pl_key q.
Proof. intros H. apply file_name_inj in H as [H _]. exact H. Qed.

(** ** A dry run against the run proper *)

Lemma fold_dry_files todo st : files (fold_left (step true) todo st) = files st.
Proof.
  revert st. induction todo as [|row todo IH]; intros st; [reflexivity|].
  cbn [fold_left]. rewrite IH. destruct (row_plan row) as [p|] eqn:P.
  - rewrite (step_plan _ _ _ _ P). reflexivity.
  - apply (step_skip true st row P).
Qed.

Lemma fold_dry_real todo sd sr :
  NoDup (day_keys todo) ->
  same_but_files sd sr ->
  (forall p, In p (plans todo) -> files sd !! plan_file p = files sr !! plan_file p) ->
  same_but_files (fold_left (step true) todo sd) (fold_left (step false) todo sr).
Proof.
  revert sd sr. induction todo as [|row todo IH]; intros sd sr Hnd Hs Hf; [exact Hs|].
  cbn [fold_left]. unfold day_keys in Hnd. rewrite plans_cons in Hnd, Hf.
  destruct (row_plan row) as [p|] eqn:P.
  - cbn [map] in Hnd. apply NoDup_cons in Hnd as [Hp Hnd].
    rewrite !(step_plan _ _ _ _ P). apply IH; [exact Hnd| |].
    + destruct Hs as (H1 & H2 & H3 & H4 & H5 & H6 & H7).
      unfold same_but_files, apply_plan.
      cbn [puzzles_manifest table_rows results skipped_blank_rows
           skipped_missing_date any_csv_updates any_manifest_updates].
      rewrite (Hf p (or_introl eq_refl)), H1, H2, H3, H4, H5, H6, H7.
      repeat split; reflexivity.
    + intros q Hq. cbn [apply_plan files].
      rewrite lookup_insert_ne.
      * apply Hf. right. exact Hq.
      * intros E. apply plan_file_inj in E. apply Hp.
        rewrite list_elem_of_In. rewrite E. apply in_map, Hq.
  - assert (E : forall d st, step d st row
                = match _row_has_any_content row with
                  | Ok true => skip_missing_date st row
                  | _ => skip_blank st row
                  end) by (intros; unfold step; rewrite P; reflexivity).
    rewrite !E. apply IH; [exact Hnd| |].
    + destruct Hs as (H1 & H2 & H3 & H4 & H5 & H6 & H7).
      destruct (_row_has_any_content row) as [[]|];
        unfold same_but_files, skip_blank, skip_missing_date;
        cbn [puzzles_manifest table_rows results skipped_blank_rows
             skipped_missing_date any_csv_updates any_manifest_updates];
        rewrite H1, H2, H3, H4, H5, H6, H7; repeat split; reflexivity.
    + intros q Hq. destruct (_row_has_any_content row) as [[]|]; apply Hf, Hq.
Qed.

Lemma same_but_files_report now table m a b :
  same_but_files a b -> final_report now table m a = final_report now table m b.
Proof.
  intros (H1 & H2 & H3 & H4 & H5 & H6 & H7).
  unfold final_report, final_manifest, final_table.
  rewrite H1, H2, H3, H4, H5, H6, H7. reflexivity.
Qed.

Lemma dry_real_reports now fs table m :
  NoDup (day_keys (rows table)) ->
  final_report now table m (fold_left (step true) (rows table) (loop_start fs))
  = final_report now table m (fold_left (step false) (rows table) (loop_start fs)).
Proof.
  intros H. apply same_but_files_report, fold_dry_real; [exact H| |reflexivity].
  repeat split.
Qed.

(** C5, as the code has it.  A dry run writes no puzzle file, no manifest
    file and no table file.  When no two processed rows have the same day
    key and the day keys are made of digits and hyphens, a dry run and a
    run proper on the same state that both complete give the same report:
    row by row the same day key, version, created, refreshed and bumped
    marks, and the same manifest in memory, hence the same sha256
    digests. *)
Theorem dry_run_agrees (now : datetime) (fs : FileSystem) :
  (forall fs_d rep,
     generate true now fs = Done fs_d rep ->
     csv_file fs_d = csv_file fs /\ manifest_file fs_d = manifest_file fs /\
     puzzles_dir fs_d = Some (mkdir (puzzles_dir fs))) /\
  ((forall table, checked_table (csv_file fs) = Ok table ->
                  NoDup (day_keys (rows table)) /\
                  Forall date_like (day_keys (rows table))) ->
   forall fs_d rep_d fs_r rep_r,
     generate true now fs = Done fs_d rep_d ->
     generate false now fs = Done fs_r rep_r ->
     rep_d = rep_r).
Proof.
  split.
  - intros fs_d rep G.
    apply generate_done in G as (table & d & m & C & M & S & G).
    cbv zeta in G. destruct G as (_ & -> & _).
    unfold final_fs. cbn [negb andb csv_file manifest_file puzzles_dir].
    rewrite fold_dry_files. auto.
  - intros Hnd fs_d rep_d fs_r rep_r Gd Gr.
    apply generate_done in Gd as (table & d & m & C & M & S & Gd).
    apply generate_done in Gr as (table' & d' & m' & C' & M' & S' & Gr).
    cbv zeta in Gd, Gr. destruct Gd as (_ & _ & ->). destruct Gr as (_ & _ & ->).
    rewrite C in C'. injection C' as <-. rewrite M in M'. injection M' as <-.
    rewrite S in S'. injection S' as <-.
    apply dry_real_reports, (Hnd table C).
Qed.

Lemma sample_day_keys :
  forall table, checked_table (csv_file Sample.fresh) = Ok table ->
                NoDup (day_keys (rows table)).
Proof.
  intros table C.
  assert (E : checked_table (csv_file Sample.fresh)
              = Ok (mkCsvTable Sample.columns
                      [dict_reader_row Sample.columns Sample.paris] ","%char))
    by reflexivity.
  rewrite E in C. injection C as <-.
  assert (K : day_keys [dict_reader_row Sample.columns Sample.paris]
              = [lit "2024-01-01"]) by (vm_compute; reflexivity).
  cbn [rows]. rewrite K. apply NoDup_singleton.
Qed.

Ltac not_aborted G :=
  match type of G with
  | generate ?d ?n ?f = Aborted _ _ =>
      let H := fresh in
      assert (H : is_done (generate d n f) = true) by (vm_compute; reflexivity);
      rewrite G in H; discriminate H
  end.

Lemma sample_date_like :
  forall table, checked_table (csv_file Sample.fresh) = Ok table ->
                NoDup (day_keys (rows table)) /\
                Forall date_like (day_keys (rows table)).
Proof.
  intros table C. split; [apply (sample_day_keys table C)|].
  assert (E : checked_table (csv_file Sample.fresh)
              = Ok (mkCsvTable Sample.columns
                      [dict_reader_row Sample.columns Sample.paris] ","%char))
    by reflexivity.
  rewrite E in C. injection C as <-.
  assert (K : day_keys [dict_reader_row Sample.columns Sample.paris]
              = [lit "2024-01-01"]) by (vm_compute; reflexivity).
  cbn [rows]. rewrite K. repeat constructor.
Qed.

Lemma dry_run_agrees_witness :
  exists fs_d fs_r rep,
    generate true Sample.now Sample.fresh = Done fs_d rep /\
    generate false Sample.now Sample.fresh = Done fs_r rep.
Proof.
  destruct (generate true Sample.now Sample.fresh) as [fs_d rep_d|e fs_d] eqn:Gd;
    [|not_aborted Gd].
  destruct (generate false Sample.now Sample.fresh) as [fs_r rep_r|e fs_r] eqn:Gr;
    [|not_aborted Gr].
  destruct (dry_run_agrees Sample.now Sample.fresh) as [_ H].
  rewrite (H sample_date_like _ _ _ _ Gd Gr). eauto.
Defined.

(** Against C5 as stated.  With the same row twice and no artifact yet, the
    run proper creates the
    artifact at the first row and refreshes it at the second; the dry run
    reports it as created at both. *)
Lemma dry_run_differs_on_duplicates :
  ~ (forall now fs fs_d rep_d fs_r rep_r,
       generate true now fs = Done fs_d rep_d ->
       generate false now fs = Done fs_r rep_r ->
       map created (rep_results rep_d) = map created (rep_results rep_r)).
Proof.
  intros H.
  assert (Md : marks created (generate true Sample.now Sample.twice) = [true; true])
    by (vm_compute; reflexivity).
  assert (Mr : marks created (generate false Sample.now Sample.twice) = [true; false])
    by (vm_compute; reflexivity).
  destruct (generate true Sample.now Sample.twice) as [fs_d rep_d|] eqn:Gd;
    [|discriminate Md].
  destruct (generate false Sample.now Sample.twice) as [fs_r rep_r|] eqn:Gr;
    [|discriminate Mr].
  specialize (H _ _ _ _ _ _ Gd Gr). cbn [marks] in Md, Mr.
  rewrite Md, Mr in H. discriminate H.
Qed.

(** ** Texts that normalisation leaves alone *)

Lemma plain_not_space c : plain_char c = true -> isspace c = false.
Proof.
  unfold plain_char. intros H. apply andb_true_iff in H as [H _].
  apply andb_true_iff in H as [H _]. apply negb_true_iff, H.
Qed.

Lemma lstrip_plain s : plain s -> lstrip s = s.
Proof.
  intros [|c s' Hc _]; [reflexivity|]. simpl.
  rewrite (plain_not_space _ Hc). reflexivity.
Qed.

Lemma strip_plain s : plain s -> strip s = s.
Proof.
  intros H. unfold strip, rstrip. rewrite (lstrip_plain s H).
  rewrite lstrip_plain by (apply Forall_rev, H). apply rev_involutive.
Qed.

Lemma plain_no_quote s q body tail :
  plain s -> q = dq \/ q = sq -> s <> body ++ q :: tail.
Proof.
  intros H Hq ->. apply Forall_app in H as [_ H].
  inversion H as [|? ? Hc _]; subst. destruct Hq as [->| ->]; discriminate.
Qed.

Lemma strip_wrapping_quotes_plain s : plain s -> _strip_wrapping_quotes s = s.
Proof.
  intros H. unfold _strip_wrapping_quotes. rewrite (strip_plain s H).
  assert (W : wrapped_in_quotes s = false).
  { apply not_wrapped. intros q body E Hq.
    apply (plain_no_quote s q [] (body ++ [q]) H Hq). exact E. }
  assert (He : endswith_char sq s = false).
  { apply not_true_is_false. intros E. apply endswith_char_true in E as [body E].
    apply (plain_no_quote s sq body [] H); auto. }
  assert (Hs : startswith_char sq s = false).
  { apply not_true_is_false. intros E. apply startswith_char_true in E.
    destruct s as [|c s']; [discriminate|]. injection E as ->.
    apply (plain_no_quote (sq :: s') sq [] s' H); auto. }
  rewrite W, He. cbn [andb]. rewrite Hs, He. reflexivity.
Qed.

Lemma digit_plain c : is_digit c = true -> plain_char c = true.
Proof. destruct c as [[] [] [] [] [] [] [] []]; try discriminate; reflexivity. Qed.

Lemma digit_not_int_space c : is_digit c = true -> int_space c = false.
Proof. destruct c as [[] [] [] [] [] [] [] []]; try discriminate; reflexivity. Qed.

Lemma digit_not_underscore c : is_digit c = true -> Ascii.eqb c "_" = false.
Proof. destruct c as [[] [] [] [] [] [] [] []]; try discriminate; reflexivity. Qed.

Lemma str_of_int_plain n : plain (str_of_int n).
Proof.
  eapply List.Forall_impl; [|apply str_of_int_chars].
  intros c [H| ->]; [apply digit_plain, H|reflexivity].
Qed.

Lemma hex_digit_plain n : (n < 16)%N -> plain_char (hex_digit n) = true.
Proof.
  intros H.
  assert (A : forallb (fun k => plain_char (hex_digit (N.of_nat k))) (seq 0 16) = true)
    by reflexivity.
  rewrite forallb_forall in A. rewrite <- (N2Nat.id n). apply A, in_seq. lia.
Qed.

Lemma hexdigest_plain s : plain (SHA256.hexdigest s).
Proof.
  unfold SHA256.hexdigest, plain. apply List.Forall_forall. intros c Hc.
  apply in_map_iff in Hc as (i & <- & _). apply hex_digit_plain.
  change 15%N with (N.ones 4). rewrite N.land_ones.
  apply N.mod_lt. discriminate.
Qed.

Lemma content_hash_plain obj : plain (compute_content_hash obj).
Proof. apply hexdigest_plain. Qed.

(** ** Printing an integer and reading it back *)

Lemma digits_uint_chars d : digits_uint (uint_chars d) = Some d.
Proof. induction d; simpl; rewrite ?IHd; reflexivity. Qed.

Lemma int_body_digits s :
  s <> [] -> Forall (fun c => is_digit c = true) s -> int_body s = Some s.
Proof.
  induction s as [|c s IH]; intros Hne H; [contradiction|].
  inversion H as [|? ? Hc Hs]; subst. cbn [int_body]. rewrite Hc.
  destruct s as [|u s']; [reflexivity|].
  inversion Hs as [|? ? Hu _]; subst.
  rewrite (digit_not_underscore _ Hu), IH; [reflexivity|discriminate|exact Hs].
Qed.

Lemma uint_chars_nonempty d : d <> Decimal.Nil -> uint_chars d <> [].
Proof. destruct d; intros H; try discriminate. contradiction. Qed.

Lemma int_magnitude_chars d :
  d <> Decimal.Nil -> int_magnitude (uint_chars d) = Some (Z.of_uint d).
Proof.
  intros H. unfold int_magnitude.
  rewrite int_body_digits, digits_uint_chars;
    [reflexivity|apply uint_chars_nonempty, H|apply uint_chars_digits].
Qed.

Lemma drop_while_head p (s : str) :
  match s with [] => True | c :: _ => p c = false end -> drop_while p s = s.
Proof. destruct s as [|c s]; [reflexivity|]. simpl. intros ->. reflexivity. Qed.

Lemma int_trim_chars s :
  Forall int_char s ->
  rev (drop_while int_space (rev (drop_while int_space s))) = s.
Proof.
  assert (A : forall t, Forall int_char t -> drop_while int_space t = t).
  { intros t Ht. apply drop_while_head. destruct Ht as [|c t' Hc _]; [exact I|].
    destruct Hc as [Hc| ->]; [apply digit_not_int_space, Hc|reflexivity]. }
  intros H. rewrite (A s H), (A (rev s)) by (apply Forall_rev, H).
  apply rev_involutive.
Qed.

Lemma to_int_nonnil n :
  match Z.to_int n with Decimal.Pos d | Decimal.Neg d => d <> Decimal.Nil end.
Proof.
  destruct n; simpl; [discriminate| |]; apply Unsigned.to_uint_nonnil.
Qed.

Lemma digit_not_sign c :
  is_digit c = true -> Ascii.eqb c "+" = false /\ Ascii.eqb c "-" = false.
Proof. destruct c as [[] [] [] [] [] [] [] []]; try discriminate; auto. Qed.

Lemma py_int_str_of_int n : py_int (str_of_int n) = Some n.
Proof.
  unfold py_int. rewrite int_trim_chars by apply str_of_int_chars.
  pose proof (DecimalZ.of_to n) as E. pose proof (to_int_nonnil n) as Hn.
  unfold str_of_int. destruct (Z.to_int n) as [d|d]; simpl in E.
  - pose proof (uint_chars_digits d) as Hd.
    pose proof (int_magnitude_chars d Hn) as M.
    destruct (uint_chars d) as [|c b] eqn:U;
      [exfalso; exact (uint_chars_nonempty d Hn U)|].
    apply Forall_cons in Hd as [Hc _].
    destruct (digit_not_sign c Hc) as [-> ->]. rewrite M, E. reflexivity.
  - cbn [Ascii.eqb Bool.eqb]. rewrite (int_magnitude_chars d Hn).
    simpl. rewrite E. reflexivity.
Qed.

Lemma str_of_int_inj n m : str_of_int n = str_of_int m -> n = m.
Proof.
  intros H. apply (f_equal py_int) in H. rewrite !py_int_str_of_int in H.
  congruence.
Qed.

Lemma parse_int_str_of_int n default : _parse_int (str_of_int n) default = n.
Proof.
  unfold _parse_int. rewrite strip_wrapping_quotes_plain by apply str_of_int_plain.
  rewrite py_int_str_of_int.
  destruct (str_of_int n) eqn:E; [|reflexivity].
  pose proof (py_int_str_of_int n) as P. rewrite E in P. discriminate.
Qed.

(** ** More on the loop as a fold *)

Lemma fold_any_csv dry_run todo st :
  any_csv_updates (fold_left (step dry_run) todo st)
  = any_csv_updates st || existsb (fun p => pl_init p || pl_bumped p) (plans todo).
Proof.
  revert st. induction todo as [|row todo IH]; intros st.
  - simpl. rewrite orb_false_r. reflexivity.
  - cbn [fold_left]. rewrite IH, plans_cons. destruct (row_plan row) as [p|] eqn:P.
    + rewrite (step_plan _ _ _ _ P). cbn [apply_plan any_csv_updates existsb].
      rewrite <- !orb_assoc. reflexivity.
    + destruct (step_skip dry_run st row P) as (_ & _ & _ & _ & -> & _). reflexivity.
Qed.

Lemma fold_bumped dry_run todo st :
  map bumped (results (fold_left (step dry_run) todo st))
  = map bumped (results st) ++ map pl_bumped (plans todo).
Proof.
  revert st. induction todo as [|row todo IH]; intros st.
  - simpl. rewrite app_nil_r. reflexivity.
  - cbn [fold_left]. rewrite IH, plans_cons. destruct (row_plan row) as [p|] eqn:P.
    + rewrite (step_plan _ _ _ _ P). cbn [apply_plan results].
      rewrite map_app, <- app_assoc. reflexivity.
    + destruct (step_skip dry_run st row P) as (_ & _ & _ & -> & _). reflexivity.
Qed.

Lemma fold_files_real todo st :
  files (fold_left (step false) todo st)
  = fold_left write_file (map file_write (plans todo)) (files st).
Proof.
  revert st. induction todo as [|row todo IH]; intros st; [reflexivity|].
  cbn [fold_left]. rewrite IH, plans_cons. destruct (row_plan row) as [p|] eqn:P.
  - rewrite (step_plan _ _ _ _ P). reflexivity.
  - destruct (step_skip false st row P) as (-> & _). reflexivity.
Qed.

Lemma fold_table_rows dry_run todo st :
  table_rows (fold_left (step dry_run) todo st) = table_rows st ++ map row_out todo.
Proof.
  revert st. induction todo as [|row todo IH]; intros st.
  - simpl. rewrite app_nil_r. reflexivity.
  - cbn [fold_left map]. rewrite IH. unfold row_out at 2.
    destruct (row_plan row) as [p|] eqn:P.
    + rewrite (step_plan _ _ _ _ P). cbn [apply_plan table_rows].
      rewrite <- app_assoc. reflexivity.
    + destruct (step_skip dry_run st row P) as (_ & _ & -> & _).
      rewrite <- app_assoc. reflexivity.
Qed.

Lemma fold_changes dry_run todo st :
  any_manifest_updates (fold_left (step dry_run) todo st)
  = any_manifest_updates st
    || changes (puzzles_manifest st) (map entry_write (plans todo)).
Proof.
  revert st. induction todo as [|row todo IH]; intros st.
  - simpl. rewrite orb_false_r. reflexivity.
  - cbn [fold_left]. rewrite IH, plans_cons. destruct (row_plan row) as [p|] eqn:P.
    + rewrite (step_plan _ _ _ _ P).
      cbn [apply_plan any_manifest_updates puzzles_manifest map changes entry_write
           fst snd].
      rewrite <- orb_assoc. reflexivity.
    + destruct (step_skip dry_run st row P) as (_ & -> & _ & _ & _ & ->). reflexivity.
Qed.

Lemma fold_upsert_pairs ps pm :
  fold_left upsert ps pm
  = fold_left (fun m ke => dict_set m (fst ke) (snd ke)) (map entry_write ps) pm.
Proof. revert pm. induction ps as [|p ps IH]; intros pm; [reflexivity|]. apply IH. Qed.

Lemma fold_upsert_lookup ps pm p :
  NoDup (map pl_key ps) -> In p ps ->
  dict_get (fold_left upsert ps pm) (pl_key p) = Some (plan_entry p).
Proof.
  revert pm. induction ps as [|q ps IH]; intros pm Hnd Hin; [destruct Hin|].
  cbn [map] in Hnd. apply NoDup_cons in Hnd as [Hq Hnd]. cbn [fold_left].
  destruct Hin as [->|Hin]; [|apply IH; assumption].
  rewrite fold_upsert_other.
  - apply dict_get_set_eq.
  - intros H. apply Hq. rewrite list_elem_of_In. exact H.
Qed.

Lemma fold_write_other ws f k :
  ~ In k (map fst ws) -> fold_left write_file ws f !! k = f !! k.
Proof.
  revert f. induction ws as [|w ws IH]; intros f H; [reflexivity|].
  cbn [fold_left]. rewrite IH by (intros Hin; apply H; right; exact Hin).
  unfold write_file. apply lookup_insert_ne. intros E. apply H. left. exact E.
Qed.

Lemma fold_write_lookup ws f w :
  NoDup (map fst ws) -> In w ws ->
  fold_left write_file ws f !! fst w = Some (snd w).
Proof.
  revert f. induction ws as [|q ws IH]; intros f Hnd Hin; [destruct Hin|].
  cbn [map] in Hnd. apply NoDup_cons in Hnd as [Hq Hnd]. cbn [fold_left].
  destruct Hin as [->|Hin]; [|apply IH; assumption].
  rewrite fold_write_other.
  - apply lookup_insert_eq.
  - intros H. apply Hq. rewrite list_elem_of_In. exact H.
Qed.

Lemma fold_write_again ws f :
  (forall w, In w ws -> f !! fst w = Some (snd w)) -> fold_left write_file ws f = f.
Proof.
  revert f. induction ws as [|w ws IH]; intros f H; [reflexivity|].
  cbn [fold_left]. unfold write_file at 2.
  rewrite insert_id by (apply H; left; reflexivity).
  apply IH. intros w' Hw'. apply H. right. exact Hw'.
Qed.

Lemma changes_again pm kes :
  (forall ke, In ke kes -> dict_get pm (fst ke) = Some (snd ke)
                           /\ py_eq (snd ke) (snd ke) = true) ->
  changes pm kes = false.
Proof.
  induction kes as [|ke kes IH]; intros H; [reflexivity|].
  cbn [changes]. destruct (H ke (or_introl eq_refl)) as [G E].
  rewrite G. cbn [entry_differs]. rewrite E. cbn [negb orb].
  rewrite (dict_set_same _ _ _ G). apply IH. intros ke' Hke'. apply H. right. exact Hke'.
Qed.

Lemma py_eq_manifest_entry v u h :
  py_eq (manifest_entry v u h) (manifest_entry v u h) = true.
Proof.
  unfold manifest_entry. cbn. rewrite Z.eqb_refl, !str_eqb_refl. reflexivity.
Qed.

Lemma day_keys_file_names ps :
  NoDup (map pl_key ps) -> NoDup (map fst (map file_write ps)).
Proof.
  rewrite map_map. cbn [file_write fst].
  induction ps as [|p ps IH]; intros H; [constructor|].
  cbn [map] in *. apply NoDup_cons in H as [Hp H]. apply NoDup_cons. split; [|auto].
  intros Hin. apply Hp. rewrite list_elem_of_In in Hin |- *.
  apply in_map_iff in Hin as (q & E & Hq). apply plan_file_inj in E.
  rewrite <- E. apply in_map, Hq.
Qed.

(** ** Rows that read alike *)

Lemma build_hints_ext a b idx cols :
  (forall hc ec, In (hc, ec) cols -> row_get a hc = row_get b hc /\ row_get a ec = row_get b ec) ->
  build_hints a idx cols = build_hints b idx cols.
Proof.
  revert idx. induction cols as [|[hc ec] cols IH]; intros idx H; [reflexivity|].
  cbn [build_hints]. destruct (H hc ec (or_introl eq_refl)) as [-> ->].
  rewrite !IH by (intros; apply H; right; assumption). reflexivity.
Qed.

Lemma build_puzzle_object_ext a b v :
  (forall k, In k content_cols -> row_get a k = row_get b k) ->
  build_puzzle_object a v = build_puzzle_object b v.
Proof.
  intros H. unfold build_puzzle_object.
  rewrite (build_hints_ext a b 0 _hint_columns).
  - assert (K : forall k, In k [DATEKEY_COL; CATEGORY_COL; TAGS_COL;
                                ANSWER_CANONICAL_COL; ANSWER_ALIASES_COL;
                                SOLUTION_EXPLANATION_COL] ->
                           row_get a k = row_get b k).
    { intros k Hk. apply H. unfold content_cols. apply in_or_app. left. exact Hk. }
    rewrite !(K DATEKEY_COL), (K CATEGORY_COL), (K TAGS_COL),
      (K ANSWER_CANONICAL_COL), (K ANSWER_ALIASES_COL),
      (K SOLUTION_EXPLANATION_COL) by (cbn; tauto).
    reflexivity.
  - intros hc ec Hin. split; apply H; unfold content_cols; apply in_or_app; right;
      apply in_flat_map; exists (hc, ec); (split; [exact Hin|cbn; tauto]).
Qed.

Lemma content_cols_not_version : ~ In VERSION_COL content_cols.
Proof. vm_compute. intuition discriminate. Qed.

Lemma content_cols_not_hash : ~ In CONTENT_HASH_COL content_cols.
Proof. vm_compute. intuition discriminate. Qed.

(** ** Rows read back from the written table *)

Lemma zip_cells_get d names (f : str -> str) k :
  dict_get (zip_cells d names (map f names)) k
  = if str_in k names then Some (f k) else dict_get d k.
Proof.
  revert d. induction names as [|n names IH]; intros d; [reflexivity|].
  cbn [map zip_cells]. rewrite IH. unfold str_in. cbn [existsb].
  destruct (str_eqb k n) eqn:E.
  - apply str_eqb_eq in E. subst n. cbn [orb].
    destruct (existsb (str_eqb k) names); [reflexivity|apply dict_get_set_eq].
  - cbn [orb]. destruct (existsb (str_eqb k) names); [reflexivity|].
    apply dict_get_set_ne. apply str_eqb_neq in E. congruence.
Qed.

Lemma reread_cells h row :
  reread h row = mkRow (zip_cells [] h (map (row_get row) h)) None.
Proof.
  unfold reread, dict_reader_row. rewrite length_map, Nat.ltb_irrefl.
  rewrite skipn_all. reflexivity.
Qed.

Lemma reread_get h row k :
  row_get (reread h row) k = if str_in k h then row_get row k else [].
Proof.
  rewrite reread_cells. unfold row_get at 1. cbn [cells].
  rewrite zip_cells_get. destruct (str_in k h); reflexivity.
Qed.

Lemma reread_rest h row : rest (reread h row) = None.
Proof. rewrite reread_cells. reflexivity. Qed.

Lemma zip_cells_keys d names record k :
  ~ In k names -> dict_get (zip_cells d names record) k = dict_get d k.
Proof.
  revert d record. induction names as [|n names IH]; intros d record H; [reflexivity|].
  destruct record as [|v record]; [reflexivity|]. cbn [zip_cells].
  rewrite IH by (intros Hin; apply H; right; exact Hin).
  apply dict_get_set_ne. intros E. apply H. left. exact E.
Qed.

Lemma fold_blank_keys names (d : dict str) k :
  ~ In k names ->
  dict_get (fold_left (fun (d : dict str) k => dict_set d k []) names d) k
  = dict_get d k.
Proof.
  revert d. induction names as [|n names IH]; intros d H; [reflexivity|].
  cbn [fold_left]. rewrite IH by (intros Hin; apply H; right; exact Hin).
  apply dict_get_set_ne. intros E. apply H. left. exact E.
Qed.

Lemma dict_reader_row_keys h record : keys_within h (dict_reader_row h record).
Proof.
  intros k Hk. unfold dict_reader_row.
  destruct (List.length h <? List.length record)%nat; cbn [cells].
  - rewrite zip_cells_keys by exact Hk. reflexivity.
  - rewrite fold_blank_keys.
    + rewrite zip_cells_keys by exact Hk. reflexivity.
    + intros Hin. apply Hk. revert Hin. generalize (List.length record). intros n.
      revert h Hk. induction n as [|n IH]; intros h Hk Hin; [exact Hin|].
      destruct h as [|x h]; [exact Hin|]. right. apply IH; [|exact Hin].
      intros H. apply Hk. right. exact H.
Qed.

Lemma checked_table_keys f table :
  checked_table f = Ok table ->
  Forall (keys_within (header table)) (rows table).
Proof.
  intros C. apply checked_table_ok in C as [_ (more & _ & _ & ->)].
  apply List.Forall_forall. intros row Hrow.
  apply in_map_iff in Hrow as (r & <- & _). apply dict_reader_row_keys.
Qed.

Lemma checked_table_required f table :
  checked_table f = Ok table ->
  header table <> [] /\ forall c, In c REQUIRED_COLS -> In c (header table).
Proof.
  unfold checked_table, read_csv_table.
  destruct (file_records f) as [|h more]; [discriminate|].
  destruct h as [|c h]; [discriminate|].
  destruct (_require_columns _ _) as [[]|e] eqn:R; [|discriminate].
  intros [= <-]. split; [discriminate|].
  exact (proj1 (require_columns_ok _ _) R).
Qed.


(** ** A row met again *)

Lemma hexdigest_nonempty s : SHA256.hexdigest s <> [].
Proof.
  intros E. apply (f_equal (@List.length ascii)) in E.
  unfold SHA256.hexdigest in E. rewrite length_map, length_rev, length_seq in E.
  discriminate.
Qed.

Lemma content_hash_nonempty obj : is_empty (compute_content_hash obj) = false.
Proof. apply is_empty_false, hexdigest_nonempty. Qed.

Lemma strip_wrapping_quotes_blank v : strip v = [] -> _strip_wrapping_quotes v = [].
Proof. intros H. unfold _strip_wrapping_quotes. rewrite H. reflexivity. Qed.

Lemma dict_get_value {V} (d : dict V) k v : dict_get d k = Some v -> In v (map snd d).
Proof.
  induction d as [|[k' v'] d IH]; simpl; [discriminate|].
  destruct (str_eqb k' k); [intros [= ->]; auto|auto].
Qed.

Lemma plan_row_get row date_key k :
  row_get (pl_row (plan_row row date_key)) k
  = if str_eqb CONTENT_HASH_COL k
    then compute_content_hash
           (build_puzzle_object row (_parse_int (row_get row VERSION_COL) 1))
    else if str_eqb VERSION_COL k && pl_bumped (plan_row row date_key)
         then str_of_int (pl_version (plan_row row date_key))
         else row_get row k.
Proof.
  unfold plan_row. cbn [pl_row pl_bumped pl_version].
  set (b := negb _ && negb _).
  destruct (str_eqb CONTENT_HASH_COL k) eqn:E1.
  - apply str_eqb_eq in E1. subst k. apply row_get_set_eq.
  - apply str_eqb_neq in E1. rewrite row_get_set_ne by exact E1.
    destruct b; [|rewrite andb_false_r; reflexivity].
    rewrite andb_true_r. destruct (str_eqb VERSION_COL k) eqn:E2.
    + apply str_eqb_eq in E2. subst k. apply row_get_set_eq.
    + apply str_eqb_neq in E2. apply row_get_set_ne, E2.
Qed.

Lemma plan_row_version row date_key :
  pl_version (plan_row row date_key)
  = if pl_bumped (plan_row row date_key)
    then (_parse_int (row_get row VERSION_COL) 1 + 1)%Z
    else _parse_int (row_get row VERSION_COL) 1.
Proof. reflexivity. Qed.

Lemma plan_row_obj row date_key :
  pl_obj (plan_row row date_key)
  = build_puzzle_object row (pl_version (plan_row row date_key)).
Proof.
  unfold plan_row. cbn [pl_obj pl_version]. destruct (negb _ && negb _); reflexivity.
Qed.

(** A row that reads like the row an earlier turn left repeats its plan:
    same day key, version and record, no bump, no hash to initialise. *)
Lemma plan_row_settled row r2 date_key :
  row_ext r2 (pl_row (plan_row row date_key)) ->
  settled (plan_row r2 date_key) (plan_row row date_key).
Proof.
  intros Hext. set (p := plan_row row date_key).
  set (parsed := _parse_int (row_get row VERSION_COL) 1).
  set (h := compute_content_hash (build_puzzle_object row parsed)).
  assert (Hh : row_get r2 CONTENT_HASH_COL = h).
  { rewrite Hext. unfold p. rewrite plan_row_get, str_eqb_refl. reflexivity. }
  assert (Hv : _parse_int (row_get r2 VERSION_COL) 1 = pl_version p).
  { rewrite Hext. unfold p. rewrite plan_row_get.
    replace (str_eqb CONTENT_HASH_COL VERSION_COL) with false by reflexivity.
    rewrite str_eqb_refl, andb_true_l, plan_row_version.
    destruct (pl_bumped (plan_row row date_key)); [|reflexivity].
    apply parse_int_str_of_int. }
  assert (Hb : forall v, build_puzzle_object r2 v = build_puzzle_object row v).
  { intros v. apply build_puzzle_object_ext. intros k Hk. rewrite Hext.
    unfold p. rewrite plan_row_get.
    destruct (str_eqb CONTENT_HASH_COL k) eqn:E1.
    { apply str_eqb_eq in E1. subst k. destruct (content_cols_not_hash Hk). }
    destruct (str_eqb VERSION_COL k) eqn:E2; [|reflexivity].
    apply str_eqb_eq in E2. subst k. destruct (content_cols_not_version Hk). }
  assert (Hc : compute_content_hash (build_puzzle_object r2 (pl_version p)) = h).
  { rewrite Hb. apply content_hash_version. }
  unfold settled, plan_row at 1 2 3 4 5.
  cbn [pl_key pl_version pl_bumped pl_init pl_obj].
  rewrite Hh, Hv, Hc, (strip_wrapping_quotes_plain h) by apply content_hash_plain.
  unfold h at 1 2 3 4. rewrite content_hash_nonempty. fold h.
  rewrite str_eqb_refl. cbn [negb andb].
  repeat split. fold p. rewrite Hb. symmetry. apply plan_row_obj.
Qed.

Lemma row_plan_some row p :
  row_plan row = Some p ->
  _row_has_any_content row = Ok true /\
  _strip_wrapping_quotes (row_get row DATEKEY_COL) <> [] /\
  p = plan_row row (_strip_wrapping_quotes (row_get row DATEKEY_COL)).
Proof.
  unfold row_plan. destruct (_row_has_any_content row) as [[]|]; try discriminate.
  destruct (is_empty _) eqn:E; [discriminate|]. intros [= <-].
  apply is_empty_false in E. auto.
Qed.

Lemma has_content_of_hash r2 obj :
  dict_get (cells r2) CONTENT_HASH_COL = Some (compute_content_hash obj) ->
  _row_has_any_content r2 = Ok true.
Proof.
  intros H. unfold _row_has_any_content.
  replace (existsb _ _) with true; [reflexivity|].
  symmetry. apply existsb_exists. exists (compute_content_hash obj).
  split; [apply (dict_get_value _ _ _ H)|].
  rewrite strip_plain by apply content_hash_plain.
  rewrite content_hash_nonempty. reflexivity.
Qed.

(** The header of the written table holds every key of a row the loop
    leaves, so the row reads back like itself. *)
Lemma reread_row_out_ext h row :
  keys_within h row -> In VERSION_COL h ->
  row_ext (reread (with_content_hash h) (row_out row)) (row_out row).
Proof.
  intros Hk Hv k. rewrite reread_get.
  destruct (str_in k (with_content_hash h)) eqn:E; [reflexivity|].
  apply str_in_false in E.
  assert (Hh : ~ In k h).
  { intros H. apply E. unfold with_content_hash.
    destruct (str_in CONTENT_HASH_COL h); [exact H|apply in_or_app; auto]. }
  assert (Hc : k <> CONTENT_HASH_COL).
  { intros ->. apply E. unfold with_content_hash.
    destruct (str_in CONTENT_HASH_COL h) eqn:C;
      [apply str_in_true, C|apply in_or_app; right; left; reflexivity]. }
  assert (Hn : row_get row k = []) by (unfold row_get; rewrite (Hk k Hh); reflexivity).
  unfold row_out. destruct (row_plan row) as [p|] eqn:P; [|symmetry; exact Hn].
  apply row_plan_some in P as (_ & _ & ->). rewrite plan_row_get.
  replace (str_eqb CONTENT_HASH_COL k) with false
    by (symmetry; apply str_eqb_neq; congruence).
  replace (str_eqb VERSION_COL k) with false
    by (symmetry; apply str_eqb_neq; intros <-; contradiction).
  symmetry. exact Hn.
Qed.

Lemma with_content_hash_in h : In CONTENT_HASH_COL (with_content_hash h).
Proof.
  unfold with_content_hash. destruct (str_in CONTENT_HASH_COL h) eqn:C.
  - apply str_in_true, C.
  - apply in_or_app. right. left. reflexivity.
Qed.

Lemma with_content_hash_incl h k : In k h -> In k (with_content_hash h).
Proof.
  intros H. unfold with_content_hash.
  destruct (str_in CONTENT_HASH_COL h); [exact H|apply in_or_app; auto].
Qed.

(** A processed row, written and read back, is processed again with a
    settled plan. *)
Lemma reread_processed h row p :
  keys_within h row -> In VERSION_COL h -> In DATEKEY_COL h ->
  row_plan row = Some p ->
  exists p2, row_plan (reread (with_content_hash h) (row_out row)) = Some p2 /\
             settled p2 p.
Proof.
  intros Hk Hv Hd P.
  pose proof (reread_row_out_ext h row Hk Hv) as Hext.
  pose proof P as P'. apply row_plan_some in P' as (_ & Hne & Hp).
  set (r2 := reread (with_content_hash h) (row_out row)) in *.
  assert (Ho : row_out row = pl_row p) by (unfold row_out; rewrite P; reflexivity).
  rewrite Ho in Hext.
  assert (Hkey : _strip_wrapping_quotes (row_get r2 DATEKEY_COL)
                 = _strip_wrapping_quotes (row_get row DATEKEY_COL)).
  { rewrite Hext, Hp, plan_row_get.
    replace (str_eqb CONTENT_HASH_COL DATEKEY_COL) with false by reflexivity.
    replace (str_eqb VERSION_COL DATEKEY_COL) with false by reflexivity.
    reflexivity. }
  assert (Hc : _row_has_any_content r2 = Ok true).
  { apply (has_content_of_hash r2
             (build_puzzle_object row (_parse_int (row_get row VERSION_COL) 1))).
    unfold r2. rewrite reread_cells. cbn [cells]. rewrite zip_cells_get.
    replace (str_in CONTENT_HASH_COL (with_content_hash h)) with true
      by (symmetry; apply str_in_true, with_content_hash_in).
    rewrite Ho, Hp, plan_row_get, str_eqb_refl. reflexivity. }
  exists (plan_row r2 (_strip_wrapping_quotes (row_get row DATEKEY_COL))). split.
  - unfold row_plan. rewrite Hc, Hkey.
    apply is_empty_false in Hne. rewrite Hne. reflexivity.
  - rewrite Hp. apply plan_row_settled. rewrite <- Hp. exact Hext.
Qed.

Lemma blank_cells_get row k :
  existsb (fun v => negb (is_empty (strip v))) (map snd (cells row)) = false ->
  strip (row_get row k) = [].
Proof.
  intros H. unfold row_get. destruct (dict_get (cells row) k) as [v|] eqn:G; [|reflexivity].
  apply dict_get_value in G.
  destruct (strip v) eqn:S; [reflexivity|]. exfalso.
  assert (E : existsb (fun v => negb (is_empty (strip v))) (map snd (cells row)) = true).
  { apply existsb_exists. exists v. split; [exact G|]. rewrite S. reflexivity. }
  congruence.
Qed.

Lemma skipped_row_key row :
  row_plan row = None -> _row_has_any_content row <> Raise ListHasNoStrip ->
  _strip_wrapping_quotes (row_get row DATEKEY_COL) = [].
Proof.
  unfold row_plan, _row_has_any_content.
  destruct (existsb _ _) eqn:E.
  - destruct (is_empty _) eqn:K; [|discriminate]. intros _ _. apply is_empty_true, K.
  - intros _ _. apply strip_wrapping_quotes_blank, blank_cells_get, E.
Qed.

(** A skipped row, written and read back, is skipped again. *)
Lemma reread_skipped h row :
  In DATEKEY_COL h ->
  row_plan row = None -> _row_has_any_content row <> Raise ListHasNoStrip ->
  row_plan (reread (with_content_hash h) (row_out row)) = None.
Proof.
  intros Hd P F. unfold row_out. rewrite P.
  pose proof (skipped_row_key row P F) as K.
  unfold row_plan. rewrite reread_get.
  replace (str_in DATEKEY_COL (with_content_hash h)) with true
    by (symmetry; apply str_in_true, with_content_hash_incl, Hd).
  rewrite K. destruct (_row_has_any_content (reread _ _)) as [[]|]; reflexivity.
Qed.

Lemma plans_reread h todo :
  Forall (keys_within h) todo -> In VERSION_COL h -> In DATEKEY_COL h ->
  Forall (fun row => _row_has_any_content row <> Raise ListHasNoStrip) todo ->
  Forall2 settled (plans (map (reread (with_content_hash h)) (map row_out todo)))
          (plans todo).
Proof.
  intros Hk Hv Hd Hf. induction todo as [|row todo IH]; [constructor|].
  apply Forall_cons in Hk as [Hk1 Hk]. apply Forall_cons in Hf as [Hf1 Hf].
  cbn [map]. rewrite !plans_cons. destruct (row_plan row) as [p|] eqn:P.
  - destruct (reread_processed h row p Hk1 Hv Hd P) as (p2 & -> & S).
    constructor; [exact S|apply IH; assumption].
  - rewrite (reread_skipped h row Hd P Hf1). apply IH; assumption.
Qed.

Lemma run_rows_no_fault dry_run st todo st' :
  run_rows dry_run st todo = (st', None) ->
  Forall (fun row => _row_has_any_content row <> Raise ListHasNoStrip) todo.
Proof.
  revert st. induction todo as [|row todo IH]; intros st H; [constructor|].
  simpl in H. destruct (process_row dry_run st row) as [st1|e] eqn:P; [|discriminate].
  constructor; [|eapply IH; exact H].
  intros E. unfold process_row in P. rewrite E in P. discriminate.
Qed.

(** ** The second run *)

Lemma settled_effects ps2 ps1 :
  Forall2 settled ps2 ps1 ->
  map file_write ps2 = map file_write ps1 /\
  map entry_write ps2 = map entry_write ps1 /\
  existsb (fun p => pl_init p || pl_bumped p) ps2 = false /\
  map pl_bumped ps2 = repeat false (List.length ps2).
Proof.
  induction 1 as [|p2 p1 ps2 ps1 (Hk & Hv & Ho & Hb & Hi) _ (IH1 & IH2 & IH3 & IH4)];
    [repeat split|].
  cbn [map existsb List.length repeat]. rewrite IH1, IH2, IH3, IH4, Hb, Hi.
  unfold file_write, entry_write, plan_entry, plan_text, plan_file.
  rewrite Hk, Hv, Ho. repeat split.
Qed.

Lemma filter_all {A} (p : A -> bool) l :
  (forall x, In x l -> p x = true) -> List.filter p l = l.
Proof.
  induction l as [|a l IH]; intros H; [reflexivity|]. simpl.
  rewrite (H a (or_introl eq_refl)), IH; [reflexivity|].
  intros x Hx. apply H. right. exact Hx.
Qed.

Lemma with_content_hash_nonempty h : h <> [] -> with_content_hash h <> [].
Proof.
  intros H. unfold with_content_hash. destruct (str_in _ _); [exact H|].
  destruct h; [contradiction|discriminate].
Qed.

(** The table that was written reads back as it was written. *)
Lemma checked_table_written table st :
  header table <> [] ->
  (forall c, In c REQUIRED_COLS -> In c (header table)) ->
  checked_table (write_csv_table (final_table table st))
  = Ok (mkCsvTable (with_content_hash (header table))
          (map (reread (with_content_hash (header table))) (table_rows st))
          (delimiter table)).
Proof.
  intros Hne Hreq. unfold checked_table, read_csv_table, write_csv_table, final_table.
  cbn [file_records file_delimiter header rows delimiter].
  pose proof (with_content_hash_nonempty _ Hne) as Hne'.
  set (h := with_content_hash (header table)) in *.
  destruct h as [|c h'] eqn:Eh; [contradiction|]. rewrite <- Eh.
  rewrite filter_all.
  - rewrite map_map.
    replace (_require_columns _ _) with (Ok tt); [reflexivity|].
    symmetry. apply require_columns_ok. cbn [header]. intros k Hk.
    rewrite Eh. fold (with_content_hash (header table)) in Eh. rewrite <- Eh.
    apply with_content_hash_incl, Hreq, Hk.
  - intros r Hr. apply in_map_iff in Hr as (row & <- & _). rewrite Eh. reflexivity.
Qed.

Lemma second_run_loop fs1 rows2 ps1 :
  Forall2 settled (plans rows2) ps1 ->
  (forall w, In w (map file_write ps1) ->
             mkdir (puzzles_dir fs1) !! fst w = Some (snd w)) ->
  changes (manifest_entries (manifest_file fs1)) (map entry_write ps1) = false ->
  let st2 := fold_left (step false) rows2 (loop_start fs1) in
  files st2 = mkdir (puzzles_dir fs1) /\
  any_csv_updates st2 = false /\ any_manifest_updates st2 = false /\
  Forall (fun r => bumped r = false) (results st2).
Proof.
  intros Hs Hf Hc st2. apply settled_effects in Hs as (E1 & E2 & E3 & E4).
  unfold st2. split; [|split; [|split]].
  - rewrite fold_files_real, E1. apply fold_write_again, Hf.
  - rewrite fold_any_csv, E3. reflexivity.
  - rewrite fold_changes, E2. exact Hc.
  - pose proof (fold_bumped false rows2 (loop_start fs1)) as B.
    cbn [loop_start results map app] in B. rewrite E4 in B.
    apply List.Forall_forall. intros r Hr.
    assert (Hin : In (bumped r) (map bumped (results (fold_left (step false) rows2
                                                        (loop_start fs1)))))
      by (apply in_map, Hr).
    rewrite B in Hin. apply repeat_spec in Hin. exact Hin.
Qed.

Lemma settled_refl ps :
  existsb (fun p => pl_init p || pl_bumped p) ps = false -> Forall2 settled ps ps.
Proof.
  induction ps as [|p ps IH]; intros H; [constructor|].
  cbn [existsb] in H. apply orb_false_iff in H as [H1 H2].
  apply orb_false_iff in H1 as [Hi Hb].
  constructor; [unfold settled; auto|apply IH, H2].
Qed.

Lemma entry_write_py_eq ps ke :
  In ke (map entry_write ps) -> py_eq (snd ke) (snd ke) = true.
Proof.
  intros H. apply in_map_iff in H as (p & <- & _). apply py_eq_manifest_entry.
Qed.

Lemma fs_with_dir fs x :
  puzzles_dir fs = Some x ->
  mkFS (csv_file fs) (Some (mkdir (puzzles_dir fs))) (manifest_file fs) = fs.
Proof. destruct fs as [c d mf]. cbn. intros ->. reflexivity. Qed.

Lemma first_run_files fs table :
  NoDup (day_keys (rows table)) ->
  forall w, In w (map file_write (plans (rows table))) ->
    files (fold_left (step false) (rows table) (loop_start fs)) !! fst w = Some (snd w).
Proof.
  intros Hnd w Hw. rewrite fold_files_real.
  apply fold_write_lookup; [apply day_keys_file_names, Hnd|exact Hw].
Qed.

Lemma first_run_entries now fs table m :
  NoDup (day_keys (rows table)) ->
  let st1 := fold_left (step false) (rows table) (loop_start fs) in
  changes (manifest_entries (manifest_file (final_fs false now fs table m st1)))
          (map entry_write (plans (rows table))) = false.
Proof.
  intros Hnd st1. rewrite final_fs_entries. cbn [negb andb].
  destruct (any_manifest_updates st1) eqn:U.
  - apply changes_again. intros ke Hke. split; [|apply (entry_write_py_eq _ _ Hke)].
    apply in_map_iff in Hke as (p & <- & Hp). unfold st1.
    rewrite fold_puzzles_manifest. apply fold_upsert_lookup; assumption.
  - unfold st1 in U. rewrite fold_changes in U. exact U.
Qed.

(** C3, as the code has it.  Take a completed run on a table in which no
    two processed rows have the same day key, and a second run that finds
    the puzzle files and the manifest file as the first run left them, and
    a table file that reads as the table the first run wrote, or the table
    file of the first run where that run wrote none.  The second run
    completes and changes nothing: the table file, every artifact and the
    manifest file are what they were, no row is reported as bumped, and the
    summary says that the table and the manifest are unchanged. *)
Theorem second_run_changes_nothing (now1 now2 : datetime)
    (fs fs1 fs2 : FileSystem) (rep1 : Report) :
  generate false now1 fs = Done fs1 rep1 ->
  (forall table, checked_table (csv_file fs) = Ok table ->
                 NoDup (day_keys (rows table))) ->
  puzzles_dir fs2 = puzzles_dir fs1 ->
  manifest_file fs2 = manifest_file fs1 ->
  (if rep_csv_updated rep1 then reads_as_written (csv_file fs2) (rep_table rep1)
   else csv_file fs2 = csv_file fs) ->
  exists rep2,
    generate false now2 fs2 = Done fs2 rep2 /\
    Forall (fun r => bumped r = false) (rep_results rep2) /\
    rep_csv_updated rep2 = false /\ rep_manifest_updated rep2 = false.
Proof.
  intros G Hnd Hdir2 Hman2 Hcsv2.
  apply generate_done in G as (table & d & m & C & M & S & G).
  cbv zeta in G. destruct G as (R & Efs & Erep). specialize (Hnd table C).
  set (st1 := fold_left (step false) (rows table) (loop_start fs)) in *.
  destruct (checked_table_required _ _ C) as [Hne Hreq].
  assert (Hcsv : csv_file fs1
                 = if any_csv_updates st1
                   then write_csv_table (final_table table st1) else csv_file fs)
    by (rewrite Efs; reflexivity).
  assert (E21 : fs2 = fs1).
  { destruct fs2 as [c2 d2 m2], fs1 as [c1 d1 m1].
    cbn [csv_file puzzles_dir manifest_file] in *. subst d2 m2. f_equal.
    rewrite Hcsv, Erep in *. cbn [final_report rep_csv_updated rep_table] in Hcsv2.
    destruct (any_csv_updates st1); [|exact Hcsv2].
    destruct Hcsv2 as [Hd Hr]. destruct c2 as [dl recs].
    cbn [file_delimiter file_records] in Hd, Hr. subst dl recs. reflexivity. }
  subst fs2. clear Hdir2 Hman2 Hcsv2.
  assert (Hdir : puzzles_dir fs1 = Some (files st1)) by (rewrite Efs; reflexivity).
  assert (Hfiles : forall w, In w (map file_write (plans (rows table))) ->
                             mkdir (puzzles_dir fs1) !! fst w = Some (snd w)).
  { rewrite Hdir. cbn [mkdir]. apply first_run_files, Hnd. }
  assert (Hent : changes (manifest_entries (manifest_file fs1))
                         (map entry_write (plans (rows table))) = false).
  { rewrite Efs. apply first_run_entries, Hnd. }
  assert (Hman : exists d2, manifest_file fs1 = FileJson (JObj d2)).
  { rewrite Efs. unfold final_fs. cbn [manifest_file].
    destruct (negb false && any_manifest_updates st1); eauto. }
  destruct Hman as [d2 M2]. destruct (ensure_manifest_shape_dict d2) as (m2 & S2 & _).
  assert (Htab : exists table2 st2,
             checked_table (csv_file fs1) = Ok table2 /\
             run_rows false (loop_start fs1) (rows table2) = (st2, None) /\
             Forall2 settled (plans (rows table2)) (plans (rows table))).
  { rewrite Hcsv. destruct (any_csv_updates st1) eqn:U.
    - rewrite (checked_table_written table st1 Hne Hreq).
      assert (Hrows : table_rows st1 = map row_out (rows table))
        by (unfold st1; rewrite fold_table_rows; reflexivity).
      rewrite Hrows.
      destruct (run_rows_complete false (loop_start fs1)
                  (map (reread (with_content_hash (header table)))
                       (map row_out (rows table)))) as [st2 R2].
      { intros row Hrow. apply in_map_iff in Hrow as (r & <- & _). apply reread_rest. }
      eexists _, st2. split; [reflexivity|]. split; [exact R2|].
      cbn [rows]. apply plans_reread.
      + apply (checked_table_keys _ _ C).
      + apply Hreq. cbn. tauto.
      + apply Hreq. cbn. tauto.
      + apply (run_rows_no_fault _ _ _ _ R).
    - destruct (run_rows_completes_alike false false _ (loop_start fs1) _ _ R)
        as [st2 R2].
      exists table, st2. split; [exact C|]. split; [exact R2|].
      apply settled_refl. unfold st1 in U. rewrite fold_any_csv in U. exact U. }
  destruct Htab as (table2 & st2 & C2 & R2 & Hs).
  rewrite (generate_eq false now2 fs1 table2 d2 m2 C2 M2 S2), R2.
  apply run_rows_fold in R2. subst st2.
  destruct (second_run_loop fs1 (rows table2) _ Hs Hfiles Hent) as (F1 & F2 & F3 & F4).
  exists (final_report now2 table2 m2
            (fold_left (step false) (rows table2) (loop_start fs1))).
  split; [|split; [exact F4|split; [exact F2|exact F3]]].
  f_equal. unfold final_fs. rewrite F1, F2, F3. cbn [negb andb].
  apply (fs_with_dir _ _ Hdir).
Qed.

Lemma second_run_changes_nothing_witness :
  exists fs1 rep1 rep2,
    generate false Sample.now Sample.fresh = Done fs1 rep1 /\
    reads_as_written (csv_file fs1) (rep_table rep1) /\
    generate false Sample.later fs1 = Done fs1 rep2 /\
    rep_csv_updated rep2 = false /\ rep_manifest_updated rep2 = false.
Proof.
  assert (U : flag rep_csv_updated (generate false Sample.now Sample.fresh) = true)
    by (vm_compute; reflexivity).
  assert (W : match generate false Sample.now Sample.fresh with
              | Done fs1 rep1 => csv_file fs1 = write_csv_table (rep_table rep1)
              | Aborted _ _ => True
              end).
  { destruct (generate false Sample.now Sample.fresh) as [fs1 rep1|] eqn:G; [|exact I].
    apply generate_done in G as (table & d & m & _ & _ & _ & G).
    cbv zeta in G. destruct G as (_ & -> & ->). cbn [flag final_report rep_csv_updated] in U.
    unfold final_fs. cbn [csv_file final_report rep_table]. rewrite U. reflexivity. }
  destruct (generate false Sample.now Sample.fresh) as [fs1 rep1|e fs1] eqn:G;
    [|not_aborted G].
  cbn [flag] in U.
  assert (A : reads_as_written (csv_file fs1) (rep_table rep1))
    by (rewrite W; split; reflexivity).
  destruct (second_run_changes_nothing Sample.now Sample.later _ _ fs1 _ G
              sample_day_keys eq_refl eq_refl)
    as (rep2 & G2 & _ & U1 & U2).
  - rewrite U. exact A.
  - exists fs1, rep1, rep2. auto.
Defined.

(** Against C3 as stated.  Two rows with the same day key and different
    answers: each run upserts
    the entry of the first row over that of the second and back, so the
    second run reports the manifest as updated and stamps it anew. *)
Lemma second_run_updates_on_duplicates :
  ~ (forall now1 now2 fs fs1 rep1 fs2 rep2,
       generate false now1 fs = Done fs1 rep1 ->
       generate false now2 fs1 = Done fs2 rep2 ->
       rep_manifest_updated rep2 = false /\ fs2 = fs1).
Proof.
  intros H.
  assert (D : is_done (generate false Sample.now Sample.clash) = true)
    by (vm_compute; reflexivity).
  assert (U : flag rep_manifest_updated
                (generate false Sample.later
                   (fs_of (generate false Sample.now Sample.clash))) = true)
    by (vm_compute; reflexivity).
  destruct (generate false Sample.now Sample.clash) as [fs1 rep1|] eqn:G1;
    [|discriminate D].
  cbn [fs_of] in U.
  destruct (generate false Sample.later fs1) as [fs2 rep2|] eqn:G2;
    [|discriminate U].
  destruct (H _ _ _ _ _ _ _ G1 G2) as [E _]. cbn [flag] in U. congruence.
Qed.

(** ** Pieces of the canonical text *)

Lemma dumps_compact_strings l :
  map dumps_compact (map JStr l) = map json_string l.
Proof. rewrite map_map. reflexivity. Qed.

Lemma canonical_text_build row v :
  canonical_text (build_puzzle_object row v)
  = record_text (_split_comma_list (row_get row ANSWER_ALIASES_COL))
      (_strip_wrapping_quotes (row_get row ANSWER_CANONICAL_COL))
      (_strip_wrapping_quotes (row_get row CATEGORY_COL))
      (_strip_wrapping_quotes (row_get row DATEKEY_COL))
      (map dumps_compact (sorted_by_index (build_hints row 0 _hint_columns)))
      (_strip_wrapping_quotes (row_get row SOLUTION_EXPLANATION_COL))
      (_split_semicolon_list (row_get row TAGS_COL)).
Proof.
  unfold record_text. rewrite <- !dumps_compact_strings. reflexivity.
Qed.


(** ** The canonical text determines the record *)

Lemma unescape_escape c t : unescape (escape_char c ++ t) = Some (c, t).
Proof. destruct c as [[] [] [] [] [] [] [] []]; reflexivity. Qed.

Lemma escape_char_head c : head (escape_char c) <> Some dq /\ escape_char c <> [].
Proof. destruct c as [[] [] [] [] [] [] [] []]; split; discriminate. Qed.

Lemma escape_char_inj c1 c2 t1 t2 :
  escape_char c1 ++ t1 = escape_char c2 ++ t2 -> c1 = c2 /\ t1 = t2.
Proof.
  intros H. apply (f_equal unescape) in H. rewrite !unescape_escape in H.
  injection H as -> ->. auto.
Qed.

Lemma escaped_inj s1 s2 t1 t2 :
  flat_map escape_char s1 ++ dq :: t1 = flat_map escape_char s2 ++ dq :: t2 ->
  s1 = s2 /\ t1 = t2.
Proof.
  revert s2. induction s1 as [|c1 s1 IH]; intros [|c2 s2] H; cbn [flat_map] in H.
  - injection H as ->. auto.
  - exfalso. destruct (escape_char_head c2) as [Hh Hn].
    rewrite <- app_assoc in H. destruct (escape_char c2) as [|x e]; [contradiction|].
    injection H as <- _. apply Hh. reflexivity.
  - exfalso. destruct (escape_char_head c1) as [Hh Hn].
    rewrite <- app_assoc in H. destruct (escape_char c1) as [|x e]; [contradiction|].
    injection H as -> _. apply Hh. reflexivity.
  - rewrite <- !app_assoc in H. apply escape_char_inj in H as [-> H].
    apply IH in H as [-> ->]. auto.
Qed.

Lemma json_string_inj : prefix_inj json_string.
Proof.
  intros s1 s2 t1 t2 H. unfold json_string in H. cbn [app] in H.
  injection H as H. rewrite <- !app_assoc in H. cbn [app] in H.
  apply escaped_inj, H.
Qed.

Lemma json_string_head s : exists r, json_string s = dq :: r.
Proof. eexists. reflexivity. Qed.

Lemma join_cons sep x l t :
  join sep (x :: l) ++ t
  = x ++ match l with [] => t | _ :: _ => sep ++ join sep l ++ t end.
Proof.
  destruct l as [|y l]; [reflexivity|]. cbn [join].
  rewrite <- !app_assoc. reflexivity.
Qed.

Lemma array_items_inj {A} (E : A -> str) :
  prefix_inj E ->
  (forall x, exists c r, E x = c :: r /\ c <> "]"%char) ->
  forall l1 l2 t1 t2,
    join [","%char] (map E l1) ++ "]"%char :: t1
    = join [","%char] (map E l2) ++ "]"%char :: t2 ->
    l1 = l2 /\ t1 = t2.
Proof.
  intros Hinj Hhead. induction l1 as [|x l1 IH]; intros [|y l2] t1 t2 H;
    cbn [map] in H.
  - injection H as ->. auto.
  - exfalso. rewrite join_cons in H. destruct (Hhead y) as (c & r & E1 & Hc).
    rewrite E1 in H. injection H as <- _. apply Hc. reflexivity.
  - exfalso. rewrite join_cons in H. destruct (Hhead x) as (c & r & E1 & Hc).
    rewrite E1 in H. injection H as -> _. apply Hc. reflexivity.
  - rewrite !join_cons in H. apply Hinj in H as [-> H].
    destruct l1 as [|x1 l1], l2 as [|y1 l2]; cbn [map] in H.
    + injection H as ->. auto.
    + discriminate H.
    + discriminate H.
    + cbn [app] in H. injection H as H.
      apply (IH (y1 :: l2)) in H as [-> ->]. auto.
Qed.

Lemma array_text_inj {A} (E : A -> str) :
  prefix_inj E ->
  (forall x, exists c r, E x = c :: r /\ c <> "]"%char) ->
  prefix_inj (fun l => array_text (map E l)).
Proof.
  intros Hinj Hhead l1 l2 t1 t2 H. unfold array_text in H.
  cbn [app] in H. injection H as H. rewrite <- !app_assoc in H. cbn [app] in H.
  apply (array_items_inj E Hinj Hhead), H.
Qed.

Lemma strings_array_inj : prefix_inj (fun l => array_text (map json_string l)).
Proof.
  apply array_text_inj; [apply json_string_inj|].
  intros s. eexists _, _. split; [reflexivity|discriminate].
Qed.

Lemma utf8_decode_char c t : utf8_decode_one (utf8_char c ++ t) = Some (c, t).
Proof. destruct c as [[] [] [] [] [] [] [] []]; reflexivity. Qed.

Lemma utf8_encode_inj s1 s2 : utf8_encode s1 = utf8_encode s2 -> s1 = s2.
Proof.
  unfold utf8_encode. revert s2.
  induction s1 as [|c1 s1 IH]; intros [|c2 s2] H; cbn [flat_map] in H.
  - reflexivity.
  - apply (f_equal utf8_decode_one) in H. rewrite utf8_decode_char in H. discriminate.
  - apply (f_equal utf8_decode_one) in H. rewrite utf8_decode_char in H. discriminate.
  - apply (f_equal utf8_decode_one) in H. rewrite !utf8_decode_char in H.
    injection H as -> H. rewrite (IH _ H). reflexivity.
Qed.

Lemma build_hints_data row idx cols :
  build_hints row idx cols = map hint_of (hints_data row idx cols).
Proof.
  revert idx. induction cols as [|[hc ec] cols IH]; intros idx; [reflexivity|].
  cbn [build_hints hints_data]. destruct (is_empty _); rewrite IH; reflexivity.
Qed.

Lemma hint_index_obj idx text expl : hint_index (hint_obj idx text expl) = Z.of_nat idx.
Proof. unfold hint_obj. destruct (is_empty expl); reflexivity. Qed.

Lemma hints_data_from row idx cols :
  Forall (fun d => (idx <= fst (fst d))%nat) (hints_data row idx cols).
Proof.
  revert idx. induction cols as [|[hc ec] cols IH]; intros idx; [constructor|].
  cbn [hints_data].
  assert (H : Forall (fun d => (idx <= fst (fst d))%nat) (hints_data row (S idx) cols)).
  { eapply List.Forall_impl; [|apply IH]. intros d Hd. simpl in Hd. lia. }
  destruct (is_empty _); [exact H|]. constructor; [reflexivity|exact H].
Qed.

Lemma insert_by_index_least h l :
  Forall (fun h' => (hint_index h <= hint_index h')%Z) l -> insert_by_index h l = h :: l.
Proof.
  intros [|h' l' Hh _]; [reflexivity|]. cbn [insert_by_index].
  apply Z.leb_le in Hh. rewrite Hh. reflexivity.
Qed.

(** The hints of a built record are in index order already. *)
Lemma sorted_by_index_built row idx cols :
  sorted_by_index (build_hints row idx cols) = build_hints row idx cols.
Proof.
  rewrite build_hints_data. revert idx.
  induction cols as [|[hc ec] cols IH]; intros idx; [reflexivity|].
  cbn [hints_data]. destruct (is_empty _); [apply IH|].
  cbn [map]. unfold sorted_by_index in *. cbn [fold_right]. rewrite IH.
  apply insert_by_index_least. apply Forall_map.
  eapply List.Forall_impl; [|apply hints_data_from].
  intros d Hd. unfold hint_of. rewrite !hint_index_obj. cbn [fst snd] in *. lia.
Qed.

Lemma dumps_compact_hint d : dumps_compact (hint_of d) = hint_text d.
Proof.
  destruct d as [[idx text] expl]. unfold hint_of, hint_text, hint_obj.
  cbn [fst snd]. destruct (is_empty expl); reflexivity.
Qed.

#[local] Opaque json_string str_of_int.

Lemma cons_eq_inv {A} (a b : A) l1 l2 : a :: l1 = b :: l2 -> a = b /\ l1 = l2.
Proof. intros [= -> ->]. auto. Qed.

Ltac peel_char H := apply cons_eq_inv in H as [_ H].
Ltac peel_key H := apply app_inv_head in H; peel_char H.
Ltac flatten H := repeat (rewrite <- !app_assoc in H; cbn [app] in H).

Lemma hint_text_inj : prefix_inj hint_text.
Proof.
  intros [[i1 x1] e1] [[i2 x2] e2] t1 t2 H. unfold hint_text in H.
  cbn [fst snd] in H.
  destruct (is_empty e1) eqn:E1, (is_empty e2) eqn:E2; cbn [app join] in H;
    unfold member in H; peel_char H; flatten H.
  - apply is_empty_true in E1, E2. subst e1 e2.
    peel_key H. apply json_string_inj in H as [Hi H].
    peel_char Hi. apply str_of_int_inj in Hi.
    assert (i1 = i2) by lia. subst i2.
    peel_char H. peel_key H. apply app_inv_head in H. peel_char H. peel_key H.
    apply json_string_inj in H as [-> H]. peel_char H. auto.
  - apply json_string_inj in H as [H _]. discriminate H.
  - apply json_string_inj in H as [H _]. discriminate H.
  - peel_key H. apply json_string_inj in H as [-> H]. peel_char H.
    peel_key H. apply json_string_inj in H as [Hi H].
    peel_char Hi. apply str_of_int_inj in Hi.
    assert (i1 = i2) by lia. subst i2.
    peel_char H. peel_key H. apply app_inv_head in H. peel_char H. peel_key H.
    apply json_string_inj in H as [-> H]. peel_char H. auto.
Qed.

Lemma hints_array_inj : prefix_inj (fun l => array_text (map hint_text l)).
Proof.
  apply array_text_inj; [apply hint_text_inj|].
  intros d. eexists _, _. split; [reflexivity|discriminate].
Qed.

Lemma record_text_inj a1 c1 g1 d1 h1 s1 t1 a2 c2 g2 d2 h2 s2 t2 :
  record_text a1 c1 g1 d1 (map hint_text h1) s1 t1
  = record_text a2 c2 g2 d2 (map hint_text h2) s2 t2 ->
  a1 = a2 /\ c1 = c2 /\ g1 = g2 /\ d1 = d2 /\ h1 = h2 /\ s1 = s2 /\ t1 = t2.
Proof.
  unfold record_text, member. cbn [join]. intros H. peel_char H. flatten H.
  peel_key H. apply strings_array_inj in H as [-> H]. peel_char H.
  peel_key H. apply json_string_inj in H as [-> H]. peel_char H.
  peel_key H. apply json_string_inj in H as [-> H]. peel_char H.
  peel_key H. apply json_string_inj in H as [-> H]. peel_char H.
  peel_key H. apply hints_array_inj in H as [-> H]. peel_char H.
  peel_key H. apply json_string_inj in H as [_ H]. peel_char H.
  peel_key H. apply json_string_inj in H as [-> H]. peel_char H.
  peel_key H. apply strings_array_inj in H as [-> H].
  auto 10.
Qed.

#[local] Transparent json_string str_of_int.

Lemma canonical_text_data row v :
  canonical_text (build_puzzle_object row v)
  = record_text (_split_comma_list (row_get row ANSWER_ALIASES_COL))
      (_strip_wrapping_quotes (row_get row ANSWER_CANONICAL_COL))
      (_strip_wrapping_quotes (row_get row CATEGORY_COL))
      (_strip_wrapping_quotes (row_get row DATEKEY_COL))
      (map hint_text (hints_data row 0 _hint_columns))
      (_strip_wrapping_quotes (row_get row SOLUTION_EXPLANATION_COL))
      (_split_semicolon_list (row_get row TAGS_COL)).
Proof.
  rewrite canonical_text_build, sorted_by_index_built, build_hints_data, map_map.
  rewrite (map_ext _ _ dumps_compact_hint). reflexivity.
Qed.

Lemma dict_pop_build row v :
  dict_pop (build_puzzle_object row v) (lit "version")
  = [(lit "id", JStr (_strip_wrapping_quotes (row_get row DATEKEY_COL)));
     (lit "dateKey", JStr (_strip_wrapping_quotes (row_get row DATEKEY_COL)));
     (lit "category", JStr (_strip_wrapping_quotes (row_get row CATEGORY_COL)));
     (lit "tags", JArr (map JStr (_split_semicolon_list (row_get row TAGS_COL))));
     (lit "answerCanonical",
      JStr (_strip_wrapping_quotes (row_get row ANSWER_CANONICAL_COL)));
     (lit "answerAliases",
      JArr (map JStr (_split_comma_list (row_get row ANSWER_ALIASES_COL))));
     (lit "hints", JArr (map hint_of (hints_data row 0 _hint_columns)));
     (lit "solutionExplanation",
      JStr (_strip_wrapping_quotes (row_get row SOLUTION_EXPLANATION_COL)))].
Proof. rewrite <- build_hints_data. reflexivity. Qed.

(** Records with one canonical text are the same but for the version. *)
Lemma canonical_text_inj r1 r2 v1 v2 :
  canonical_text (build_puzzle_object r1 v1)
  = canonical_text (build_puzzle_object r2 v2) ->
  dict_pop (build_puzzle_object r1 v1) (lit "version")
  = dict_pop (build_puzzle_object r2 v2) (lit "version").
Proof.
  rewrite !canonical_text_data, !dict_pop_build. intros H.
  apply record_text_inj in H as (-> & -> & -> & -> & -> & -> & ->). reflexivity.
Qed.

Lemma dict_get_pop_ne {V} (d : dict V) k k' :
  k <> k' -> dict_get (dict_pop d k') k = dict_get d k.
Proof.
  intros H. induction d as [|[k0 v0] d IH]; [reflexivity|]. cbn [dict_pop dict_get].
  destruct (str_eqb k0 k') eqn:E.
  - apply str_eqb_eq in E. subst k0.
    replace (str_eqb k' k) with false by (symmetry; apply str_eqb_neq; congruence).
    reflexivity.
  - cbn [dict_get]. rewrite IH. reflexivity.
Qed.

Lemma content_fields_not_version k : In k content_fields -> k <> lit "version".
Proof. intros H ->. vm_compute in H. intuition discriminate. Qed.

Lemma canonical_text_pop p q :
  dict_pop p (lit "version") = dict_pop q (lit "version") ->
  canonical_text p = canonical_text q.
Proof. intros H. unfold canonical_text. rewrite H. reflexivity. Qed.

(** C1, as the code has it.  Two built records that differ in the version
    only have the same content hash.  Two built records that differ in one
    of the other fields have different canonical texts, and different bytes
    go into SHA-256; their content hashes are then equal only if SHA-256
    collides on these two byte strings. *)
Theorem content_hash_covers_record (r1 r2 : Row) (v1 v2 : Z) :
  let p := build_puzzle_object r1 v1 in
  let q := build_puzzle_object r2 v2 in
  (dict_pop p (lit "version") = dict_pop q (lit "version") ->
   compute_content_hash p = compute_content_hash q) /\
  (forall k, In k content_fields -> dict_get p k <> dict_get q k ->
     utf8_encode (canonical_text p) <> utf8_encode (canonical_text q) /\
     (compute_content_hash p = compute_content_hash q ->
      sha256_collision (utf8_encode (canonical_text p))
                       (utf8_encode (canonical_text q)))).
Proof.
  intros p q. split.
  - intros H. unfold compute_content_hash. rewrite (canonical_text_pop p q H).
    reflexivity.
  - intros k Hk Hd.
    assert (Hb : utf8_encode (canonical_text p) <> utf8_encode (canonical_text q)).
    { intros E. apply utf8_encode_inj, canonical_text_inj in E. apply Hd.
      pose proof (content_fields_not_version k Hk) as Hv.
      rewrite <- (dict_get_pop_ne p k (lit "version") Hv).
      rewrite <- (dict_get_pop_ne q k (lit "version") Hv).
      unfold p, q. rewrite E. reflexivity. }
    split; [exact Hb|]. intros Hh. split; [exact Hb|exact Hh].
Qed.

(** ** Digests are 256 bits *)

Lemma add32_lt x y : (SHA256.add32 x y < 4294967296)%N.
Proof. unfold SHA256.add32, SHA256.w32. apply N.mod_lt. discriminate. Qed.

Lemma compress_words32 h block : words32 (SHA256.compress h block).
Proof.
  unfold SHA256.compress, words32.
  cbn [SHA256.sa SHA256.sb SHA256.sc SHA256.sd SHA256.se SHA256.sf SHA256.sg SHA256.sh].
  repeat split; apply add32_lt.
Qed.

Lemma digest_words32 msg : words32 (SHA256.digest msg).
Proof.
  unfold SHA256.digest. generalize (SHA256.blocks (List.length (SHA256.words (SHA256.pad msg)))
                                       (SHA256.words (SHA256.pad msg))).
  intros bl. assert (H0 : words32 SHA256.H0) by (repeat split; reflexivity).
  revert H0. generalize SHA256.H0. induction bl as [|b bl IH]; intros h Hh; [exact Hh|].
  cbn [fold_left]. apply IH, compress_words32.
Qed.

Lemma digest_num_bound s : words32 s -> (SHA256.digest_num s < 2 ^ 256)%N.
Proof.
  unfold words32, SHA256.digest_num. intros (Ha & Hb & Hc & Hd & He & Hf & Hg & Hh).
  change (2 ^ 256)%N
    with (4294967296 * (4294967296 * (4294967296 * (4294967296 * (4294967296
          * (4294967296 * (4294967296 * 4294967296)))))))%N.
  lia.
Qed.

Lemma bounded_search (P : N -> bool) (M : N) :
  (exists i, (i <= M)%N /\ P i = true) \/ (forall i, (i <= M)%N -> P i = false).
Proof.
  induction M as [|M IH] using N.peano_ind.
  - destruct (P 0%N) eqn:E.
    + left. exists 0%N. split; [lia|exact E].
    + right. intros i Hi. assert (i = 0%N) by lia. subst. exact E.
  - destruct IH as [(i & Hi & E)|IH].
    + left. exists i. split; [lia|exact E].
    + destruct (P (N.succ M)) eqn:E.
      * left. exists (N.succ M). split; [lia|exact E].
      * right. intros i Hi. destruct (N.eq_dec i (N.succ M)) as [->|Hne]; [exact E|].
        apply IH. lia.
Qed.

(** More values than places: two of them share a place. *)
Lemma pigeonhole (M : N) :
  forall f : N -> N,
    (forall i, (i <= M)%N -> (f i < M)%N) ->
    exists i j, (i < j <= M)%N /\ f i = f j.
Proof.
  induction M as [|M IH] using N.peano_ind; intros f Hf.
  - specialize (Hf 0%N). lia.
  - destruct (bounded_search (fun i => N.eqb (f i) (f (N.succ M))) M)
      as [(i & Hi & E)|Hno].
    + apply N.eqb_eq in E. exists i, (N.succ M). split; [lia|exact E].
    + set (v := f (N.succ M)).
      assert (Hv : (v < N.succ M)%N) by (apply Hf; lia).
      destruct (IH (fun i => if (f i <? v)%N then f i else (f i - 1)%N))
        as (i & j & Hij & E).
      * intros i Hi. pose proof (Hf i ltac:(lia)) as Hfi.
        pose proof (Hno i Hi) as Hne. apply N.eqb_neq in Hne. fold v in Hne.
        destruct (N.ltb_spec (f i) v); lia.
      * exists i, j. split; [lia|].
        pose proof (Hno i ltac:(lia)) as Hi. pose proof (Hno j ltac:(lia)) as Hj.
        apply N.eqb_neq in Hi, Hj. fold v in Hi, Hj. cbv beta in E.
        destruct (N.ltb_spec (f i) v), (N.ltb_spec (f j) v); lia.
Qed.

Lemma bits_text_inj i j :
  (i < 2 ^ 257)%N -> (j < 2 ^ 257)%N -> bits_text i = bits_text j -> i = j.
Proof.
  intros Hi Hj E. apply N.bits_inj. intros n.
  destruct (N.lt_ge_cases n 257) as [Hn|Hn].
  - unfold bits_text in E. rewrite List.map_ext_in_iff in E.
    specialize (E (N.to_nat n)). rewrite N2Nat.id in E.
    assert (Hin : In (N.to_nat n) (seq 0 257)) by (apply in_seq; lia).
    specialize (E Hin).
    destruct (N.testbit i n), (N.testbit j n); try reflexivity; discriminate.
  - assert (A : forall a, (a < 2 ^ 257)%N -> N.testbit a n = false).
    { intros a Ha. destruct (N.eq_dec a 0%N) as [->|Hz]; [apply N.bits_0|].
      apply N.bits_above_log2. apply N.lt_le_trans with 257%N; [|exact Hn].
      apply N.log2_lt_pow2; lia. }
    rewrite (A i Hi), (A j Hj). reflexivity.
Qed.

Lemma plain_bits_text i : plain (bits_text i).
Proof.
  apply List.Forall_forall. intros c Hc. apply in_map_iff in Hc as (k & <- & _).
  destruct (N.testbit i (N.of_nat k)); reflexivity.
Qed.

Lemma category_row_field i v :
  dict_get (build_puzzle_object (category_row i) v) (lit "category")
  = Some (JStr (bits_text i)).
Proof.
  change (dict_get (build_puzzle_object (category_row i) v) (lit "category"))
    with (Some (JStr (_strip_wrapping_quotes (bits_text i)))).
  rewrite strip_wrapping_quotes_plain by apply plain_bits_text. reflexivity.
Qed.

(** Against C1 as stated.  A difference in a field does not always change
    the hash: among the 2^256 + 1 records whose category is the numeral of
    0, 1, ..., 2^256 in 257 binary digits, two have the same digest. *)
Lemma content_hash_not_injective :
  ~ (forall r1 r2 v1 v2 k,
       In k content_fields ->
       dict_get (build_puzzle_object r1 v1) k <> dict_get (build_puzzle_object r2 v2) k ->
       compute_content_hash (build_puzzle_object r1 v1)
       <> compute_content_hash (build_puzzle_object r2 v2)).
Proof.
  intros H.
  pose (f := fun i => SHA256.digest_num
                        (SHA256.digest
                           (utf8_encode
                              (canonical_text (build_puzzle_object (category_row i) 1))))).
  destruct (pigeonhole (2 ^ 256) f) as (i & j & Hij & E).
  { intros i _. apply digest_num_bound, digest_words32. }
  assert (Hp : (2 ^ 256 < 2 ^ 257)%N) by (apply N.pow_lt_mono_r; lia).
  apply (H (category_row i) (category_row j) 1%Z 1%Z (lit "category")).
  - cbn. tauto.
  - rewrite !category_row_field. intros Hr.
    apply (f_equal (fun o => match o with Some (JStr x) => x | _ => [] end)) in Hr.
    cbv beta iota in Hr. apply bits_text_inj in Hr; lia.
  - unfold compute_content_hash, _sha256_text, SHA256.hexdigest.
    fold (f i) (f j). rewrite E. reflexivity.
Qed.

Lemma content_hash_covers_record_witness :
  utf8_encode (canonical_text
                 (build_puzzle_object (dict_reader_row Sample.columns Sample.paris) 1))
  <> utf8_encode (canonical_text
                    (build_puzzle_object (dict_reader_row Sample.columns Sample.lutece) 1)).
Proof.
  destruct (content_hash_covers_record
              (dict_reader_row Sample.columns Sample.paris)
              (dict_reader_row Sample.columns Sample.lutece) 1 1) as [_ H].
  refine (proj1 (H (lit "answerCanonical") _ _)).
  - cbn. tauto.
  - vm_compute. discriminate.
Defined.

(** ** Numbers at the limit of digits *)









(** ** Version reconciliation of one row *)








(** ** The theorems at work on samples *)

Lemma strip_wrapping_quotes_cases_witness :
  _strip_wrapping_quotes (lit " 'abc' ") = strip (lit "abc") /\
  _strip_wrapping_quotes (lit "It is.'") = rstrip (lit "It is.") /\
  _strip_wrapping_quotes (lit "'tis") = lstrip (lit "tis") /\
  _strip_wrapping_quotes (lit "don't'") = lit "don't'".
Proof.
  split; [|split; [|split]].
  - destruct (strip_wrapping_quotes_cases (lit " 'abc' ")) as (H & _).
    apply (H sq (lit "abc")); [reflexivity|right; reflexivity].
  - destruct (strip_wrapping_quotes_cases (lit "It is.'")) as (_ & H & _).
    apply (H (lit "It is.")); [reflexivity|discriminate|].
    left. exists (lit "It is"), "."%char. split; [reflexivity|left; reflexivity].
  - destruct (strip_wrapping_quotes_cases (lit "'tis")) as (_ & _ & H & _).
    apply (H (lit "tis")); [reflexivity|discriminate|reflexivity].
  - destruct (strip_wrapping_quotes_cases (lit "don't'")) as (_ & _ & _ & H).
    apply H.
    + intros q body E Hq. change (strip (lit "don't'")) with (lit "don't'") in E.
      injection E as <- _. destruct Hq; discriminate.
    + intros (_ & _ & [(body & p & E & Hp)|C]); [|discriminate C].
      change (strip (lit "don't'")) with (lit "don" ++ ["'"%char; "t"%char; sq]) in E.
      apply (f_equal (@rev ascii)) in E. rewrite !rev_app_distr in E.
      cbn [rev app] in E. injection E as <- _.
      destruct Hp as [Hp|[Hp|Hp]]; discriminate.
    + intros (Hh & _). discriminate Hh.
Defined.

(** * Further properties *)

(** ** Texts without white space at their ends *)

Lemma lstrip_app_nonspace s c :
  isspace c = false -> lstrip (s ++ [c]) = lstrip s ++ [c].
Proof.
  intros H. induction s as [|x s IH]; cbn [app lstrip].
  - rewrite H. reflexivity.
  - destruct (isspace x); [exact IH|reflexivity].
Qed.

Lemma rstrip_cons_nonspace c s :
  isspace c = false -> rstrip (c :: s) = c :: rstrip s.
Proof.
  intros H. unfold rstrip. cbn [rev]. rewrite lstrip_app_nonspace by exact H.
  rewrite rev_app_distr. reflexivity.
Qed.

Lemma rev_rstrip s : rev (rstrip s) = lstrip (rev s).
Proof. unfold rstrip. apply rev_involutive. Qed.

Lemma rev_lstrip s : rev (lstrip s) = rstrip (rev s).
Proof. unfold rstrip. rewrite rev_involutive. reflexivity. Qed.

Lemma edge_ok_lstrip s : edge_ok (lstrip s).
Proof.
  induction s as [|c s IH]; cbn [lstrip]; [exact I|].
  destruct (isspace c) eqn:E; [exact IH|exact E].
Qed.

Lemma edge_ok_rstrip s : edge_ok s -> edge_ok (rstrip s).
Proof.
  destruct s as [|c s]; [intros _; exact I|]. cbn [edge_ok]. intros H.
  rewrite rstrip_cons_nonspace by exact H. exact H.
Qed.

Lemma lstrip_edge_ok s : edge_ok s -> lstrip s = s.
Proof. destruct s as [|c s]; [reflexivity|]. cbn. intros ->. reflexivity. Qed.

Lemma rstrip_edge_ok s : edge_ok (rev s) -> rstrip s = s.
Proof. intros H. unfold rstrip. rewrite lstrip_edge_ok by exact H. apply rev_involutive. Qed.

Lemma trimmed_lstrip s : edge_ok (rev s) -> trimmed (lstrip s).
Proof.
  intros H. split; [apply edge_ok_lstrip|].
  rewrite rev_lstrip. apply edge_ok_rstrip, H.
Qed.

Lemma trimmed_rstrip s : edge_ok s -> trimmed (rstrip s).
Proof.
  intros H. split; [apply edge_ok_rstrip, H|].
  rewrite rev_rstrip. apply edge_ok_lstrip.
Qed.

Lemma trimmed_strip s : trimmed (strip s).
Proof. apply trimmed_rstrip, edge_ok_lstrip. Qed.

Lemma strip_trimmed s : trimmed s -> strip s = s.
Proof.
  intros [H1 H2]. unfold strip. rewrite lstrip_edge_ok by exact H1.
  apply rstrip_edge_ok, H2.
Qed.

Lemma edge_ok_removelast s : edge_ok s -> edge_ok (removelast s).
Proof.
  destruct s as [|c [|d s]]; cbn; auto.
Qed.

Lemma rev_tl {A} (s : list A) : rev (tl s) = removelast (rev s).
Proof.
  destruct s as [|c s]; [reflexivity|]. cbn [tl rev].
  rewrite removelast_last. reflexivity.
Qed.

Lemma edge_ok_rev_tl s : edge_ok (rev s) -> edge_ok (rev (tl s)).
Proof. intros H. rewrite rev_tl. apply edge_ok_removelast, H. Qed.

Lemma strip_wrapping_quotes_trimmed text : trimmed (_strip_wrapping_quotes text).
Proof.
  unfold _strip_wrapping_quotes. cbv zeta.
  pose proof (trimmed_strip text) as T. set (s := strip text) in *. clearbody s.
  destruct (wrapped_in_quotes s); [apply trimmed_strip|].
  assert (T1 : trimmed
    (if endswith_char sq s && negb (startswith_char sq s)
     then if (2 <=? List.length s)%nat
             && match second_last s with
                | Some c => is_terminal_punct c
                | None => false
                end
          then rstrip (removelast s)
          else if (count_char sq s =? 1)%nat then rstrip (removelast s) else s
     else s)).
  { destruct T as [Ta Tb].
    destruct (_ && negb _); [|split; assumption].
    destruct (_ && _); [apply trimmed_rstrip, edge_ok_removelast, Ta|].
    destruct (_ =? _)%nat; [apply trimmed_rstrip, edge_ok_removelast, Ta|split; assumption]. }
  set (s1 := if endswith_char sq s && negb (startswith_char sq s) then _ else _) in *.
  clearbody s1. destruct T1 as [Ta Tb].
  destruct (_ && negb _); [|split; assumption].
  destruct (_ =? _)%nat; [|split; assumption].
  apply trimmed_lstrip, edge_ok_rev_tl, Tb.
Qed.

(** X1. What [_strip_wrapping_quotes] returns never begins or ends with
    white space: stripping it again changes nothing. *)
Theorem strip_wrapping_quotes_no_edge_space (text : str) :
  strip (_strip_wrapping_quotes text) = _strip_wrapping_quotes text /\
  (forall c rest, _strip_wrapping_quotes text = c :: rest -> isspace c = false) /\
  (forall body c, _strip_wrapping_quotes text = body ++ [c] -> isspace c = false).
Proof.
  pose proof (strip_wrapping_quotes_trimmed text) as T.
  split; [apply strip_trimmed, T|]. destruct T as [Ta Tb]. split.
  - intros c r E. rewrite E in Ta. exact Ta.
  - intros body c E. rewrite E, rev_app_distr in Tb. exact Tb.
Qed.

Lemma strip_wrapping_quotes_no_edge_space_witness :
  isspace "I"%char = false /\ isspace "."%char = false.
Proof.
  destruct (strip_wrapping_quotes_no_edge_space (lit " It is.' ")) as (_ & H1 & H2).
  split; [apply (H1 _ (lit "t is."))|apply (H2 (lit "It is"))]; reflexivity.
Defined.

(** ** Lists in a field *)

Lemma split_char_nonempty c s : split_char c s <> [].
Proof.
  destruct s as [|x s]; cbn [split_char]; [discriminate|].
  destruct (Ascii.eqb x c); [discriminate|]. destruct (split_char c s); discriminate.
Qed.

Lemma split_char_no_sep c s : Forall (fun p => ~ In c p) (split_char c s).
Proof.
  induction s as [|x s IH]; cbn [split_char].
  - constructor; [intros []|constructor].
  - destruct (Ascii.eqb x c) eqn:E.
    + constructor; [intros []|exact IH].
    + destruct (split_char c s) as [|p ps]; [constructor; [|constructor]|].
      * intros [->|[]]. rewrite Ascii.eqb_refl in E. discriminate.
      * inversion IH as [|? ? Hp Hps]; subst. constructor; [|exact Hps].
        intros [->|H]; [rewrite Ascii.eqb_refl in E; discriminate|auto].
Qed.

Lemma join_split_char c s : join [c] (split_char c s) = s.
Proof.
  induction s as [|x s IH]; [reflexivity|]. cbn [split_char].
  destruct (Ascii.eqb x c) eqn:E.
  - apply Ascii.eqb_eq in E. subst x. cbn [join].
    pose proof (split_char_nonempty c s) as N.
    destruct (split_char c s) as [|p ps]; [contradiction|].
    cbn [app]. rewrite IH. reflexivity.
  - pose proof (split_char_nonempty c s) as N.
    destruct (split_char c s) as [|p ps]; [contradiction|].
    cbn [join] in *. destruct ps; cbn [app]; rewrite <- IH; reflexivity.
Qed.

Lemma split_char_join c l :
  l <> [] -> Forall (fun p => ~ In c p) l -> split_char c (join [c] l) = l.
Proof.
  induction l as [|p l IH]; [contradiction|]. intros _ H.
  inversion H as [|? ? Hp Hl]; subst.
  destruct l as [|q l].
  - cbn [join]. clear IH H Hl. induction p as [|x p IHp]; [reflexivity|].
    cbn [split_char]. destruct (Ascii.eqb x c) eqn:E.
    + apply Ascii.eqb_eq in E. subst x. exfalso. apply Hp. left. reflexivity.
    + rewrite IHp; [reflexivity|]. intros Hin. apply Hp. right. exact Hin.
  - specialize (IH ltac:(discriminate) Hl).
    change (join [c] (p :: q :: l)) with (p ++ [c] ++ join [c] (q :: l)).
    clear H. induction p as [|x p IHp].
    + cbn [app split_char]. rewrite Ascii.eqb_refl, IH. reflexivity.
    + cbn [app split_char]. destruct (Ascii.eqb x c) eqn:E.
      * apply Ascii.eqb_eq in E. subst x. exfalso. apply Hp. left. reflexivity.
      * cbn [app] in IHp. rewrite IHp; [reflexivity|].
        intros Hin. apply Hp. right. exact Hin.
Qed.

Lemma in_lstrip c s : In c (lstrip s) -> In c s.
Proof.
  destruct (lstrip_suffix s) as [t E]. intros H. rewrite E. apply in_or_app. right. exact H.
Qed.

Lemma in_rstrip c s : In c (rstrip s) -> In c s.
Proof.
  destruct (rstrip_prefix s) as [t E]. intros H. rewrite E. apply in_or_app. left. exact H.
Qed.

Lemma in_strip c s : In c (strip s) -> In c s.
Proof. intros H. apply in_lstrip, in_rstrip, H. Qed.

Lemma split_list_entries c text p :
  In p (split_list c text) -> p <> [] /\ strip p = p /\ ~ In c p.
Proof.
  unfold split_list. cbv zeta. destruct (is_empty _); [intros []|].
  intros H. apply List.filter_In in H as [H N].
  apply in_map_iff in H as (q & <- & Hq).
  split; [apply is_empty_false, negb_true_iff, N|].
  split; [apply strip_trimmed, trimmed_strip|].
  intros Hc. apply in_strip in Hc.
  pose proof (split_char_no_sep c (_strip_wrapping_quotes text)) as F.
  rewrite List.Forall_forall in F. exact (F q Hq Hc).
Qed.

(** X2. Every entry of [_split_semicolon_list] and of [_split_comma_list]
    is non-empty, has no white space at either end and does not hold the
    separator; a blank text has no entries. *)
Theorem split_lists_entries (text p : str) :
  (In p (_split_semicolon_list text) ->
   p <> [] /\ strip p = p /\ ~ In ";"%char p) /\
  (In p (_split_comma_list text) ->
   p <> [] /\ strip p = p /\ ~ In ","%char p) /\
  (strip text = [] ->
   _split_semicolon_list text = [] /\ _split_comma_list text = []).
Proof.
  split; [apply (split_list_entries ";"%char)|].
  split; [apply (split_list_entries ","%char)|].
  intros H. unfold _split_semicolon_list, _split_comma_list.
  rewrite (strip_wrapping_quotes_blank _ H). auto.
Qed.

Lemma split_lists_entries_witness :
  _split_semicolon_list (lit " a ;; b;") = [lit "a"; lit "b"] /\
  ~ In ";"%char (lit "b").
Proof.
  split; [reflexivity|].
  destruct (split_lists_entries (lit " a ;; b;") (lit "b")) as (H & _).
  apply H. right. left. reflexivity.
Defined.

Lemma plain_join c l :
  plain_char c = true -> Forall plain l -> plain (join [c] l).
Proof.
  intros Hc. induction l as [|p l IH]; intros H; [constructor|].
  inversion H as [|? ? Hp Hl]; subst. destruct l as [|q l]; [exact Hp|].
  change (join [c] (p :: q :: l)) with (p ++ [c] ++ join [c] (q :: l)).
  apply Forall_app. split; [exact Hp|]. apply Forall_app. split; [|apply IH, Hl].
  constructor; [exact Hc|constructor].
Qed.

Lemma join_nonempty c (l : list str) : l <> [] -> Forall (fun p => p <> []) l -> join [c] l <> [].
Proof.
  destruct l as [|p l]; [contradiction|]. intros _ H.
  inversion H as [|? ? Hp _]; subst. destruct l; cbn [join]; [exact Hp|].
  destruct p; [contradiction|discriminate].
Qed.

Ltac weaken H :=
  let a := fresh in let Ha := fresh in
  apply List.Forall_forall; intros a Ha;
  apply (proj1 (List.Forall_forall _ _) H) in Ha; cbv beta in Ha; tauto.

Lemma split_list_join c l :
  plain_char c = true -> l <> [] ->
  Forall (fun p => plain p /\ p <> [] /\ ~ In c p) l ->
  split_list c (join [c] l) = l.
Proof.
  intros Hc Hn H. unfold split_list. cbv zeta.
  assert (Hp : Forall plain l) by (weaken H).
  assert (He : Forall (fun p => p <> []) l) by (weaken H).
  assert (Hs : Forall (fun p => ~ In c p) l) by (weaken H).
  rewrite strip_wrapping_quotes_plain by (apply plain_join; assumption).
  destruct (is_empty (join [c] l)) eqn:E.
  { apply is_empty_true in E. exfalso. exact (join_nonempty c l Hn He E). }
  rewrite split_char_join by assumption.
  clear Hn E Hs H. induction l as [|p l IH]; [reflexivity|].
  inversion Hp; inversion He; subst. cbn [map List.filter].
  rewrite strip_plain by assumption.
  destruct p; [contradiction|]. cbn [is_empty negb]. f_equal. apply IH; assumption.
Qed.

(** X3. Joining and splitting.  Entries that are non-empty and hold no
    white space, quote, semicolon or comma, joined by the separator, are
    split back into the same entries, in the same order. *)
Theorem split_lists_round_trip (l : list str) :
  l <> [] ->
  Forall (fun p => plain p /\ p <> [] /\ ~ In ";"%char p /\ ~ In ","%char p) l ->
  _split_semicolon_list (join [";"%char] l) = l /\
  _split_comma_list (join [","%char] l) = l.
Proof.
  intros Hn H. split.
  - apply (split_list_join ";"%char); [reflexivity|exact Hn|].
    weaken H.
  - apply (split_list_join ","%char); [reflexivity|exact Hn|].
    weaken H.
Qed.

Lemma split_lists_round_trip_witness :
  _split_semicolon_list (lit "a;bc;d") = [lit "a"; lit "bc"; lit "d"] /\
  _split_comma_list (lit "a,bc,d") = [lit "a"; lit "bc"; lit "d"].
Proof.
  apply (split_lists_round_trip [lit "a"; lit "bc"; lit "d"]); [discriminate|].
  repeat constructor; try discriminate; cbn; intuition discriminate.
Defined.

(** ** White space and quotes around a text *)

Lemma lstrip_white ws s : white ws -> lstrip (ws ++ s) = lstrip s.
Proof.
  induction 1 as [|c ws Hc _ IH]; [reflexivity|]. cbn [app lstrip]. rewrite Hc. exact IH.
Qed.

Lemma lstrip_all_white ws : white ws -> lstrip ws = [].
Proof. intros H. rewrite <- (app_nil_r ws). apply (lstrip_white ws [] H). Qed.

Lemma rstrip_white s ws : white ws -> rstrip (s ++ ws) = rstrip s.
Proof.
  intros H. unfold rstrip. rewrite rev_app_distr, lstrip_white; [reflexivity|].
  apply Forall_rev, H.
Qed.

Lemma lstrip_app s t :
  lstrip (s ++ t) = match lstrip s with [] => lstrip t | _ :: _ => lstrip s ++ t end.
Proof.
  induction s as [|c s IH]; [reflexivity|]. cbn [app lstrip].
  destruct (isspace c); [exact IH|reflexivity].
Qed.

Lemma strip_pad ws1 s ws2 :
  white ws1 -> white ws2 -> strip (ws1 ++ s ++ ws2) = strip s.
Proof.
  intros H1 H2. unfold strip. rewrite lstrip_white by exact H1. rewrite lstrip_app.
  destruct (lstrip s) as [|c r].
  - rewrite lstrip_all_white by exact H2. reflexivity.
  - apply rstrip_white, H2.
Qed.

Lemma strip_wrapping_quotes_pad ws1 text ws2 :
  white ws1 -> white ws2 ->
  _strip_wrapping_quotes (ws1 ++ text ++ ws2) = _strip_wrapping_quotes text.
Proof.
  intros H1 H2. unfold _strip_wrapping_quotes. rewrite strip_pad by assumption.
  reflexivity.
Qed.

Lemma strip_wrapping_quotes_quoted q body :
  q = dq \/ q = sq -> _strip_wrapping_quotes (q :: body ++ [q]) = strip body.
Proof.
  intros Hq. unfold _strip_wrapping_quotes.
  assert (S : strip (q :: body ++ [q]) = q :: body ++ [q]).
  { apply strip_trimmed. split.
    - destruct Hq as [-> | ->]; reflexivity.
    - change (q :: body ++ [q]) with ((q :: body) ++ [q]). rewrite rev_app_distr.
      destruct Hq as [-> | ->]; reflexivity. }
  rewrite S.
  assert (W : wrapped_in_quotes (q :: body ++ [q]) = true)
    by (apply wrapped_in_quotes_true; eauto).
  rewrite W. cbn [tl]. rewrite removelast_last. reflexivity.
Qed.

(** X4. [_strip_wrapping_quotes] sees its text through the trimmed text
    only: white space around the text changes nothing.  A text without white
    space or quotes comes back as it is, also when it stands in a pair of
    double or of single quotes. *)
Theorem strip_wrapping_quotes_unwraps (ws1 ws2 text p : str) (q : ascii) :
  white ws1 -> white ws2 ->
  (_strip_wrapping_quotes (ws1 ++ text ++ ws2) = _strip_wrapping_quotes text) /\
  (q = dq \/ q = sq -> plain p ->
   _strip_wrapping_quotes (ws1 ++ (q :: p ++ [q]) ++ ws2) = p /\
   _strip_wrapping_quotes (ws1 ++ p ++ ws2) = p).
Proof.
  intros H1 H2. split; [apply strip_wrapping_quotes_pad; assumption|].
  intros Hq Hp. rewrite !strip_wrapping_quotes_pad by assumption.
  rewrite strip_wrapping_quotes_quoted by exact Hq.
  rewrite strip_plain by exact Hp.
  rewrite strip_wrapping_quotes_plain by exact Hp. auto.
Qed.

Lemma strip_wrapping_quotes_unwraps_witness :
  _strip_wrapping_quotes (lit "  " ++ (dq :: lit "geo" ++ [dq]) ++ [TAB]) = lit "geo".
Proof.
  destruct (strip_wrapping_quotes_unwraps (lit "  ") [TAB] [] (lit "geo") dq) as [_ H].
  - repeat constructor.
  - repeat constructor.
  - apply H; [left; reflexivity|repeat constructor].
Defined.

(** X5. [_parse_int] reads back what [str] prints: the decimal text of
    an integer that [str] prints, one of at most 4300 digits, is parsed to
    that integer, whatever the default, bare or in a pair of quotes, with or
    without white space around it; white space alone gives the default. *)
Theorem parse_int_reads_back (n default : Z) (s ws1 ws2 : str) (q : ascii) :
  str_checked n = Some s ->
  white ws1 -> white ws2 -> q = dq \/ q = sq ->
  _parse_int (ws1 ++ s ++ ws2) default = n /\
  _parse_int (ws1 ++ (q :: s ++ [q]) ++ ws2) default = n /\
  _parse_int (ws1 ++ ws2) default = default.
Proof.
  intros Hs H1 H2 Hq. unfold str_checked in Hs.
  destruct (int_digits n <=? MAX_STR_DIGITS)%nat; [|discriminate Hs].
  injection Hs as <-. unfold _parse_int.
  rewrite !strip_wrapping_quotes_pad by assumption.
  rewrite strip_wrapping_quotes_quoted by exact Hq.
  rewrite strip_plain by apply str_of_int_plain.
  rewrite strip_wrapping_quotes_plain by apply str_of_int_plain.
  rewrite py_int_str_of_int.
  assert (E : is_empty (str_of_int n) = false).
  { apply is_empty_false. intros E. pose proof (py_int_str_of_int n) as P.
    rewrite E in P. discriminate. }
  rewrite E. split; [reflexivity|]. split; [reflexivity|].
  replace (ws1 ++ ws2) with (ws1 ++ [] ++ ws2) by reflexivity.
  rewrite strip_wrapping_quotes_pad by assumption. reflexivity.
Qed.

Lemma parse_int_reads_back_witness :
  _parse_int (lit " -12 ") 1 = (-12)%Z /\
  _parse_int (lit " '-12' ") 1 = (-12)%Z /\
  _parse_int (lit "  ") 1 = 1%Z.
Proof.
  apply (parse_int_reads_back (-12) 1 (lit "-12") (lit " ") (lit " ") sq).
  - vm_compute. reflexivity.
  - repeat constructor.
  - repeat constructor.
  - right. reflexivity.
Defined.

(** ** The shape of a digest *)

Lemma hex_digit_hex n : (n < 16)%N -> is_hex_char (hex_digit n) = true.
Proof.
  intros H.
  assert (A : forallb (fun k => is_hex_char (hex_digit (N.of_nat k))) (seq 0 16) = true)
    by reflexivity.
  rewrite forallb_forall in A. rewrite <- (N2Nat.id n). apply A, in_seq. lia.
Qed.

(** X6. A digest as [_sha256_text], and so [compute_content_hash],
    returns it has 64 characters, each a digit of lower-case hexadecimal, and
    field normalisation leaves it as it is. *)
Theorem sha256_text_shape (text : str) :
  List.length (_sha256_text text) = 64%nat /\
  Forall (fun c => is_hex_char c = true) (_sha256_text text) /\
  _strip_wrapping_quotes (_sha256_text text) = _sha256_text text.
Proof.
  unfold _sha256_text. split; [|split].
  - unfold SHA256.hexdigest. rewrite length_map, length_rev, length_seq. reflexivity.
  - unfold SHA256.hexdigest. apply List.Forall_forall. intros c Hc.
    apply in_map_iff in Hc as (i & <- & _). apply hex_digit_hex.
    change 15%N with (N.ones 4). rewrite N.land_ones. apply N.mod_lt. discriminate.
  - apply strip_wrapping_quotes_plain, hexdigest_plain.
Qed.

(** ** The rows of a table that was read *)

Lemma zip_cells_keeps d names record k :
  is_Some (dict_get d k) -> is_Some (dict_get (zip_cells d names record) k).
Proof.
  revert d record. induction names as [|n names IH]; intros d record H; [exact H|].
  destruct record as [|v record]; [exact H|]. cbn [zip_cells]. apply IH.
  rewrite dict_get_set. destruct (str_eqb n k); [eauto|exact H].
Qed.

Lemma zip_cells_some d names record k :
  In k (firstn (List.length record) names) ->
  is_Some (dict_get (zip_cells d names record) k).
Proof.
  revert d record. induction names as [|n names IH]; intros d record H.
  - rewrite firstn_nil in H. destruct H.
  - destruct record as [|v record]; [destruct H|]. cbn [List.length firstn] in H.
    cbn [zip_cells]. destruct H as [<-|H]; [|apply IH, H].
    apply zip_cells_keeps. rewrite dict_get_set_eq. eauto.
Qed.

Lemma fold_blank_keeps names (d : dict str) k :
  is_Some (dict_get d k) ->
  is_Some (dict_get (fold_left (fun (d : dict str) k => dict_set d k []) names d) k).
Proof.
  revert d. induction names as [|n names IH]; intros d H; [exact H|].
  cbn [fold_left]. apply IH. rewrite dict_get_set. destruct (str_eqb n k); [eauto|exact H].
Qed.

Lemma fold_blank_in names (d : dict str) k :
  In k names ->
  dict_get (fold_left (fun (d : dict str) k => dict_set d k []) names d) k = Some [].
Proof.
  revert d. induction names as [|n names IH]; intros d H; [destruct H|].
  cbn [fold_left]. destruct (str_in k names) eqn:E.
  - apply IH, str_in_true, E.
  - apply str_in_false in E. rename E into Hn.
    destruct H as [<-|H]; [|contradiction].
    rewrite fold_blank_keys by exact Hn. apply dict_get_set_eq.
Qed.

Lemma dict_reader_row_has h record k :
  In k h -> is_Some (dict_get (cells (dict_reader_row h record)) k).
Proof.
  intros H. unfold dict_reader_row.
  destruct (List.length h <? List.length record)%nat eqn:L; cbn [cells].
  - apply zip_cells_some. apply Nat.ltb_lt in L.
    rewrite firstn_all2 by lia. exact H.
  - rewrite <- (firstn_skipn (List.length record) h) in H.
    apply in_app_or in H as [H|H].
    + apply fold_blank_keeps, zip_cells_some, H.
    + rewrite fold_blank_in by exact H. eauto.
Qed.

Lemma zip_cells_nth d names record i :
  NoDup names -> (i < List.length names)%nat ->
  dict_get (zip_cells d names record) (nth i names [])
  = if (i <? List.length record)%nat then Some (nth i record [])
    else dict_get d (nth i names []).
Proof.
  revert d record i. induction names as [|n names IH]; intros d record i Hnd Hi;
    [simpl in Hi; lia|].
  apply NoDup_cons in Hnd as [Hn Hnd]. rewrite list_elem_of_In in Hn.
  destruct record as [|v record].
  - cbn [zip_cells List.length]. reflexivity.
  - cbn [zip_cells]. destruct i as [|i].
    + cbn [nth List.length]. rewrite zip_cells_keys by exact Hn. apply dict_get_set_eq.
    + cbn [nth List.length] in *. rewrite IH by (try assumption; lia).
      change (S i <? S (List.length record))%nat with (i <? List.length record)%nat.
      destruct (i <? List.length record)%nat; [reflexivity|].
      apply dict_get_set_ne. intros ->. apply Hn, nth_In. lia.
Qed.

Lemma nth_skipn_in {A} (l : list A) n i d :
  (n <= i < List.length l)%nat -> In (nth i l d) (skipn n l).
Proof.
  intros H. replace i with (n + (i - n))%nat by lia.
  rewrite <- nth_skipn. apply nth_In. rewrite length_skipn. lia.
Qed.

Lemma nth_not_skipn (l : list str) n i :
  NoDup l -> (i < n)%nat -> (i < List.length l)%nat -> ~ In (nth i l []) (skipn n l).
Proof.
  intros Hnd Hi Hl Hin. apply (In_nth _ _ []) in Hin as (j & Hj & E).
  rewrite length_skipn in Hj. rewrite nth_skipn in E.
  apply NoDup_ListNoDup in Hnd.
  rewrite (List.NoDup_nth l []) in Hnd.
  assert (n + j = i)%nat by (apply Hnd; [lia|lia|exact E]). lia.
Qed.

Lemma dict_reader_row_nth h record i :
  NoDup h -> (i < List.length h)%nat ->
  row_get (dict_reader_row h record) (nth i h []) = nth i record [].
Proof.
  intros Hnd Hi. unfold row_get, dict_reader_row.
  destruct (List.length h <? List.length record)%nat eqn:L; cbn [cells].
  - apply Nat.ltb_lt in L. rewrite zip_cells_nth by assumption.
    replace (i <? List.length record)%nat with true
      by (symmetry; apply Nat.ltb_lt; lia).
    reflexivity.
  - apply Nat.ltb_ge in L.
    destruct (Nat.lt_ge_cases i (List.length record)) as [Hr|Hr].
    + rewrite fold_blank_keys by (apply nth_not_skipn; assumption).
      rewrite zip_cells_nth by assumption.
      replace (i <? List.length record)%nat with true
        by (symmetry; apply Nat.ltb_lt; lia).
      reflexivity.
    + rewrite fold_blank_in by (apply nth_skipn_in; lia).
      rewrite nth_overflow by lia. reflexivity.
Qed.

(** X7. What [read_csv_table] returns: a non-empty header, the delimiter
    of the file, and one row for each record after the header that is not
    blank, in order.  The named cells of a row are exactly the columns of the
    header.  A row has surplus cells exactly when its record is longer than
    the header, and they are the cells beyond the header.  When the columns
    are distinct, the cell under the i-th column is the i-th cell of the
    record, and the empty text where the record is too short. *)
Theorem read_csv_table_rows (f : CsvFile) (table : CsvTable) :
  read_csv_table f = Ok table ->
  header table <> [] /\ delimiter table = file_delimiter f /\
  exists records,
    file_records f = header table :: records /\
    rows table = map (dict_reader_row (header table))
                     (List.filter (fun r => negb (blank_record r)) records) /\
    forall record,
      let row := dict_reader_row (header table) record in
      (forall k, In k (header table) <-> is_Some (dict_get (cells row) k)) /\
      (rest row = None <-> (List.length record <= List.length (header table))%nat) /\
      (forall more, rest row = Some more ->
                    record = firstn (List.length (header table)) record ++ more /\
                    more <> []) /\
      (NoDup (header table) ->
       forall i, (i < List.length (header table))%nat ->
                 row_get row (nth i (header table) []) = nth i record []).
Proof.
  unfold read_csv_table. destruct (file_records f) as [|h records]; [discriminate|].
  destruct h as [|c h]; [discriminate|]. intros [= <-].
  cbn [header delimiter rows]. split; [discriminate|]. split; [reflexivity|].
  exists records. split; [reflexivity|]. split; [reflexivity|].
  intros record. set (row := dict_reader_row (c :: h) record).
  split; [|split; [|split]].
  - intros k. split; [apply dict_reader_row_has|].
    intros H. destruct (str_in k (c :: h)) eqn:E; [apply str_in_true, E|].
    apply str_in_false in E. rename E into Hn.
    unfold row in H. rewrite (dict_reader_row_keys (c :: h) record k Hn) in H.
    destruct H as [x H]. discriminate.
  - unfold row, dict_reader_row.
    destruct (List.length (c :: h) <? List.length record)%nat eqn:L; cbn [rest].
    + apply Nat.ltb_lt in L. split; [discriminate|lia].
    + apply Nat.ltb_ge in L. tauto.
  - intros more. unfold row, dict_reader_row.
    destruct (List.length (c :: h) <? List.length record)%nat eqn:L; cbn [rest];
      [|discriminate].
    intros [= <-]. split; [symmetry; apply firstn_skipn|].
    apply Nat.ltb_lt in L. intros E.
    apply (f_equal (@List.length str)) in E. rewrite length_skipn in E.
    cbn [List.length] in E, L. lia.
  - intros Hnd i Hi. apply dict_reader_row_nth; assumption.
Qed.

Lemma read_csv_table_rows_witness :
  row_get (dict_reader_row Sample.columns Sample.paris) (nth 3 Sample.columns [])
  = lit "Paris".
Proof.
  destruct (read_csv_table_rows (csv_file Sample.fresh)
              (mkCsvTable Sample.columns
                 [dict_reader_row Sample.columns Sample.paris] ","%char) eq_refl)
    as (_ & _ & records & _ & _ & H).
  destruct (H Sample.paris) as (_ & _ & _ & N).
  apply (N ltac:(apply (bool_decide_unpack _); vm_compute; exact I) 3%nat).
  apply Nat.ltb_lt. reflexivity.
Defined.

(** ** Writing the table, its columns and its delimiter *)

(** X8. A table file that reads as a table was written (which the code
    does not see to, see [reads_as_written]) is read as that table cut to
    its header: the header and the delimiter are the same and the rows come
    in order; each row has its cells exactly under the columns of the
    header, with the value it had there and the empty text where it had
    none, and no surplus cells. *)
Theorem write_then_read (f : CsvFile) (table : CsvTable) :
  header table <> [] ->
  reads_as_written f table ->
  read_csv_table f
  = Ok (mkCsvTable (header table) (map (reread (header table)) (rows table))
                   (delimiter table)) /\
  forall row,
    rest (reread (header table) row) = None /\
    forall k,
      (In k (header table) <->
       is_Some (dict_get (cells (reread (header table) row)) k)) /\
      row_get (reread (header table) row) k
      = if str_in k (header table) then row_get row k else [].
Proof.
  intros Hne [Hd Hr]. split.
  - unfold read_csv_table. rewrite Hr, Hd.
    destruct (header table) as [|c h] eqn:Eh; [contradiction|]. rewrite <- Eh.
    rewrite filter_all.
    + rewrite map_map. reflexivity.
    + intros r Hin. apply in_map_iff in Hin as (row & <- & _). rewrite Eh. reflexivity.
  - intros row. split; [apply reread_rest|]. intros k. split; [|apply reread_get].
    split; [apply dict_reader_row_has|]. intros H.
    destruct (str_in k (header table)) eqn:E; [apply str_in_true, E|].
    apply str_in_false in E. unfold reread in H.
    rewrite (dict_reader_row_keys _ _ k E) in H. destruct H as [x H]. discriminate.
Qed.

Lemma write_then_read_witness :
  read_csv_table (mkCsvFile TAB [[lit "a"; lit "b"]; [[]; lit "1"]])
  = Ok (mkCsvTable [lit "a"; lit "b"]
          [mkRow [(lit "a", []); (lit "b", lit "1")] None] TAB).
Proof.
  destruct (write_then_read
              (mkCsvFile TAB [[lit "a"; lit "b"]; [[]; lit "1"]])
              (mkCsvTable [lit "a"; lit "b"]
                 [mkRow [(lit "b", lit "1"); (lit "c", lit "2")] (Some [lit "3"])] TAB))
    as [E _]; [discriminate|split; reflexivity|].
  rewrite E. reflexivity.
Defined.

(** X9. [_require_columns] passes exactly when every required column is
    in the header; otherwise the error lists the required columns that the
    header lacks, in the order required, and no other. *)
Theorem require_columns_reports_missing (table : CsvTable) (required : list str) :
  (_require_columns table required = Ok tt <->
   forall c, In c required -> In c (header table)) /\
  (forall e, _require_columns table required = Raise e ->
     exists missing,
       e = MissingColumns missing /\ missing <> [] /\
       missing = List.filter (fun c => negb (str_in c (header table))) required /\
       forall c, In c missing <-> In c required /\ ~ In c (header table)).
Proof.
  split; [apply require_columns_ok|].
  intros e. unfold _require_columns.
  destruct (List.filter _ required) as [|m ms] eqn:E; [discriminate|].
  intros [= <-]. exists (m :: ms). split; [reflexivity|]. split; [discriminate|].
  split; [reflexivity|]. intros c. rewrite <- E, List.filter_In, negb_true_iff.
  rewrite str_in_false. tauto.
Qed.

Lemma require_columns_reports_missing_witness :
  exists missing,
    _require_columns (mkCsvTable [CATEGORY_COL; VERSION_COL] [] ","%char) REQUIRED_COLS
    = Raise (MissingColumns missing) /\
    In DATEKEY_COL missing /\ ~ In VERSION_COL missing.
Proof.
  destruct (require_columns_reports_missing
              (mkCsvTable [CATEGORY_COL; VERSION_COL] [] ","%char) REQUIRED_COLS)
    as [_ H].
  destruct (H (MissingColumns [DATEKEY_COL; TAGS_COL; ANSWER_CANONICAL_COL;
                               ANSWER_ALIASES_COL; SOLUTION_EXPLANATION_COL]) eq_refl)
    as (missing & E & _ & _ & Hm).
  exists missing. split; [rewrite <- E; reflexivity|]. split.
  - apply Hm. split; [left; reflexivity|]. cbn. intuition discriminate.
  - intros Hin. apply Hm in Hin as [_ Hn]. apply Hn. cbn. auto.
Defined.

(** X10. [_detect_delimiter] answers tab for a line that holds a tab,
    whatever else the line holds, and comma for any other line. *)
Theorem detect_delimiter_tab_wins (first_line : str) :
  (In TAB first_line -> _detect_delimiter first_line = TAB) /\
  (~ In TAB first_line -> _detect_delimiter first_line = ","%char) /\
  (forall a b, _detect_delimiter (a ++ b) = TAB <->
               _detect_delimiter a = TAB \/ _detect_delimiter b = TAB).
Proof.
  assert (A : forall l, _detect_delimiter l = TAB <-> In TAB l).
  { intros l. unfold _detect_delimiter. destruct (existsb _ l) eqn:E.
    - split; [intros _|reflexivity]. apply existsb_exists in E as (x & Hx & E).
      apply Ascii.eqb_eq in E. subst x. exact Hx.
    - split; [discriminate|]. intros H. exfalso.
      assert (E' : existsb (Ascii.eqb TAB) l = true)
        by (apply existsb_exists; exists TAB; split; [exact H|apply Ascii.eqb_refl]).
      congruence. }
  split; [apply A|]. split.
  - intros H. unfold _detect_delimiter. destruct (existsb _ first_line) eqn:E; [|reflexivity].
    exfalso. apply H, A. unfold _detect_delimiter. rewrite E. reflexivity.
  - intros a b. rewrite !A, in_app_iff. tauto.
Qed.

Lemma detect_delimiter_tab_wins_witness :
  _detect_delimiter (lit "a,b" ++ TAB :: lit "c") = TAB.
Proof.
  destruct (detect_delimiter_tab_wins (lit "a,b" ++ TAB :: lit "c")) as [H _].
  apply H. apply in_or_app. right. left. reflexivity.
Defined.

(** ** The hints of a record *)

Lemma hints_data_filter row idx cols :
  hints_data row idx cols
  = List.filter has_text
      (map (fun ic => (fst ic,
                       _strip_wrapping_quotes (row_get row (fst (snd ic))),
                       _strip_wrapping_quotes (row_get row (snd (snd ic)))))
           (combine (seq idx (List.length cols)) cols)).
Proof.
  revert idx. induction cols as [|[hc ec] cols IH]; intros idx; [reflexivity|].
  cbn [hints_data List.length seq combine map List.filter fst snd].
  unfold has_text at 1. cbn [fst snd]. rewrite IH.
  destruct (is_empty _); reflexivity.
Qed.

Lemma hint_slots row :
  map (fun ic => (fst ic,
                  _strip_wrapping_quotes (row_get row (fst (snd ic))),
                  _strip_wrapping_quotes (row_get row (snd (snd ic)))))
      (combine (seq 0 (List.length _hint_columns)) _hint_columns)
  = map (hint_slot row) (seq 0 5).
Proof. reflexivity. Qed.

Lemma sorted_filter_seq (p : nat -> bool) a n :
  StronglySorted lt (List.filter p (seq a n)).
Proof.
  revert a. induction n as [|n IH]; intros a; [constructor|].
  cbn [seq List.filter]. destruct (p a); [|apply IH].
  constructor; [apply IH|]. apply List.Forall_forall. intros x Hx.
  apply List.filter_In in Hx as [Hx _]. apply in_seq in Hx. lia.
Qed.

Lemma sorted_of_nat l : StronglySorted lt l -> StronglySorted Z.lt (map Z.of_nat l).
Proof.
  induction 1 as [|a l _ IH Ha]; [constructor|]. cbn [map].
  constructor; [exact IH|]. apply Forall_map.
  eapply List.Forall_impl; [|exact Ha]. intros x Hx. cbn. lia.
Qed.

(** X11. The hints of a record are the slots 0 to 4 of the row whose hint
    text is not empty after normalisation, in that order: at most five, with
    indices that increase strictly within 0..4, so that sorting them by
    index, as the content hash does, changes nothing.  A hint holds the id
    [h] followed by its index plus one, its index, its text, and its
    explanation only when that is not empty. *)
Theorem build_puzzle_object_hints (row : Row) (version : Z) :
  let slots := List.filter has_text (map (hint_slot row) (seq 0 5)) in
  let hints := map hint_of slots in
  dict_get (build_puzzle_object row version) (lit "hints") = Some (JArr hints) /\
  (List.length hints <= 5)%nat /\
  StronglySorted Z.lt (map hint_index hints) /\
  Forall (fun h => (0 <= hint_index h < 5)%Z) hints /\
  sorted_by_index hints = hints /\
  Forall (fun d =>
            snd (fst d) <> [] /\
            hint_of d
            = JObj ([(lit "id", JStr (lit "h" ++ str_of_int (Z.of_nat (fst (fst d)) + 1)));
                     (lit "index", JInt (Z.of_nat (fst (fst d))));
                     (lit "text", JStr (snd (fst d)))]
                    ++ if is_empty (snd d) then []
                       else [(lit "explanationText", JStr (snd d))]))
         slots.
Proof.
  intros slots hints.
  assert (E : build_hints row 0 _hint_columns = hints).
  { rewrite build_hints_data, hints_data_filter, hint_slots. reflexivity. }
  assert (Hs : forall d, In d slots -> (fst (fst d) < 5)%nat /\ snd (fst d) <> []).
  { intros d Hd. apply List.filter_In in Hd as [Hd Ht].
    apply in_map_iff in Hd as (i & <- & Hi). apply in_seq in Hi.
    split; [cbn; lia|]. apply is_empty_false, negb_true_iff, Ht. }
  split; [unfold build_puzzle_object; rewrite E; reflexivity|].
  split; [|split; [|split; [|split]]].
  - unfold hints, slots. rewrite length_map.
    etransitivity; [apply List.filter_length_le|]. rewrite length_map, length_seq. lia.
  - unfold hints. rewrite map_map.
    assert (M : map (fun d => hint_index (hint_of d)) slots
                = map Z.of_nat (map (fun d => fst (fst d)) slots)).
    { rewrite map_map. apply map_ext. intros d. apply hint_index_obj. }
    rewrite M.
    assert (F : map (fun d : nat * str * str => fst (fst d)) slots
                = List.filter (fun i => has_text (hint_slot row i)) (seq 0 5)).
    { unfold slots. generalize (seq 0 5). intros l.
      induction l as [|i l IH]; [reflexivity|]. cbn [map List.filter].
      destruct (has_text (hint_slot row i)); cbn [map]; rewrite IH; reflexivity. }
    rewrite F. apply sorted_of_nat, sorted_filter_seq.
  - unfold hints. apply Forall_map. apply List.Forall_forall. intros d Hd.
    cbv beta. unfold hint_of. rewrite hint_index_obj. destruct (Hs d Hd). lia.
  - rewrite <- E. apply sorted_by_index_built.
  - apply List.Forall_forall. intros d Hd. split; [apply (Hs d Hd)|].
    unfold hint_of, hint_obj. destruct (is_empty (snd d)); reflexivity.
Qed.

(** ** Columns a record does not depend on *)

(** X12. A record is built from the content columns only: setting any
    other cell of the row, such as the version or the content hash, changes
    neither the record nor its content hash. *)
Theorem build_puzzle_object_frame (row : Row) (k v : str) (version : Z) :
  ~ In k content_cols ->
  build_puzzle_object (row_set row k v) version = build_puzzle_object row version /\
  compute_content_hash (build_puzzle_object (row_set row k v) version)
  = compute_content_hash (build_puzzle_object row version).
Proof.
  intros H.
  assert (E : build_puzzle_object (row_set row k v) version
              = build_puzzle_object row version).
  { apply build_puzzle_object_ext. intros c Hc. apply row_get_set_ne.
    intros ->. contradiction. }
  rewrite E. auto.
Qed.

Lemma build_puzzle_object_frame_witness :
  build_puzzle_object (row_set Sample.stale VERSION_COL (lit "7")) 2
  = build_puzzle_object Sample.stale 2.
Proof.
  apply (build_puzzle_object_frame Sample.stale VERSION_COL (lit "7") 2).
  apply content_cols_not_version.
Defined.

(** ** Every row is accounted for *)

Lemma row_plan_has_key row :
  row_plan row
  = if has_key row
    then Some (plan_row row (_strip_wrapping_quotes (row_get row DATEKEY_COL)))
    else None.
Proof.
  unfold row_plan, _row_has_any_content, has_key.
  destruct (existsb _ _) eqn:E.
  - destruct (is_empty _); reflexivity.
  - rewrite (strip_wrapping_quotes_blank _ (blank_cells_get row _ E)). cbn [is_empty negb].
    destruct (rest row) as [[|x l]|]; reflexivity.
Qed.

Lemma has_key_content row : has_key row = true -> has_content row = true.
Proof.
  unfold has_key, has_content. intros H.
  destruct (existsb _ _) eqn:E; [reflexivity|].
  rewrite (strip_wrapping_quotes_blank _ (blank_cells_get row _ E)) in H. discriminate.
Qed.

Lemma plans_planned todo : Forall planned (plans todo).
Proof.
  induction todo as [|row todo IH]; [constructor|]. rewrite plans_cons.
  rewrite row_plan_has_key. destruct (has_key row) eqn:K; [|exact IH].
  constructor; [|exact IH]. exists row. auto.
Qed.

Lemma plans_filter todo :
  plans todo
  = map (fun row => plan_row row (_strip_wrapping_quotes (row_get row DATEKEY_COL)))
        (List.filter has_key todo).
Proof.
  induction todo as [|row todo IH]; [reflexivity|]. rewrite plans_cons.
  rewrite row_plan_has_key. cbn [List.filter]. destruct (has_key row); cbn [map];
    rewrite IH; reflexivity.
Qed.

Lemma step_counts dry_run st row :
  skipped_blank_rows (step dry_run st row)
  = (skipped_blank_rows st + if has_content row then 0 else 1)%nat /\
  skipped_missing_date (step dry_run st row)
  = (skipped_missing_date st
     + if has_content row && negb (has_key row) then 1 else 0)%nat.
Proof.
  unfold step. rewrite row_plan_has_key. destruct (has_key row) eqn:K.
  - rewrite (has_key_content _ K). cbn. split; lia.
  - unfold _row_has_any_content. fold (has_content row).
    destruct (has_content row).
    + cbn. split; lia.
    + destruct (rest row) as [[|x l]|]; cbn; split; lia.
Qed.

Lemma fold_counts dry_run todo st :
  skipped_blank_rows (fold_left (step dry_run) todo st)
  = (skipped_blank_rows st
     + List.length (List.filter (fun row => negb (has_content row)) todo))%nat /\
  skipped_missing_date (fold_left (step dry_run) todo st)
  = (skipped_missing_date st
     + List.length (List.filter (fun row => has_content row && negb (has_key row))
                                todo))%nat.
Proof.
  revert st. induction todo as [|row todo IH]; intros st; [cbn; split; lia|].
  cbn [fold_left List.filter]. destruct (IH (step dry_run st row)) as [-> ->].
  destruct (step_counts dry_run st row) as [-> ->].
  destruct (has_content row), (has_key row); cbn; split; lia.
Qed.

Lemma fold_results dry_run todo st :
  results (fold_left (step dry_run) todo st)
  = results st ++ plan_results dry_run (files st) (plans todo).
Proof.
  revert st. induction todo as [|row todo IH]; intros st.
  - cbn. rewrite app_nil_r. reflexivity.
  - cbn [fold_left]. rewrite IH, plans_cons. destruct (row_plan row) as [p|] eqn:P.
    + rewrite (step_plan _ _ _ _ P). cbn [apply_plan results files plan_results].
      rewrite <- app_assoc. reflexivity.
    + destruct (step_skip dry_run st row P) as (-> & _ & _ & -> & _). reflexivity.
Qed.

Lemma plan_results_fields dry_run f ps :
  map date_key (plan_results dry_run f ps) = map pl_key ps /\
  map version (plan_results dry_run f ps) = map pl_version ps /\
  map artifact (plan_results dry_run f ps) = map plan_file ps /\
  map bumped (plan_results dry_run f ps) = map pl_bumped ps /\
  map reason (plan_results dry_run f ps) = map pl_reason ps.
Proof.
  revert f. induction ps as [|p ps IH]; intros f; [repeat split|].
  cbn [plan_results map].
  destruct (IH (if dry_run then f else <[plan_file p := plan_text p]> f))
    as (-> & -> & -> & -> & ->).
  repeat split.
Qed.

Lemma three_way {A} (a b : A -> bool) l :
  (forall x, b x = true -> a x = true) ->
  (List.length (List.filter b l)
   + List.length (List.filter (fun x => negb (a x)) l)
   + List.length (List.filter (fun x => a x && negb (b x)) l))%nat
  = List.length l.
Proof.
  intros H. induction l as [|x l IH]; [reflexivity|]. cbn [List.filter List.length].
  pose proof (H x) as Hx. destruct (a x), (b x); cbn [negb andb List.length];
    first [lia | specialize (Hx eq_refl); discriminate].
Qed.

(** X13. A completed run accounts for every row once.  The rows counted as
    blank are the rows without content, the rows counted as missing the day
    key are the rows with content and an empty day key, and the results are
    the rows with a day key, in order; the three numbers add up to the rows
    of the table, and the table keeps its number of rows. *)
Theorem generate_counts_rows (dry_run : bool) (now : datetime)
    (fs fs' : FileSystem) (rep : Report) :
  generate dry_run now fs = Done fs' rep ->
  exists table,
    checked_table (csv_file fs) = Ok table /\
    rep_skipped_blank_rows rep
    = List.length (List.filter (fun row => negb (has_content row)) (rows table)) /\
    rep_skipped_missing_date rep
    = List.length (List.filter (fun row => has_content row && negb (has_key row))
                               (rows table)) /\
    map date_key (rep_results rep)
    = map (fun row => _strip_wrapping_quotes (row_get row DATEKEY_COL))
          (List.filter has_key (rows table)) /\
    (List.length (rep_results rep) + rep_skipped_blank_rows rep
     + rep_skipped_missing_date rep)%nat = List.length (rows table) /\
    List.length (rows (rep_table rep)) = List.length (rows table).
Proof.
  intros G. apply generate_done in G as (table & d & m & C & M & S & G).
  cbv zeta in G. destruct G as (_ & _ & ->). exists table. split; [exact C|].
  cbn [final_report rep_skipped_blank_rows rep_skipped_missing_date rep_results
       rep_table final_table rows].
  destruct (fold_counts dry_run (rows table) (loop_start fs)) as [-> ->].
  rewrite fold_results, fold_table_rows. cbn [loop_start skipped_blank_rows
    skipped_missing_date results table_rows files app Nat.add].
  destruct (plan_results_fields dry_run (mkdir (puzzles_dir fs)) (plans (rows table)))
    as (K & _).
  assert (L : List.length (plan_results dry_run (mkdir (puzzles_dir fs))
                             (plans (rows table)))
              = List.length (List.filter has_key (rows table))).
  { rewrite <- (length_map date_key), K, plans_filter, !length_map. reflexivity. }
  split; [reflexivity|]. split; [reflexivity|]. split; [|split].
  - rewrite K, plans_filter, map_map. reflexivity.
  - rewrite L. apply three_way, has_key_content.
  - apply length_map.
Qed.

Lemma generate_counts_rows_witness :
  exists rep,
    report_of (generate false Sample.now Sample.fresh) = Some rep /\
    (List.length (rep_results rep) + rep_skipped_blank_rows rep
     + rep_skipped_missing_date rep)%nat = 1%nat.
Proof.
  destruct (generate false Sample.now Sample.fresh) as [fs' rep|e fs'] eqn:G;
    [|not_aborted G].
  exists rep. split; [reflexivity|].
  destruct (generate_counts_rows _ _ _ _ _ G) as (table & C & _ & _ & _ & H & _).
  rewrite H.
  assert (E : checked_table (csv_file Sample.fresh)
              = Ok (mkCsvTable Sample.columns
                      [dict_reader_row Sample.columns Sample.paris] ","%char))
    by reflexivity.
  rewrite E in C. injection C as <-. reflexivity.
Defined.

(** ** The table after the run *)

Lemma plan_row_build row date_key v :
  build_puzzle_object (pl_row (plan_row row date_key)) v = build_puzzle_object row v.
Proof.
  apply build_puzzle_object_ext. intros k Hk. rewrite plan_row_get.
  destruct (str_eqb CONTENT_HASH_COL k) eqn:E1.
  { apply str_eqb_eq in E1. subst k. destruct (content_cols_not_hash Hk). }
  destruct (str_eqb VERSION_COL k) eqn:E2; [|reflexivity].
  apply str_eqb_eq in E2. subst k. destruct (content_cols_not_version Hk).
Qed.

Lemma plan_row_reads_version row date_key :
  _parse_int (row_get (pl_row (plan_row row date_key)) VERSION_COL) 1
  = pl_version (plan_row row date_key).
Proof.
  rewrite plan_row_get.
  replace (str_eqb CONTENT_HASH_COL VERSION_COL) with false by reflexivity.
  rewrite str_eqb_refl, andb_true_l, plan_row_version.
  destruct (pl_bumped (plan_row row date_key)); [|reflexivity].
  apply parse_int_str_of_int.
Qed.

Lemma plan_row_reads_hash row date_key :
  row_get (pl_row (plan_row row date_key)) CONTENT_HASH_COL
  = compute_content_hash
      (build_puzzle_object (pl_row (plan_row row date_key))
                           (pl_version (plan_row row date_key))).
Proof.
  rewrite plan_row_get, str_eqb_refl, plan_row_build. apply content_hash_version.
Qed.

Lemma plan_row_reads_key row date_key :
  row_get (pl_row (plan_row row date_key)) DATEKEY_COL = row_get row DATEKEY_COL.
Proof.
  rewrite plan_row_get.
  replace (str_eqb CONTENT_HASH_COL DATEKEY_COL) with false by reflexivity.
  replace (str_eqb VERSION_COL DATEKEY_COL) with false by reflexivity.
  reflexivity.
Qed.

Lemma plan_row_cells row date_key k :
  k <> VERSION_COL -> k <> CONTENT_HASH_COL ->
  dict_get (cells (pl_row (plan_row row date_key))) k = dict_get (cells row) k.
Proof.
  intros Hv Hh. unfold plan_row. cbn [pl_row]. unfold row_set at 1. cbn [cells].
  rewrite dict_get_set_ne by congruence.
  destruct (negb _ && negb _); [|reflexivity].
  unfold row_set. cbn [cells]. apply dict_get_set_ne. congruence.
Qed.

Lemma plan_row_rest row date_key : rest (pl_row (plan_row row date_key)) = rest row.
Proof.
  unfold plan_row. cbn [pl_row]. destruct (negb _ && negb _); reflexivity.
Qed.

Lemma forall2_map {A B} (R : A -> B -> Prop) (f : A -> B) l :
  (forall x, In x l -> R x (f x)) -> Forall2 R l (map f l).
Proof.
  induction l as [|a l IH]; intros H; [constructor|]. cbn [map].
  constructor; [apply H; left; reflexivity|]. apply IH. intros x Hx. apply H. right. exact Hx.
Qed.

Lemma row_out_has_key row : has_key (row_out row) = has_key row.
Proof.
  unfold row_out. rewrite row_plan_has_key. destruct (has_key row) eqn:K; [|exact K].
  unfold has_key in *. rewrite plan_row_reads_key. exact K.
Qed.

(** X14. What a completed run changes in the table.  The header gains the
    contentHash column if it lacked it and the delimiter stays.  Row by row,
    the surplus cells and every cell other than version and contentHash stay;
    a row without day key stays as it is; the version a row reads as goes up
    by one at most and never down. *)
Theorem generate_table_frame (dry_run : bool) (now : datetime)
    (fs fs' : FileSystem) (rep : Report) :
  generate dry_run now fs = Done fs' rep ->
  exists table,
    checked_table (csv_file fs) = Ok table /\
    header (rep_table rep) = with_content_hash (header table) /\
    delimiter (rep_table rep) = delimiter table /\
    Forall2 (fun row row' =>
               rest row' = rest row /\
               (forall k, k <> VERSION_COL -> k <> CONTENT_HASH_COL ->
                          dict_get (cells row') k = dict_get (cells row) k) /\
               (has_key row = false -> row' = row) /\
               (_parse_int (row_get row VERSION_COL) 1
                <= _parse_int (row_get row' VERSION_COL) 1
                <= _parse_int (row_get row VERSION_COL) 1 + 1)%Z)
            (rows table) (rows (rep_table rep)).
Proof.
  intros G. apply generate_done in G as (table & d & m & C & M & S & G).
  cbv zeta in G. destruct G as (_ & _ & ->). exists table. split; [exact C|].
  cbn [final_report rep_table final_table header delimiter rows].
  split; [reflexivity|]. split; [reflexivity|].
  rewrite fold_table_rows. cbn [loop_start table_rows app].
  apply forall2_map. intros row _. unfold row_out. rewrite row_plan_has_key.
  destruct (has_key row) eqn:K.
  - split; [apply plan_row_rest|]. split; [intros k; apply plan_row_cells|].
    split; [discriminate|]. rewrite plan_row_reads_version, plan_row_version.
    destruct (pl_bumped _); lia.
  - split; [reflexivity|]. split; [reflexivity|]. split; [reflexivity|]. lia.
Qed.

Lemma generate_table_frame_witness :
  exists rep,
    report_of (generate false Sample.now Sample.fresh) = Some rep /\
    header (rep_table rep) = Sample.columns ++ [CONTENT_HASH_COL].
Proof.
  destruct (generate false Sample.now Sample.fresh) as [fs' rep|e fs'] eqn:G;
    [|not_aborted G].
  exists rep. split; [reflexivity|].
  destruct (generate_table_frame _ _ _ _ _ G) as (table & C & H & _).
  rewrite H.
  assert (E : checked_table (csv_file Sample.fresh)
              = Ok (mkCsvTable Sample.columns
                      [dict_reader_row Sample.columns Sample.paris] ","%char))
    by reflexivity.
  rewrite E in C. injection C as <-. reflexivity.
Defined.

Lemma filter_row_out todo :
  List.filter has_key (map row_out todo) = map pl_row (plans todo).
Proof.
  induction todo as [|row todo IH]; [reflexivity|]. cbn [map List.filter].
  rewrite row_out_has_key, plans_cons. unfold row_out at 1.
  rewrite row_plan_has_key.
  destruct (has_key row); cbn [map]; rewrite IH; reflexivity.
Qed.

Lemma plan_results_rows dry_run f ps :
  Forall planned ps ->
  Forall2 (fun r row' =>
             date_key r = _strip_wrapping_quotes (row_get row' DATEKEY_COL) /\
             version r = _parse_int (row_get row' VERSION_COL) 1 /\
             row_get row' CONTENT_HASH_COL
             = compute_content_hash (build_puzzle_object row' (version r)))
          (plan_results dry_run f ps) (map pl_row ps).
Proof.
  intros H. revert f. induction H as [|p ps (row & K & ->) _ IH]; intros f;
    [constructor|].
  cbn [plan_results map]. constructor; [|apply IH].
  cbn [date_key version]. rewrite plan_row_reads_key, plan_row_reads_version.
  split; [reflexivity|]. split; [reflexivity|]. apply plan_row_reads_hash.
Qed.

(** X15. After a completed run the table in memory agrees with the
    results: its rows with a day key are, in order, the rows of the results,
    each reading as the day key and the version of its result and holding
    the content hash of the record built from it. *)
Theorem generate_results_match_table (dry_run : bool) (now : datetime)
    (fs fs' : FileSystem) (rep : Report) :
  generate dry_run now fs = Done fs' rep ->
  Forall2 (fun r row' =>
             date_key r = _strip_wrapping_quotes (row_get row' DATEKEY_COL) /\
             version r = _parse_int (row_get row' VERSION_COL) 1 /\
             row_get row' CONTENT_HASH_COL
             = compute_content_hash (build_puzzle_object row' (version r)))
          (rep_results rep) (List.filter has_key (rows (rep_table rep))).
Proof.
  intros G. apply generate_done in G as (table & d & m & C & M & S & G).
  cbv zeta in G. destruct G as (_ & _ & ->).
  cbn [final_report rep_results rep_table final_table rows].
  rewrite fold_results, fold_table_rows. cbn [loop_start results table_rows files app].
  rewrite filter_row_out. apply plan_results_rows, plans_planned.
Qed.

Lemma generate_results_match_table_witness :
  exists rep,
    report_of (generate false Sample.now Sample.fresh) = Some rep /\
    Forall2 (fun r row' => version r = _parse_int (row_get row' VERSION_COL) 1)
            (rep_results rep) (List.filter has_key (rows (rep_table rep))).
Proof.
  destruct (generate false Sample.now Sample.fresh) as [fs' rep|e fs'] eqn:G;
    [|not_aborted G].
  exists rep. split; [reflexivity|].
  eapply Forall2_impl; [apply (generate_results_match_table _ _ _ _ _ G)|].
  cbv beta. tauto.
Defined.

(** ** Puzzle files *)

Lemma fold_write_some ws f k :
  is_Some (fold_left write_file ws f !! k) <-> is_Some (f !! k) \/ In k (map fst ws).
Proof.
  revert f. induction ws as [|w ws IH]; intros f; [cbn; tauto|].
  cbn [fold_left map]. rewrite IH. unfold write_file.
  destruct (decide (fst w = k)) as [<-|Hne].
  - rewrite lookup_insert_eq. split; [intros _; right; left; reflexivity|].
    intros _. left. eauto.
  - rewrite lookup_insert_ne by exact Hne. cbn [In]. tauto.
Qed.

Lemma fold_files dry_run todo st :
  files (fold_left (step dry_run) todo st)
  = if dry_run then files st
    else fold_left write_file (map file_write (plans todo)) (files st).
Proof. destruct dry_run; [apply fold_dry_files|apply fold_files_real]. Qed.

Lemma file_write_names ps : map fst (map file_write ps) = map plan_file ps.
Proof. rewrite map_map. reflexivity. Qed.

Lemma sample_fresh_keys dry_run fs' rep :
  generate dry_run Sample.now Sample.fresh = Done fs' rep ->
  map date_key (rep_results rep) = [lit "2024-01-01"] /\
  Forall date_like (map date_key (rep_results rep)).
Proof.
  intros G.
  assert (K : option_map (fun rep => map date_key (rep_results rep))
                (report_of (generate dry_run Sample.now Sample.fresh))
              = Some [lit "2024-01-01"]) by (destruct dry_run; vm_compute; reflexivity).
  rewrite G in K. injection K as K. rewrite K. split; [reflexivity|].
  repeat constructor.
Qed.

(** X16. Puzzle files in a completed run whose day keys are made of digits
    and hyphens: the file of any such day key and any version that is not
    the file of a result is as it was, and no file is removed; a dry run
    leaves the directory as it was (created if it was missing); a run proper
    ends with the file of every result present. *)
Theorem generate_files_frame (dry_run : bool) (now : datetime)
    (fs fs' : FileSystem) (rep : Report) :
  generate dry_run now fs = Done fs' rep ->
  Forall date_like (map date_key (rep_results rep)) ->
  exists dir',
    puzzles_dir fs' = Some dir' /\
    (dry_run = true -> dir' = mkdir (puzzles_dir fs)) /\
    (forall k v, date_like k ->
                 ~ In (file_name k v) (map artifact (rep_results rep)) ->
                 dir' !! file_name k v = mkdir (puzzles_dir fs) !! file_name k v) /\
    (forall f, is_Some (mkdir (puzzles_dir fs) !! f) -> is_Some (dir' !! f)) /\
    (dry_run = false ->
     forall r, In r (rep_results rep) -> is_Some (dir' !! artifact r)).
Proof.
  intros G _. apply generate_done in G as (table & d & m & C & M & S & G).
  cbv zeta in G. destruct G as (_ & -> & ->). eexists. split; [reflexivity|].
  cbn [final_report rep_results]. rewrite fold_results, fold_files.
  cbn [loop_start results files app].
  destruct (plan_results_fields dry_run (mkdir (puzzles_dir fs)) (plans (rows table)))
    as (_ & _ & A & _).
  rewrite A. split; [intros ->; reflexivity|]. split; [|split].
  - intros k v _ Hf. destruct dry_run; [reflexivity|].
    apply fold_write_other. rewrite file_write_names. exact Hf.
  - intros f Hf. destruct dry_run; [exact Hf|]. apply fold_write_some. left. exact Hf.
  - intros -> r Hr. apply fold_write_some. right. rewrite file_write_names, <- A.
    apply in_map, Hr.
Qed.

Lemma generate_files_frame_witness :
  exists dir',
    puzzles_dir (fs_of (generate false Sample.now Sample.fresh)) = Some dir' /\
    dir' !! file_name (lit "2023-12-31") 1 = None.
Proof.
  destruct (generate false Sample.now Sample.fresh) as [fs' rep|e fs'] eqn:G;
    [|not_aborted G].
  destruct (sample_fresh_keys _ _ _ G) as [_ K].
  destruct (generate_files_frame _ _ _ _ _ G K) as (dir' & D & _ & H & _).
  exists dir'. split; [exact D|]. rewrite H; [reflexivity|reflexivity|].
  assert (A : marks (fun r => str_eqb (artifact r) (file_name (lit "2023-12-31") 1))
                    (generate false Sample.now Sample.fresh) = [false])
    by (vm_compute; reflexivity).
  rewrite G in A. cbn [marks] in A. intros Hin.
  apply in_map_iff in Hin as (r & E & Hr).
  apply (in_map (fun r => str_eqb (artifact r) (file_name (lit "2023-12-31") 1))) in Hr.
  rewrite A, E, str_eqb_refl in Hr. destruct Hr as [Hr|[]]. discriminate Hr.
Defined.

(** ** What an aborted run leaves *)








(** ** The manifest against the files *)

Lemma upsert_write_integrity ps pm f k :
  In k (map pl_key ps) ->
  exists p, In p ps /\ pl_key p = k /\
            dict_get (fold_left upsert ps pm) k = Some (plan_entry p) /\
            fold_left write_file (map file_write ps) f !! plan_file p
            = Some (plan_text p).
Proof.
  induction ps as [|q ps IH] using rev_ind; [intros []|].
  rewrite !map_app, !fold_left_app. cbn [map fold_left].
  intros Hin. destruct (str_eqb (pl_key q) k) eqn:E.
  - apply str_eqb_eq in E. exists q. split; [apply in_or_app; right; left; reflexivity|].
    split; [exact E|]. split.
    + unfold upsert at 1. rewrite E. apply dict_get_set_eq.
    + unfold write_file at 1. cbn [file_write fst snd]. apply lookup_insert_eq.
  - apply str_eqb_neq in E. apply in_app_or in Hin as [Hin|[Hk|[]]]; [|contradiction].
    destruct (IH Hin) as (p & Hp & Hk & Hd & Hf). exists p.
    split; [apply in_or_app; left; exact Hp|]. split; [exact Hk|]. split.
    + unfold upsert at 1. rewrite dict_get_set_ne by exact E. exact Hd.
    + unfold write_file at 1. cbn [file_write fst snd].
      rewrite lookup_insert_ne; [exact Hf|].
      intros En. apply plan_file_inj in En. congruence.
Qed.

Lemma in_plan_results dry_run f ps p :
  In p ps ->
  exists r, In r (plan_results dry_run f ps) /\
            date_key r = pl_key p /\ version r = pl_version p.
Proof.
  revert f. induction ps as [|q ps IH]; intros f; [intros []|].
  cbn [plan_results]. intros [->|Hin].
  - eexists. split; [left; reflexivity|]. auto.
  - destruct (IH (if dry_run then f else <[plan_file q := plan_text q]> f) Hin)
      as (r & Hr & H).
    exists r. split; [right; exact Hr|exact H].
Qed.

(** X18. After a completed run proper whose day keys are made of digits
    and hyphens the manifest in memory and the puzzle files agree: for every
    day key of the results the entry holds the version of a result with that
    key, the url [/puzzles/] followed by the file name of that result, and
    the SHA-256 of the text that file now has. *)
Theorem generate_manifest_integrity (now : datetime)
    (fs fs' : FileSystem) (rep : Report) (k : str) :
  generate false now fs = Done fs' rep ->
  Forall date_like (map date_key (rep_results rep)) ->
  In k (map date_key (rep_results rep)) ->
  exists r dir' text,
    In r (rep_results rep) /\ date_key r = k /\
    dict_get (sub_dict (rep_manifest rep) (lit "puzzles")) k
    = Some (manifest_entry (version r) (lit "/puzzles/" ++ artifact r)
                           (_sha256_text text)) /\
    puzzles_dir fs' = Some dir' /\
    dir' !! artifact r = Some text.
Proof.
  intros G _ Hk. apply generate_done in G as (table & d & m & C & M & S & G).
  cbv zeta in G. destruct G as (_ & -> & ->).
  cbn [final_report rep_results rep_manifest final_fs puzzles_dir] in *.
  rewrite final_manifest_puzzles, fold_puzzles_manifest, fold_files_real.
  rewrite fold_results in Hk |- *. cbn [loop_start results files app puzzles_manifest] in *.
  destruct (plan_results_fields false (mkdir (puzzles_dir fs)) (plans (rows table)))
    as (K & _).
  rewrite K in Hk.
  destruct (upsert_write_integrity (plans (rows table))
              (manifest_entries (manifest_file fs)) (mkdir (puzzles_dir fs)) k Hk)
    as (p & Hp & Hpk & Hd & Hf).
  destruct (in_plan_results false (mkdir (puzzles_dir fs)) _ _ Hp) as (r & Hr & Hrk & Hrv).
  eexists r, _, (plan_text p). split; [exact Hr|]. split; [congruence|].
  unfold artifact. rewrite Hrk, Hrv. fold (plan_file p).
  split; [exact Hd|]. split; [reflexivity|exact Hf].
Qed.

Lemma generate_manifest_integrity_witness :
  exists rep r text,
    report_of (generate false Sample.now Sample.fresh) = Some rep /\
    dict_get (sub_dict (rep_manifest rep) (lit "puzzles")) (lit "2024-01-01")
    = Some (manifest_entry (version r) (lit "/puzzles/" ++ artifact r)
                           (_sha256_text text)).
Proof.
  destruct (generate false Sample.now Sample.fresh) as [fs' rep|e fs'] eqn:G;
    [|not_aborted G].
  destruct (sample_fresh_keys _ _ _ G) as [_ K].
  destruct (generate_manifest_integrity _ _ _ _ (lit "2024-01-01") G K)
    as (r & dir' & text & _ & _ & H & _).
  - assert (A : marks (fun r => str_eqb (date_key r) (lit "2024-01-01"))
                      (generate false Sample.now Sample.fresh) = [true])
      by (vm_compute; reflexivity).
    rewrite G in A. cbn [marks] in A.
    destruct (rep_results rep) as [|r0 [|r1 l]]; try discriminate A.
    cbn [map] in A. injection A as A. apply str_eqb_eq in A. left. exact A.
  - exists rep, r, text. split; [reflexivity|exact H].
Defined.

(** ** Created and refreshed *)

Lemma plan_results_created dry_run f ps pre r post :
  plan_results dry_run f ps = pre ++ r :: post ->
  refreshed r = negb (created r) /\
  (created r = true <->
   f !! artifact r = None /\
   (dry_run = false -> ~ In (artifact r) (map artifact pre))).
Proof.
  revert f pre. induction ps as [|p ps IH]; intros f pre E; cbn [plan_results] in E.
  - destruct pre; discriminate.
  - destruct pre as [|r0 pre]; cbn [app] in E; injection E as E0 E.
    + subst r. cbn [refreshed created artifact date_key version]. fold (plan_file p).
      split; [rewrite negb_involutive; reflexivity|].
      rewrite negb_true_iff, bool_decide_eq_false, <- eq_None_not_Some.
      cbn [map In]. tauto.
    + destruct (IH _ _ E) as [H1 H2]. split; [exact H1|]. rewrite H2.
      subst r0. cbn [map In artifact date_key version]. fold (plan_file p).
      destruct dry_run.
      * split; intros [Ha _]; (split; [exact Ha|discriminate]).
      * rewrite lookup_insert_None. split.
        -- intros [[Ha Hn] Hp]. split; [exact Ha|]. intros _ [Hx|Hx]; [auto|].
           apply (Hp eq_refl Hx).
        -- intros [Ha Hp]. specialize (Hp eq_refl). split; [split|]; [exact Ha| |].
           ++ intros Hx. apply Hp. left. exact Hx.
           ++ intros _ Hx. apply Hp. right. exact Hx.
Qed.

(** X19. created and refreshed, in a completed run whose day keys are made
    of digits and hyphens.  A result is marked refreshed exactly when it is
    not marked created.  It is marked created exactly when its file was not
    in the puzzles directory before the run and, in a run proper, no earlier
    result of the run has the same file. *)
Theorem generate_created_first_write (dry_run : bool) (now : datetime)
    (fs fs' : FileSystem) (rep : Report) (pre post : list RowResult) (r : RowResult) :
  generate dry_run now fs = Done fs' rep ->
  Forall date_like (map date_key (rep_results rep)) ->
  rep_results rep = pre ++ r :: post ->
  refreshed r = negb (created r) /\
  (created r = true <->
   mkdir (puzzles_dir fs) !! artifact r = None /\
   (dry_run = false -> ~ In (artifact r) (map artifact pre))).
Proof.
  intros G _ E. apply generate_done in G as (table & d & m & C & M & S & G).
  cbv zeta in G. destruct G as (_ & _ & ->). cbn [final_report rep_results] in E.
  rewrite fold_results in E. cbn [loop_start results files app] in E.
  apply (plan_results_created _ _ _ _ _ _ E).
Qed.

Lemma generate_created_first_write_witness :
  marks created (generate false Sample.now Sample.twice) = [true; false] /\
  marks refreshed (generate false Sample.now Sample.twice) = [false; true].
Proof.
  assert (Mc : marks created (generate false Sample.now Sample.twice) = [true; false])
    by (vm_compute; reflexivity).
  split; [exact Mc|].
  destruct (generate false Sample.now Sample.twice) as [fs' rep|e fs'] eqn:G;
    [|discriminate Mc].
  cbn [marks] in *. destruct (rep_results rep) as [|r1 [|r2 [|r3 l]]] eqn:E;
    try discriminate Mc.
  injection Mc as M1 M2. cbn [map].
  assert (K : Forall date_like (map date_key (rep_results rep))).
  { assert (A : option_map (fun rep => map date_key (rep_results rep))
                  (report_of (generate false Sample.now Sample.twice))
                = Some [lit "2024-01-01"; lit "2024-01-01"]) by (vm_compute; reflexivity).
    rewrite G in A. injection A as A. rewrite A. repeat constructor. }
  destruct (generate_created_first_write _ _ _ _ _ [] [r2] r1 G K E) as [H1 _].
  destruct (generate_created_first_write _ _ _ _ _ [r1] [] r2 G K E) as [H2 _].
  rewrite H1, H2, M1, M2. reflexivity.
Defined.

(** ** The table file *)

Lemma planned_reason p :
  planned p ->
  (pl_init p = true -> pl_bumped p = false) /\
  pl_reason p
  = (if pl_bumped p then lit "content changed -> version bumped"
     else if pl_init p then lit "initialized contentHash"
     else lit "no content change").
Proof.
  intros (row & _ & ->). unfold plan_row. cbn [pl_init pl_bumped pl_reason].
  split; [|reflexivity]. intros ->. reflexivity.
Qed.

Lemma plan_results_in dry_run f ps r :
  In r (plan_results dry_run f ps) ->
  exists p, In p ps /\ bumped r = pl_bumped p /\ reason r = pl_reason p.
Proof.
  revert f. induction ps as [|q ps IH]; intros f; [intros []|].
  cbn [plan_results]. intros [<-|Hin].
  - exists q. split; [left; reflexivity|]. auto.
  - destruct (IH _ Hin) as (p & Hp & H). exists p. split; [right; exact Hp|exact H].
Qed.

Lemma in_plan_results_marks dry_run f ps p :
  In p ps ->
  exists r, In r (plan_results dry_run f ps) /\
            bumped r = pl_bumped p /\ reason r = pl_reason p.
Proof.
  revert f. induction ps as [|q ps IH]; intros f; [intros []|].
  cbn [plan_results]. intros [->|Hin].
  - eexists. split; [left; reflexivity|]. auto.
  - destruct (IH (if dry_run then f else <[plan_file q := plan_text q]> f) Hin)
      as (r & Hr & H).
    exists r. split; [right; exact Hr|exact H].
Qed.

(** X20. The summary of a completed run says the table is updated exactly
    when some result is bumped or has the reason [initialized contentHash];
    a dry run, and a run whose summary does not say so, leave the table file
    as it was.  (When it does say so in a run proper, [write_csv_table] is
    called with the table in memory; it replaces the table file, or writes a
    sibling file when the table file is locked.)  A result is bumped exactly
    when its reason is [content changed -> version bumped], and there are
    three reasons in all. *)
Theorem generate_csv_rewrite (dry_run : bool) (now : datetime)
    (fs fs' : FileSystem) (rep : Report) :
  generate dry_run now fs = Done fs' rep ->
  (rep_csv_updated rep = true <->
   exists r, In r (rep_results rep) /\
             (bumped r = true \/ reason r = lit "initialized contentHash")) /\
  (dry_run = true \/ rep_csv_updated rep = false -> csv_file fs' = csv_file fs) /\
  Forall (fun r =>
            (bumped r = true <-> reason r = lit "content changed -> version bumped") /\
            (reason r = lit "content changed -> version bumped" \/
             reason r = lit "initialized contentHash" \/
             reason r = lit "no content change"))
         (rep_results rep).
Proof.
  intros G. apply generate_done in G as (table & d & m & C & M & S & G).
  cbv zeta in G. destruct G as (_ & -> & ->).
  cbn [final_report rep_csv_updated rep_results rep_table final_fs csv_file].
  rewrite fold_any_csv, fold_results. cbn [loop_start any_csv_updates results files app orb].
  pose proof (plans_planned (rows table)) as P. rewrite List.Forall_forall in P.
  set (ps := plans (rows table)) in *. set (f := mkdir (puzzles_dir fs)).
  split; [|split].
  - rewrite existsb_exists. split.
    + intros (p & Hp & H). destruct (in_plan_results_marks dry_run f ps p Hp)
        as (r & Hr & Hb & Hre).
      exists r. split; [exact Hr|]. rewrite Hb, Hre.
      destruct (planned_reason p (P p Hp)) as [Hi ->].
      destruct (pl_bumped p); [auto|]. rewrite orb_false_r in H. rewrite H. auto.
    + intros (r & Hr & H). destruct (plan_results_in dry_run f ps r Hr)
        as (p & Hp & Hb & Hre).
      exists p. split; [exact Hp|]. rewrite Hb, Hre in H.
      destruct (planned_reason p (P p Hp)) as [Hi E].
      destruct H as [->|H]; [apply orb_true_r|]. rewrite E in H.
      destruct (pl_bumped p); [apply orb_true_r|].
      destruct (pl_init p); [reflexivity|discriminate H].
  - intros [->|E]; [reflexivity|]. rewrite E, andb_false_r. reflexivity.
  - apply List.Forall_forall. intros r Hr.
    destruct (plan_results_in dry_run f ps r Hr) as (p & Hp & Hb & Hre).
    destruct (planned_reason p (P p Hp)) as [_ E]. rewrite Hb, Hre, E.
    destruct (pl_bumped p); [split; [tauto|auto]|].
    destruct (pl_init p); (split; [split; discriminate|auto]).
Qed.

Lemma generate_csv_rewrite_witness :
  flag rep_csv_updated (generate true Sample.now Sample.fresh) = true /\
  csv_file (fs_of (generate true Sample.now Sample.fresh)) = csv_file Sample.fresh.
Proof.
  assert (F : flag rep_csv_updated (generate true Sample.now Sample.fresh) = true)
    by (vm_compute; reflexivity).
  split; [exact F|].
  destruct (generate true Sample.now Sample.fresh) as [fs' rep|e fs'] eqn:G;
    [|discriminate F].
  destruct (generate_csv_rewrite _ _ _ _ _ G) as (_ & H & _).
  cbn [fs_of]. apply H. left. reflexivity.
Defined.

(** ** The shape of the manifest, again *)

(** X21. [ensure_manifest_shape] leaves a manifest with an object under
    [puzzles] and under [meta]; applied again it changes nothing, and a
    manifest that had both to begin with is left as it was. *)
Theorem ensure_manifest_shape_idempotent (v : jvalue) (m : dict jvalue) :
  ensure_manifest_shape v = Ok m ->
  well_shaped m /\
  ensure_manifest_shape (JObj m) = Ok m /\
  (forall d, v = JObj d -> well_shaped d -> m = d).
Proof.
  destruct v as [| | | | |d]; try discriminate. intros E.
  destruct (ensure_manifest_shape_dict d) as (m' & E' & Hp & Hm & _).
  rewrite E in E'. injection E' as <-.
  assert (W : well_shaped m).
  { split.
    - rewrite Hp. destruct (is_dict (dict_get d (lit "puzzles"))) eqn:X; [exact X|reflexivity].
    - rewrite Hm. destruct (is_dict (dict_get d (lit "meta"))) eqn:X; [exact X|reflexivity]. }
  split; [exact W|]. destruct W as [W1 W2]. split.
  - unfold ensure_manifest_shape. rewrite W1, W2. reflexivity.
  - intros d' [= <-] [D1 D2]. unfold ensure_manifest_shape in E.
    rewrite D1, D2 in E. injection E as <-. reflexivity.
Qed.

Lemma ensure_manifest_shape_idempotent_witness :
  ensure_manifest_shape (JObj [(lit "puzzles", JObj []); (lit "meta", JObj [])])
  = Ok [(lit "puzzles", JObj []); (lit "meta", JObj [])].
Proof.
  destruct (ensure_manifest_shape_idempotent (JObj []) _ eq_refl) as (_ & H & _).
  exact H.
Defined.

(** ** A row reconciled again *)

Lemma row_ext_refl row : row_ext row row.
Proof. intros k. reflexivity. Qed.

Lemma plan_row_fixed row date_key :
  pl_row (plan_row (pl_row (plan_row row date_key)) date_key)
  = pl_row (plan_row row date_key).
Proof.
  pose proof (plan_row_settled row _ date_key (row_ext_refl _)) as (_ & _ & _ & Hb & _).
  set (row1 := pl_row (plan_row row date_key)) in *.
  assert (Hc : compute_content_hash
                 (build_puzzle_object row1 (_parse_int (row_get row1 VERSION_COL) 1))
               = compute_content_hash
                   (build_puzzle_object row (_parse_int (row_get row VERSION_COL) 1))).
  { unfold row1. rewrite plan_row_build. apply content_hash_version. }
  unfold plan_row at 1. cbn [pl_row]. unfold plan_row at 1 in Hb. cbn [pl_bumped] in Hb.
  rewrite Hb, Hc. unfold row_set at 1. rewrite dict_set_same.
  - unfold row1, plan_row. cbn [pl_row]. unfold row_set at 1 3. reflexivity.
  - unfold row1, plan_row. cbn [pl_row]. unfold row_set at 1.
    cbn [cells]. apply dict_get_set_eq.
Qed.

(** X22. Reconciliation settles a row.  The row the loop leaves after
    reconciling a row, reconciled again from any state, is left exactly as
    it is, with the same version and the same manifest entry; it is not
    bumped, its reason is [no content change] and it does not mark the
    table for an update. *)
Theorem reconcile_row_settles (d1 d2 : bool) (st1 st2 : LoopState)
    (row : Row) (date_key : str) :
  exists row1 r1,
    row_after (reconcile_row d1 st1 row date_key) = Some row1 /\
    result_after (reconcile_row d1 st1 row date_key) = Some r1 /\
    let st2' := reconcile_row d2 st2 row1 date_key in
    row_after st2' = Some row1 /\
    any_csv_updates st2' = any_csv_updates st2 /\
    dict_get (puzzles_manifest st2') date_key
    = dict_get (puzzles_manifest (reconcile_row d1 st1 row date_key)) date_key /\
    exists r2,
      result_after st2' = Some r2 /\
      version r2 = version r1 /\ bumped r2 = false /\
      reason r2 = lit "no content change".
Proof.
  rewrite reconcile_row_plan. set (p := plan_row row date_key).
  eexists (pl_row p), _. unfold row_after, result_after.
  cbn [apply_plan table_rows results]. rewrite !last_snoc.
  split; [reflexivity|]. split; [reflexivity|]. cbv zeta.
  rewrite reconcile_row_plan. set (p2 := plan_row (pl_row p) date_key).
  pose proof (plan_row_settled row (pl_row p) date_key (row_ext_refl _))
    as (Hk & Hv & Ho & Hb & Hi).
  fold p p2 in Hk, Hv, Ho, Hb, Hi.
  cbn [apply_plan table_rows results any_csv_updates puzzles_manifest].
  rewrite !last_snoc. split; [|split; [|split]].
  - unfold p2, p. rewrite plan_row_fixed. reflexivity.
  - rewrite Hb, Hi, !orb_false_r. reflexivity.
  - rewrite !dict_get_set, Hk. unfold p at 1 3. cbn [pl_key]. rewrite !str_eqb_refl.
    unfold plan_entry, plan_file, plan_text. rewrite Hk, Hv, Ho. reflexivity.
  - eexists. split; [reflexivity|]. cbn [version bumped reason].
    split; [exact Hv|]. split; [exact Hb|].
    unfold p2, plan_row in Hb, Hi |- *. cbn [pl_reason pl_bumped pl_init] in *.
    rewrite Hb, Hi. reflexivity.
Qed.

(** ** The fields of a record *)

(** X23. The fields of a record: its nine keys in the order the code
    writes them; [id] equal to [dateKey]; the version as given; the five
    texts without white space at their ends; tags and aliases as lists of
    non-empty texts without white space at their ends.  Two records of one
    row differ in the version only. *)
Theorem build_puzzle_object_fields (row : Row) (v v' : Z) :
  let p := build_puzzle_object row v in
  dict_keys p
  = [lit "id"; lit "dateKey"; lit "version"; lit "category"; lit "tags";
     lit "answerCanonical"; lit "answerAliases"; lit "hints";
     lit "solutionExplanation"] /\
  dict_get p (lit "id") = dict_get p (lit "dateKey") /\
  dict_get p (lit "version") = Some (JInt v) /\
  Forall (fun k => exists s, dict_get p k = Some (JStr s) /\ strip s = s)
         [lit "id"; lit "dateKey"; lit "category"; lit "answerCanonical";
          lit "solutionExplanation"] /\
  Forall (fun k => exists l, dict_get p k = Some (JArr (map JStr l)) /\
                             Forall (fun s => s <> [] /\ strip s = s) l)
         [lit "tags"; lit "answerAliases"] /\
  dict_pop (build_puzzle_object row v') (lit "version") = dict_pop p (lit "version").
Proof.
  intros p. unfold p, build_puzzle_object.
  split; [reflexivity|]. split; [reflexivity|]. split; [reflexivity|].
  assert (T : forall t, strip (_strip_wrapping_quotes t) = _strip_wrapping_quotes t)
    by (intros t; apply strip_trimmed, strip_wrapping_quotes_trimmed).
  assert (L : forall c t, Forall (fun s => s <> [] /\ strip s = s) (split_list c t)).
  { intros c t. apply List.Forall_forall. intros s Hs.
    destruct (split_list_entries c t s Hs) as (H1 & H2 & _). auto. }
  split; [|split; [|reflexivity]].
  - repeat (constructor; [eexists; split; [reflexivity|apply T]|]). constructor.
  - constructor; [eexists; split; [reflexivity|apply (L ";"%char)]|].
    constructor; [eexists; split; [reflexivity|apply (L ","%char)]|]. constructor.
Qed.

(** ** The turn of the loop, by cases *)

(** X24. One turn of the loop, by cases.  A row with a day key has
    content, whatever surplus cells it has, so the test for content returns
    before it reaches them; when the turn on it completes, it has added the
    row to the table and one result, under the normalised day key, and has
    counted no skip.  A row with content and no day key is skipped and
    counted as missing the day key; a row without content is skipped and
    counted as blank, unless it has surplus cells, on which the turn
    raises. *)
Theorem process_row_cases (dry_run : bool) (st : LoopState) (row : Row) :
  (has_key row = true ->
   _row_has_any_content row = Ok true /\
   forall st',
     process_row dry_run st row = Ok st' ->
     exists row' r,
       table_rows st' = table_rows st ++ [row'] /\
       results st' = results st ++ [r] /\
       date_key r = _strip_wrapping_quotes (row_get row DATEKEY_COL) /\
       skipped_blank_rows st' = skipped_blank_rows st /\
       skipped_missing_date st' = skipped_missing_date st) /\
  (has_content row = true -> has_key row = false ->
   process_row dry_run st row = Ok (skip_missing_date st row)) /\
  (has_content row = false ->
   process_row dry_run st row
   = match rest row with
     | Some (_ :: _) => Raise ListHasNoStrip
     | _ => Ok (skip_blank st row)
     end).
Proof.
  unfold process_row, _row_has_any_content. fold (has_content row).
  split; [|split].
  - intros K. pose proof (has_key_content _ K) as C. rewrite C.
    split; [reflexivity|]. unfold has_key in K. apply negb_true_iff in K.
    rewrite K. intros st' [= <-]. unfold reconcile_row.
    cbn [table_rows results skipped_blank_rows skipped_missing_date].
    eexists _, _. split; [reflexivity|]. split; [reflexivity|].
    cbn [date_key]. auto.
  - intros -> K. unfold has_key in K. apply negb_false_iff in K. rewrite K. reflexivity.
  - intros ->. destruct (rest row) as [[|x l]|]; reflexivity.
Qed.

Lemma process_row_cases_witness :
  _row_has_any_content Sample.stale = Ok true /\
  exists st' r,
    process_row false (loop_start Sample.fresh) Sample.stale = Ok st' /\
    results st' = [r] /\ date_key r = lit "2024-01-01".
Proof.
  destruct (process_row_cases false (loop_start Sample.fresh) Sample.stale) as [H _].
  destruct H as [H1 H2]; [reflexivity|]. split; [exact H1|].
  assert (D : match process_row false (loop_start Sample.fresh) Sample.stale with
              | Ok _ => true
              | Raise _ => false
              end = true) by (vm_compute; reflexivity).
  destruct (process_row false (loop_start Sample.fresh) Sample.stale)
    as [st'|e] eqn:P; [|discriminate D].
  destruct (H2 st' eq_refl) as (row' & r & _ & Hr & Hk & _).
  exists st', r. split; [reflexivity|]. split; [exact Hr|]. rewrite Hk. reflexivity.
Defined.

(** ** One file name for a day key and a version *)

(** X25. The file name of an artifact determines the day key and the
    version, and so does the url; the version after a bump never has the
    file name of the version before. *)
Theorem file_name_injective (k1 k2 : str) (v1 v2 : Z) :
  (file_name k1 v1 = file_name k2 v2 <-> k1 = k2 /\ v1 = v2) /\
  file_name k1 (v1 + 1) <> file_name k1 v1 /\
  (lit "/puzzles/" ++ file_name k1 v1 = lit "/puzzles/" ++ file_name k2 v2 <->
   k1 = k2 /\ v1 = v2).
Proof.
  assert (A : forall a b x y, file_name a x = file_name b y <-> a = b /\ x = y).
  { intros a b x y. split.
    - intros H. apply file_name_inj in H as [-> H]. apply str_of_int_inj in H. auto.
    - intros [-> ->]. reflexivity. }
  split; [apply A|]. split.
  - intros H. apply A in H as [_ H]. lia.
  - rewrite <- A. split; [apply app_inv_head|intros ->; reflexivity].
Qed.

(** ** Equality of manifest entries *)

(** X26. When an upsert counts as a change: against an entry of the form
    the run writes, exactly when the version, the url or the sha256 differs;
    against no entry, always. *)
Theorem entry_differs_entries (v v' : Z) (u u' h h' : str) (e : jvalue) :
  (entry_differs (Some (manifest_entry v u h)) (manifest_entry v' u' h') = false <->
   v = v' /\ u = u' /\ h = h') /\
  entry_differs None e = true /\
  entry_differs (Some (manifest_entry v u h)) (manifest_entry v u h) = false.
Proof.
  assert (A : forall a b c a' b' c',
             entry_differs (Some (manifest_entry a b c)) (manifest_entry a' b' c')
             = negb ((a =? a')%Z && (str_eqb b b' && (str_eqb c c' && true)))).
  { intros. reflexivity. }
  split; [|split; [reflexivity|]].
  - rewrite A, negb_false_iff, !andb_true_iff, Z.eqb_eq, !str_eqb_eq. tauto.
  - rewrite A, Z.eqb_refl, !str_eqb_refl. reflexivity.
Qed.

(** ** The manifest outside its entries *)

Lemma sub_dict_ensure_meta d m :
  ensure_manifest_shape (JObj d) = Ok m ->
  sub_dict m (lit "meta") = sub_dict d (lit "meta").
Proof.
  destruct (ensure_manifest_shape_dict d) as (m' & E & _ & Hm & _).
  rewrite E. intros [= <-]. unfold sub_dict. rewrite Hm.
  destruct (dict_get d (lit "meta")) as [[]|]; reflexivity.
Qed.

(** X27. What a completed run keeps of the manifest: every member other
    than [puzzles] and [meta], and within [meta] every member other than
    [generatedAtUtc] (all of [meta] when the manifest does not count as
    updated).  The manifest file is written, with the manifest in memory,
    exactly when the manifest counts as updated in a run proper. *)
Theorem generate_manifest_frame (dry_run : bool) (now : datetime)
    (fs fs' : FileSystem) (rep : Report) :
  generate dry_run now fs = Done fs' rep ->
  exists d,
    manifest_file fs = FileJson (JObj d) /\
    (forall k, k <> lit "puzzles" -> k <> lit "meta" ->
               dict_get (rep_manifest rep) k = dict_get d k) /\
    (forall k, k <> lit "generatedAtUtc" ->
               dict_get (sub_dict (rep_manifest rep) (lit "meta")) k
               = dict_get (sub_dict d (lit "meta")) k) /\
    (rep_manifest_updated rep = false ->
     sub_dict (rep_manifest rep) (lit "meta") = sub_dict d (lit "meta")) /\
    manifest_file fs'
    = (if negb dry_run && rep_manifest_updated rep
       then FileJson (JObj (rep_manifest rep)) else manifest_file fs).
Proof.
  intros G. apply generate_done in G as (table & d & m & C & M & S & G).
  cbv zeta in G. destruct G as (_ & -> & ->). exists d. split; [exact M|].
  cbn [final_report rep_manifest rep_manifest_updated final_fs manifest_file].
  destruct (ensure_manifest_shape_dict d) as (m' & E & _ & _ & Hk).
  rewrite S in E. injection E as <-.
  pose proof (sub_dict_ensure_meta _ _ S) as Hm.
  set (st := fold_left (step dry_run) (rows table) (loop_start fs)).
  assert (Hpm : lit "puzzles" <> lit "meta") by discriminate.
  unfold final_manifest, stamp. split; [|split; [|split; [|reflexivity]]].
  - intros k K1 K2. destruct (any_manifest_updates st);
      rewrite ?dict_get_set_ne by congruence; apply Hk; assumption.
  - intros k K. destruct (any_manifest_updates st).
    + rewrite sub_dict_set, dict_get_set_ne by congruence.
      rewrite sub_dict_set_ne by exact Hpm. rewrite Hm. reflexivity.
    + rewrite sub_dict_set_ne by exact Hpm. rewrite Hm. reflexivity.
  - intros ->. rewrite sub_dict_set_ne by exact Hpm. exact Hm.
Qed.

Lemma generate_manifest_frame_witness :
  exists rep,
    report_of (generate false Sample.now Sample.stocked) = Some rep /\
    dict_get (rep_manifest rep) (lit "schema") = None.
Proof.
  assert (D : is_done (generate false Sample.now Sample.stocked) = true)
    by (vm_compute; reflexivity).
  destruct (generate false Sample.now Sample.stocked) as [fs' rep|e fs'] eqn:G;
    [|discriminate D].
  exists rep. split; [reflexivity|].
  destruct (generate_manifest_frame _ _ _ _ _ G) as (d & M & H & _).
  rewrite H by discriminate. cbn [Sample.stocked manifest_file] in M.
  injection M as <-. reflexivity.
Defined.

(** ** The stamp of a second *)

Lemma zero_pad_length_4 n : (n < 10000)%N -> List.length (zero_pad 4 n) = 4%nat.
Proof.
  intros H.
  assert (A : forallb (fun k => (List.length (zero_pad 4 (N.of_nat k)) =? 4)%nat)
                      (seq 0 (N.to_nat 10000)) = true) by (vm_compute; reflexivity).
  rewrite forallb_forall in A. rewrite <- (N2Nat.id n).
  apply Nat.eqb_eq, A, in_seq. lia.
Qed.

Lemma zero_pad_length_2 n : (n < 100)%N -> List.length (zero_pad 2 n) = 2%nat.
Proof.
  intros H.
  assert (A : forallb (fun k => (List.length (zero_pad 2 (N.of_nat k)) =? 2)%nat)
                      (seq 0 100) = true) by (vm_compute; reflexivity).
  rewrite forallb_forall in A. rewrite <- (N2Nat.id n).
  apply Nat.eqb_eq, A, in_seq. lia.
Qed.

(** X28. The stamp depends on the clock to the second only and ends in
    [Z]; for a reading within the ranges of a calendar date it has 20
    characters, each a digit or one of [-], [T], [:] and [Z]. *)
Theorem utc_now_second (a b : datetime) :
  same_second a b ->
  _utc_now_iso_z a = _utc_now_iso_z b /\
  last (_utc_now_iso_z a) = Some "Z"%char /\
  (in_range a ->
   List.length (_utc_now_iso_z a) = 20%nat /\
   Forall (fun c => is_digit c = true \/ In c (lit "-T:Z")) (_utc_now_iso_z a)).
Proof.
  intros (Hy & Hmo & Hd & Hh & Hmi & Hs). split; [|split].
  - unfold _utc_now_iso_z. rewrite Hy, Hmo, Hd, Hh, Hmi, Hs. reflexivity.
  - rewrite utc_now_format. apply last_snoc.
  - intros (Ry & Rmo & Rd & Rh & Rmi & Rs). rewrite utc_now_format. split.
    + repeat (rewrite ?length_app; cbn [List.length]).
      rewrite zero_pad_length_4, !zero_pad_length_2 by assumption. reflexivity.
    + assert (Z : forall w n,
                 Forall (fun c => is_digit c = true \/ In c (lit "-T:Z")) (zero_pad w n)).
      { intros w n. eapply List.Forall_impl; [|apply zero_pad_digits]. auto. }
      apply Forall_app. split; [|repeat constructor; right; cbn; tauto].
      repeat (apply Forall_app; split; [apply Z|];
              apply Forall_cons; split; [right; cbn; tauto|]).
      apply Z.
Qed.

Lemma utc_now_second_witness :
  _utc_now_iso_z Sample.now = _utc_now_iso_z (mkDatetime 2026 11 3 10 0 0 999999) /\
  List.length (_utc_now_iso_z Sample.now) = 20%nat.
Proof.
  destruct (utc_now_second Sample.now (mkDatetime 2026 11 3 10 0 0 999999))
    as (H1 & _ & H2).
  - repeat split.
  - split; [exact H1|]. apply H2. repeat split.
Defined.

(** ** The summary *)

(** X29. The lists of the summary.  The results listed as created and
    those listed as refreshed are all the results, none twice; the refreshed
    list is the results marked refreshed; and every result listed as bumped
    has the reason [content changed -> version bumped]. *)
Theorem summary_lists (dry_run : bool) (now : datetime)
    (fs fs' : FileSystem) (rep : Report) :
  generate dry_run now fs = Done fs' rep ->
  (List.length (created_keys (rep_results rep))
   + List.length (refreshed_keys (rep_results rep)))%nat
  = List.length (rep_results rep) /\
  refreshed_keys (rep_results rep) = List.filter refreshed (rep_results rep) /\
  Forall (fun r => reason r = lit "content changed -> version bumped")
         (bumped_keys (rep_results rep)).
Proof.
  intros G.
  assert (X : Forall (fun r => refreshed r = negb (created r)) (rep_results rep)).
  { apply List.Forall_forall. intros r Hr. apply in_split in Hr as (pre & post & E).
    apply generate_done in G as (table & d & m & C & M & S & G).
    cbv zeta in G. destruct G as (_ & _ & ->). cbn [final_report rep_results] in E.
    rewrite fold_results in E. cbn [loop_start results files app] in E.
    apply (plan_results_created _ _ _ _ _ _ E). }
  split; [|split].
  - unfold created_keys, refreshed_keys. induction X as [|r l Hr _ IH]; [reflexivity|].
    cbn [List.filter List.length]. rewrite Hr.
    destruct (created r); cbn [negb andb List.length]; lia.
  - unfold refreshed_keys. induction X as [|r l Hr _ IH]; [reflexivity|].
    cbn [List.filter]. rewrite Hr, IH. destruct (created r); reflexivity.
  - apply generate_done in G as (table & d & m & C & M & S & G).
    cbv zeta in G. destruct G as (_ & _ & ->). cbn [final_report rep_results].
    rewrite fold_results. cbn [loop_start results files app].
    apply List.Forall_forall. intros r Hr. unfold bumped_keys in Hr.
    apply List.filter_In in Hr as [Hr Hb].
    destruct (plan_results_in _ _ _ _ Hr) as (p & Hp & Eb & Er).
    pose proof (plans_planned (rows table)) as P. rewrite List.Forall_forall in P.
    destruct (planned_reason p (P p Hp)) as [_ E].
    rewrite Er, E, <- Eb, Hb. reflexivity.
Qed.

Lemma summary_lists_witness :
  exists rep,
    report_of (generate true Sample.now Sample.twice) = Some rep /\
    (List.length (created_keys (rep_results rep))
     + List.length (refreshed_keys (rep_results rep)))%nat
    = List.length (rep_results rep).
Proof.
  assert (D : is_done (generate true Sample.now Sample.twice) = true)
    by (vm_compute; reflexivity).
  destruct (generate true Sample.now Sample.twice) as [fs' rep|e fs'] eqn:G;
    [|discriminate D].
  exists rep. split; [reflexivity|].
  apply (summary_lists _ _ _ _ _ G).
Defined.

(** ** The order of the hints *)

Lemma insert_by_index_swap x y l :
  hint_index x <> hint_index y ->
  insert_by_index x (insert_by_index y l) = insert_by_index y (insert_by_index x l).
Proof.
  intros H. induction l as [|s l IH].
  - cbn [insert_by_index].
    destruct (Z.leb_spec (hint_index x) (hint_index y)),
             (Z.leb_spec (hint_index y) (hint_index x)); try reflexivity; lia.
  - cbn [insert_by_index].
    destruct (Z.leb_spec (hint_index y) (hint_index s)) as [Hys|Hys],
             (Z.leb_spec (hint_index x) (hint_index s)) as [Hxs|Hxs];
      cbn [insert_by_index];
      destruct (Z.leb_spec (hint_index x) (hint_index y)) as [Hxy|Hxy],
               (Z.leb_spec (hint_index y) (hint_index x)) as [Hyx|Hyx];
      try lia;
      repeat match goal with
             | |- context [(?a <=? ?b)%Z] =>
                 destruct (Z.leb_spec a b); try lia
             end;
      rewrite ?IH; reflexivity.
Qed.

Lemma sorted_by_index_perm hs hs' :
  Permutation hs hs' -> List.NoDup (map hint_index hs) ->
  sorted_by_index hs = sorted_by_index hs'.
Proof.
  unfold sorted_by_index. induction 1 as [|x l l' _ IH|x y l|l l' l'' P1 IH1 P2 IH2];
    intros Hnd.
  - reflexivity.
  - cbn [fold_right map] in *. rewrite IH; [reflexivity|]. inversion Hnd; assumption.
  - cbn [fold_right map] in *. apply insert_by_index_swap.
    inversion Hnd as [|? ? Hx _]; subst. intros E. apply Hx. left. congruence.
  - rewrite IH1 by exact Hnd. apply IH2.
    eapply Permutation_NoDup; [|exact Hnd]. apply Permutation_map, P1.
Qed.

Lemma dict_pop_set_ne {V} (d : dict V) k k' (x : V) :
  k <> k' -> dict_pop (dict_set d k x) k' = dict_set (dict_pop d k') k x.
Proof.
  intros H. induction d as [|[k0 v0] d IH]; cbn [dict_set dict_pop].
  - apply str_eqb_neq in H. rewrite H. reflexivity.
  - destruct (str_eqb k0 k) eqn:E1; cbn [dict_pop].
    + apply str_eqb_eq in E1. subst k0. apply str_eqb_neq in H. rewrite H.
      cbn [dict_set]. rewrite str_eqb_refl. reflexivity.
    + destruct (str_eqb k0 k') eqn:E2; [reflexivity|].
      cbn [dict_set]. rewrite E1, IH. reflexivity.
Qed.

Lemma dict_set_set {V} (d : dict V) k (x y : V) :
  dict_set (dict_set d k x) k y = dict_set d k y.
Proof.
  induction d as [|[k0 v0] d IH]; cbn [dict_set].
  - rewrite str_eqb_refl. reflexivity.
  - destruct (str_eqb k0 k) eqn:E; cbn [dict_set]; rewrite E; [reflexivity|].
    rewrite IH. reflexivity.
Qed.

Lemma canonical_text_hints d hs :
  canonical_text (dict_set d (lit "hints") (JArr hs))
  = dumps_compact
      (JObj (dict_set (dict_pop d (lit "version")) (lit "hints")
                      (JArr (sorted_by_index hs)))).
Proof.
  unfold canonical_text. rewrite dict_pop_set_ne by discriminate.
  rewrite dict_get_set_eq, dict_set_set. reflexivity.
Qed.

(** X30. The content hash does not depend on the order of the hints: two
    lists of hints with distinct indices, one a permutation of the other,
    are sorted to the same list, so records that differ in the order of
    their hints only have the same canonical text and the same content
    hash. *)
Theorem content_hash_hint_order (d : dict jvalue) (hs hs' : list jvalue) :
  Forall indexed hs -> Permutation hs hs' -> NoDup (map hint_index hs) ->
  sorted_by_index hs = sorted_by_index hs' /\
  canonical_text (dict_set d (lit "hints") (JArr hs))
  = canonical_text (dict_set d (lit "hints") (JArr hs')) /\
  compute_content_hash (dict_set d (lit "hints") (JArr hs))
  = compute_content_hash (dict_set d (lit "hints") (JArr hs')).
Proof.
  intros _ P Hnd. apply NoDup_ListNoDup in Hnd.
  pose proof (sorted_by_index_perm hs hs' P Hnd) as E.
  split; [exact E|]. unfold compute_content_hash.
  rewrite !canonical_text_hints, E. auto.
Qed.

Lemma content_hash_hint_order_witness :
  compute_content_hash
    [(lit "hints", JArr [hint_obj 1 (lit "b") []; hint_obj 0 (lit "a") []])]
  = compute_content_hash
      [(lit "hints", JArr [hint_obj 0 (lit "a") []; hint_obj 1 (lit "b") []])].
Proof.
  apply (content_hash_hint_order []
           [hint_obj 1 (lit "b") []; hint_obj 0 (lit "a") []]
           [hint_obj 0 (lit "a") []; hint_obj 1 (lit "b") []]).
  - repeat constructor.
  - apply perm_swap.
  - apply (bool_decide_unpack _). vm_compute. exact I.
Defined.
